(** * ServidorFIHR: the FHIR-Lite record server ([src/server.py])

    A shallow embedding of the request validators, the transaction wrapper
    [get_db_connection], the audit logger [log_event] and the Patient and
    Observation handlers, followed by the properties established about them.
    The listings, the health check and the routes over the client of the
    hosting API ([src/render_mcp.py]) come after the handlers, and their
    properties in Part III.

    Conventions of the embedding.
    - A Python [str] is a [string] (its UTF-8 bytes); [str.lower] and SQL
      [LOWER] are modelled on the ASCII letters.
    - The three tables are finite maps keyed by their primary key (patients,
      observations) and an append-only list (logs).
    - Everything a handler reads from outside the source file (configuration,
      clocks, the random UUID, failures of the storage engine, and
      [datetime.fromisoformat], whose grammar depends on the version of
      Python) is a field of the environment record [Env].
    - A handler is a function from the committed store to a result and the
      store it leaves behind; a raised exception is the left injection. *)

From stdpp Require Import base option list strings gmap pretty sorting.
From Stdlib Require Import ZArith Lia Ascii.

Local Open Scope Z_scope.

(* ================================================================== *)
(** * Part I. Definitions                                              *)
(* ================================================================== *)

(** ** Strings *)

Definition chars (s : string) : list ascii := String.list_ascii_of_string s.
Definition text (l : list ascii) : string := String.string_of_list_ascii l.

Definition code (c : ascii) : Z := Z.of_N (Ascii.N_of_ascii c).
Definition chr (n : Z) : ascii := Ascii.ascii_of_N (Z.to_N n).

(** [str.lower()] and SQL [LOWER()], on the ASCII letters. *)
Definition lower_char (c : ascii) : ascii :=
  if (65 <=? code c) && (code c <=? 90) then chr (code c + 32) else c.

Definition lower (s : string) : string := text (map lower_char (chars s)).

(** Python's [x in s] for two strings. *)
Fixpoint is_prefix (p s : list ascii) : bool :=
  match p, s with
  | [], _ => true
  | a :: p', b :: s' => bool_decide (a = b) && is_prefix p' s'
  | _ :: _, [] => false
  end.

Fixpoint contains (p s : list ascii) : bool :=
  is_prefix p s || match s with [] => false | _ :: s' => contains p s' end.

(** [repr(s)] of a [str]: the quote is the apostrophe unless the string has
    an apostrophe and no double quote; backslash, the quote and the control
    characters are escaped. *)
Definition hex_digit (n : Z) : ascii :=
  if n <? 10 then chr (48 + n) else chr (87 + n).

Definition repr_char (quote c : ascii) : list ascii :=
  let bs := chr 92 in
  if bool_decide (c = bs) then [bs; bs]
  else if bool_decide (c = quote) then [bs; quote]
  else if code c =? 9 then [bs; chr 116]
  else if code c =? 10 then [bs; chr 110]
  else if code c =? 13 then [bs; chr 114]
  else if (code c <? 32) || (code c =? 127)
       then [bs; chr 120; hex_digit (code c / 16); hex_digit (code c mod 16)]
  else [c].

Definition repr (s : string) : string :=
  let l := chars s in
  let apostrophe := chr 39 in
  let dquote := chr 34 in
  let quote :=
    if bool_decide (apostrophe ∈ l) && negb (bool_decide (dquote ∈ l))
    then dquote else apostrophe in
  text (quote :: concat (map (repr_char quote) l) ++ [quote]).

(** ** Calendar dates and [datetime.fromisoformat] *)

Record date := mkdate { year : Z; month : Z; day : Z }.

(** Python compares dates as the triples (year, month, day). *)
Definition date_ltb (a b : date) : bool :=
  (year a <? year b)
  || ((year a =? year b)
      && ((month a <? month b)
          || ((month a =? month b) && (day a <? day b)))).

Definition date_leb (a b : date) : bool := negb (date_ltb b a).

Definition is_leap (y : Z) : bool :=
  (y mod 4 =? 0) && (negb (y mod 100 =? 0) || (y mod 400 =? 0)).

Definition days_in_month (y m : Z) : Z :=
  if m =? 2 then (if is_leap y then 29 else 28)
  else if (m =? 4) || (m =? 6) || (m =? 9) || (m =? 11) then 30
  else 31.

Record datetime := mkdatetime {
  dt_date : date;           (* [.date()] *)
  hour : Z; minute : Z; second : Z; microsecond : Z;
  tzinfo : option Z         (* UTC offset in microseconds, if any *)
}.

(** A [ValueError], by its message ([str(e)]). *)
Definition ValueError := string.

Definition digit_of (c : ascii) : option Z :=
  if (48 <=? code c) && (code c <=? 57) then Some (code c - 48) else None.

(** Reads exactly [n] ASCII digits. *)
Fixpoint parse_digits (n : nat) (acc : Z) (s : list ascii)
  : option (Z * list ascii) :=
  match n with
  | O => Some (acc, s)
  | S n' =>
      match s with
      | c :: s' =>
          match digit_of c with
          | Some d => parse_digits n' (acc * 10 + d) s'
          | None => None
          end
      | [] => None
      end
  end.

Definition expect (c : ascii) (s : list ascii) : option (list ascii) :=
  match s with
  | c' :: s' => if bool_decide (c = c') then Some s' else None
  | [] => None
  end.

(** [YYYY-MM-DD], returning what follows. *)
Definition parse_isoformat_date (s : list ascii)
  : option (Z * Z * Z * list ascii) :=
  '(y, s) ← parse_digits 4 0 s;
  s ← expect "-"%char s;
  '(m, s) ← parse_digits 2 0 s;
  s ← expect "-"%char s;
  '(d, s) ← parse_digits 2 0 s;
  Some (y, m, d, s).

(** [.fff] or [.ffffff] (or nothing), to the end of the component. *)
Definition parse_fraction (s : list ascii) : option Z :=
  match s with
  | [] => Some 0
  | c :: f =>
      if bool_decide (c = "."%char) then
        match length f with
        | 3%nat => '(us, _) ← parse_digits 3 0 f; Some (us * 1000)
        | 6%nat => '(us, _) ← parse_digits 6 0 f; Some us
        | _ => None
        end
      else None
  end.

(** [HH[:MM[:SS[.fff[fff]]]]], the whole of [s]. *)
Definition parse_hh_mm_ss_ff (s : list ascii) : option (Z * Z * Z * Z) :=
  '(h, s) ← parse_digits 2 0 s;
  match s with
  | [] => Some (h, 0, 0, 0)
  | _ =>
      s ← expect ":"%char s;
      '(m, s) ← parse_digits 2 0 s;
      match s with
      | [] => Some (h, m, 0, 0)
      | _ =>
          s ← expect ":"%char s;
          '(sec, s) ← parse_digits 2 0 s;
          us ← parse_fraction s;
          Some (h, m, sec, us)
      end
  end.

(** Splits a time string at its first [+] or [-]. *)
Fixpoint split_tz (s : list ascii) : list ascii * option (Z * list ascii) :=
  match s with
  | [] => ([], None)
  | c :: s' =>
      if bool_decide (c = "+"%char) then ([], Some (1, s'))
      else if bool_decide (c = "-"%char) then ([], Some (-1, s'))
      else let '(t, tz) := split_tz s' in (c :: t, tz)
  end.

(** [HH[:MM[:SS[.fff[fff]]]][+HH:MM[:SS[.ffffff]]]]; the offset is returned
    in microseconds. *)
Definition parse_isoformat_time (s : list ascii)
  : option (Z * Z * Z * Z * option Z) :=
  let '(t, tz) := split_tz s in
  '(h, m, sec, us) ← parse_hh_mm_ss_ff t;
  match tz with
  | None => Some (h, m, sec, us, None)
  | Some (sign, z) =>
      if bool_decide (length z ∈ [5; 8; 15]%nat) then
        '(zh, zm, zs, zus) ← parse_hh_mm_ss_ff z;
        Some (h, m, sec, us,
              Some (sign * (((zh * 3600 + zm * 60 + zs) * 1000000) + zus)))
      else None
  end.

(** The separator between date and time is any single character: one to
    four bytes of UTF-8, by its leading byte. *)
Definition skip_separator (s : list ascii) : list ascii :=
  match s with
  | [] => []
  | c :: _ =>
      if code c <? 128 then drop 1 s
      else if Z.land (code c) 240 =? 224 then drop 3 s
      else if Z.land (code c) 240 =? 240 then drop 4 s
      else drop 2 s
  end.

(** [repr] of the [timedelta] of [us] microseconds. *)
Definition repr_timedelta (us : Z) : string :=
  let days := us / 86400000000 in
  let secs := (us mod 86400000000) / 1000000 in
  let micro := us mod 1000000 in
  let parts :=
    (if days =? 0 then [] else ["days=" +:+ pretty days])
    ++ (if secs =? 0 then [] else ["seconds=" +:+ pretty secs])
    ++ (if micro =? 0 then [] else ["microseconds=" +:+ pretty micro]) in
  "datetime.timedelta("
  +:+ (match parts with [] => "0" | _ => String.concat ", " parts end)
  +:+ ")".

(** The range checks of the [datetime] constructor, in its order. *)
Definition new_datetime (y m d h mi s us : Z) (tz : option Z)
  : ValueError + datetime :=
  if negb ((1 <=? y) && (y <=? 9999))
  then inl ("year " +:+ pretty y +:+ " is out of range")
  else if negb ((1 <=? m) && (m <=? 12)) then inl "month must be in 1..12"
  else if negb ((1 <=? d) && (d <=? days_in_month y m))
  then inl "day is out of range for month"
  else if negb (h <=? 23) then inl "hour must be in 0..23"
  else if negb (mi <=? 59) then inl "minute must be in 0..59"
  else if negb (s <=? 59) then inl "second must be in 0..59"
  else inr (mkdatetime (mkdate y m d) h mi s us tz).

(** [datetime.fromisoformat(date_string)] as Python 3.7 to 3.10 document
    it: the format [YYYY-MM-DD[*HH[:MM[:SS[.fff[fff]]]][+HH:MM[:SS[.ffffff]]]]],
    where [*] is any single character. Later versions read further
    spellings of ISO 8601 ([20000101], [2000-W01-1], a final [Z]) and the
    source pins no version, so the function that the validators call is a
    field of the environment, [fromisoformat]; this one is the interpreter
    of the example server. *)
Definition fromisoformat_py37 (date_string : string) : ValueError + datetime :=
  let invalid := inl ("Invalid isoformat string: " +:+ repr date_string) in
  match parse_isoformat_date (chars date_string) with
  | None => invalid
  | Some (y, m, d, rest) =>
      let time :=
        match rest with
        | [] => Some (0, 0, 0, 0, None)
        | _ => parse_isoformat_time (skip_separator rest)
        end in
      match time with
      | None => invalid
      | Some (h, mi, s, us, tz) =>
          match tz with
          | Some off =>
              if (-86400000000 <? off) && (off <? 86400000000)
              then new_datetime y m d h mi s us tz
              else inl ("offset must be a timedelta strictly between "
                        +:+ "-timedelta(hours=24) and timedelta(hours=24), not "
                        +:+ repr_timedelta off +:+ ".")
          | None => new_datetime y m d h mi s us tz
          end
      end
  end.

(** ** The request models (pydantic) *)

(** A member of a JSON payload as the models read it: a string or [null];
    an absent member is [None]. *)
Definition member := option (option string).

(** A validation failure: the offending field and the reason. *)
Definition field_error := (string * string)%type.

Definition required (field : string) (m : member) : list field_error + string :=
  match m with
  | None => inl [(field, "field required")]
  | Some None => inl [(field, "none is not an allowed value")]
  | Some (Some v) => inr v
  end.

Definition check {A} (field : string) (r : ValueError + A)
  : list field_error + A :=
  match r with
  | inl msg => inl [(field, msg)]
  | inr v => inr v
  end.

Definition errors_of {A} (r : list field_error + A) : list field_error :=
  match r with inl es => es | inr _ => [] end.

Module Patient.

Record t := mk {
  id : string;
  family_name : string;
  given_name : string;
  gender : string;
  birthDate : string;
  medical_summary : string
}.

Record payload := mk_payload {
  p_id : member;
  p_family_name : member;
  p_given_name : member;
  p_gender : member;
  p_birthDate : member;
  p_medical_summary : member
}.

Definition validate_gender (v : string) : ValueError + string :=
  if bool_decide (v ∉ ["male"; "female"; "other"])
  then inl "Género debe ser 'male', 'female' u 'other'"
  else inr v.

(** The body of the [try]: the two range errors are raised inside it.
    [fromisoformat] is [datetime.fromisoformat] of the interpreter. *)
Definition birthdate_checks (fromisoformat : string → ValueError + datetime)
    (today : date) (v : string) : ValueError + unit :=
  match fromisoformat v with
  | inl e => inl e
  | inr dt =>
      let birth := dt_date dt in
      if date_ltb today birth
      then inl "Fecha de nacimiento no puede ser futura"
      else if date_ltb birth (mkdate 1900 1 1)
      then inl "Fecha de nacimiento inválida"
      else inr ()
  end.

(** [except ValueError as e: raise ValueError(f"Fecha inválida: {str(e)}")]. *)
Definition validate_birthdate (fromisoformat : string → ValueError + datetime)
    (today : date) (v : string) : ValueError + string :=
  match birthdate_checks fromisoformat today v with
  | inl e => inl ("Fecha inválida: " +:+ e)
  | inr _ => inr v
  end.

(** Building the model from a payload: every field is required, the two
    validators run on their fields, and all failures are collected. *)
Definition validate (fromisoformat : string → ValueError + datetime)
    (today : date) (p : payload) : list field_error + t :=
  let r_id := required "id" (p_id p) in
  let r_family := required "family_name" (p_family_name p) in
  let r_given := required "given_name" (p_given_name p) in
  let r_gender :=
    match required "gender" (p_gender p) with
    | inl es => inl es
    | inr v => check "gender" (validate_gender v)
    end in
  let r_birth :=
    match required "birthDate" (p_birthDate p) with
    | inl es => inl es
    | inr v => check "birthDate" (validate_birthdate fromisoformat today v)
    end in
  let r_summary := required "medical_summary" (p_medical_summary p) in
  match r_id, r_family, r_given, r_gender, r_birth, r_summary with
  | inr i, inr f, inr g, inr s, inr b, inr m => inr (mk i f g s b m)
  | _, _, _, _, _, _ =>
      inl (errors_of r_id ++ errors_of r_family ++ errors_of r_given
           ++ errors_of r_gender ++ errors_of r_birth ++ errors_of r_summary)
  end.

End Patient.

Module PatientUpdate.

(** Every field is [Optional[str] = None]; the model remembers which
    fields the payload set ([None] here is an unset field). *)
Record t := mk {
  family_name : member;
  given_name : member;
  gender : member;
  birthDate : member;
  medical_summary : member
}.

(** [if v and v not in [...]]: [None] and the empty string are falsy. *)
Definition validate_gender (v : option string) : ValueError + option string :=
  match v with
  | Some s =>
      if negb (bool_decide (s = "")) && bool_decide (s ∉ ["male"; "female"; "other"])
      then inl "Género debe ser 'male', 'female' u 'other'"
      else inr v
  | None => inr v
  end.

(** Building the model from a payload: the only validator is the one of
    [gender], and it runs when the payload has the member. *)
Definition validate (p : t) : list field_error + t :=
  match gender p with
  | None => inr p
  | Some v =>
      match validate_gender v with
      | inl msg => inl [("gender", msg)]
      | inr _ => inr p
      end
  end.

(** [updates.dict(exclude_unset=True).items()], in field order. *)
Definition dict_exclude_unset (u : t) : list (string * option string) :=
  let item (key : string) (m : member) :=
    match m with Some v => [(key, v)] | None => [] end in
  item "family_name" (family_name u) ++ item "given_name" (given_name u)
  ++ item "gender" (gender u) ++ item "birthDate" (birthDate u)
  ++ item "medical_summary" (medical_summary u).

End PatientUpdate.

Module Observation.

Record t := mk {
  patient_id : string;
  category : string;
  code : string;
  display : string;
  value : Z;              (* the float, carried as its binary64 pattern *)
  unit : string;
  date : string
}.

Definition validate_date (fromisoformat : string → ValueError + datetime)
    (v : string) : ValueError + string :=
  match fromisoformat v with
  | inl _ => inl "Formato de fecha inválido (use YYYY-MM-DD)"
  | inr _ => inr v
  end.

End Observation.

(** ** The store *)

Module PatientRow.
Record t := mk {
  id : string;                      (* VARCHAR(50) PRIMARY KEY *)
  family_name : string;             (* VARCHAR(100) NOT NULL *)
  given_name : string;              (* VARCHAR(100) NOT NULL *)
  gender : string;                  (* VARCHAR(10) NOT NULL CHECK (...) *)
  birth_date : date;                (* DATE NOT NULL *)
  medical_summary : option string;  (* TEXT *)
  created_at : Z;                   (* TIMESTAMP DEFAULT CURRENT_TIMESTAMP *)
  updated_at : Z                    (* TIMESTAMP DEFAULT CURRENT_TIMESTAMP *)
}.
End PatientRow.

Module ObservationRow.
Record t := mk {
  id : string;                      (* VARCHAR(50) PRIMARY KEY *)
  patient_id : string;              (* REFERENCES patients(id) ON DELETE CASCADE *)
  category : string;
  code : string;
  display : string;
  value : Z;
  unit : string;
  date : date;
  created_at : Z
}.
End ObservationRow.

Module LogRow.
Record t := mk {
  id : Z;                           (* SERIAL PRIMARY KEY *)
  timestamp : Z;
  action : string;
  resource : string;
  resource_id : string
}.
End LogRow.

Record DB := mkDB {
  patients : gmap string PatientRow.t;
  observations : gmap string ObservationRow.t;
  logs : list LogRow.t;               (* in insertion order *)
  logs_id_seq : Z                     (* the sequence behind [logs.id] *)
}.

(** The store after [initialize_db] on a fresh database. *)
Definition empty_db : DB := mkDB ∅ ∅ [] 0.

(** ** The environment of a request *)

(** What the storage engine can do to one transaction besides executing
    its statements. *)
Inductive fault :=
| NoFault
| ConnectFails (pgerror : string)             (* [psycopg2.connect] raises *)
| ExecuteFails (n : nat) (pgerror : string)   (* the [n]-th [cur.execute] raises *)
| CommitFails (pgerror : string).             (* [conn.commit] raises *)

Record Env := mkEnv {
  DATABASE_URL : option string;       (* [os.getenv("DATABASE_URL")] *)
  today : date;                       (* [date.today()] *)
  fromisoformat : string → ValueError + datetime;
                                      (* [datetime.fromisoformat] *)
  utcnow : Z;                         (* [datetime.utcnow()] *)
  CURRENT_TIMESTAMP : Z;              (* of the handler's transaction *)
  uuid4 : string;                     (* [str(uuid.uuid4())] *)
  date_in : string → option date;     (* the engine's conversion to DATE *)
  main_fault : fault;                 (* on the handler's transaction *)
  log_fault : fault                   (* on the transaction of [log_event] *)
}.

(** ** Exceptions *)

Inductive exn :=
| HTTPException (status_code : Z) (detail : string)
| Psycopg2Error (pgerror : string).

(** [str(e)]: Starlette prints an [HTTPException] as its status and detail
    (its older releases print nothing); only the detail of a 500 that wraps
    another exception depends on it. *)
Definition str (e : exn) : string :=
  match e with
  | HTTPException status_code detail => pretty status_code +:+ ": " +:+ detail
  | Psycopg2Error pgerror => pgerror
  end.

(** ** SQL values and constraints of the schema *)

#[local] Instance sum_bind {E} : MBind (sum E) :=
  λ _ _ f m, match m with inl e => inl e | inr a => f a end.
#[local] Instance sum_ret {E} : MRet (sum E) := λ _ a, inr a.

(** An engine error is the message the driver puts in [psycopg2.Error];
    its wording is the engine's, and the handlers only pass it on. *)
Abbreviation pgresult A := (string + A)%type.

Definition not_null (column : string) (v : option string) : pgresult string :=
  match v with
  | Some s => inr s
  | None => inl ("null value in column " +:+ column
                 +:+ " violates not-null constraint")
  end.

(** Assignment to [VARCHAR(n)]: too long a value is an error, unless the
    excess is spaces only, which are dropped. *)
Definition varchar (n : nat) (s : string) : pgresult string :=
  let l := chars s in
  if bool_decide (length l ≤ n)%nat then inr s
  else if forallb (λ c, bool_decide (c = " "%char)) (drop n l)
  then inr (text (take n l))
  else inl ("value too long for type character varying(" +:+ pretty n +:+ ")").

Definition gender_check (s : string) : pgresult string :=
  if bool_decide (s ∈ ["male"; "female"; "other"]) then inr s
  else inl "new row for relation patients violates check constraint patients_gender_check".

Definition to_date (env : Env) (s : string) : pgresult date :=
  match date_in env s with
  | Some d => inr d
  | None => inl ("invalid input syntax for type date: " +:+ s)
  end.

(** The expressions the handlers put on the right of [SET column =]: a
    parameter for one of the five columns of the models, and the time of
    the transaction for [updated_at]. *)
Inductive sqlval :=
| Param (v : option string)           (* a [%s] bound to a [str] or [None] *)
| Current_timestamp.

Definition set_column (env : Env) (column : string) (v : sqlval)
    (r : PatientRow.t) : pgresult PatientRow.t :=
  let '(PatientRow.mk i f g s b m c u) := r in
  match v with
  | Param v =>
      if bool_decide (column = "family_name") then
        x ← not_null column v; x ← varchar 100 x;
        mret (PatientRow.mk i x g s b m c u)
      else if bool_decide (column = "given_name") then
        x ← not_null column v; x ← varchar 100 x;
        mret (PatientRow.mk i f x s b m c u)
      else if bool_decide (column = "gender") then
        x ← not_null column v; x ← varchar 10 x; x ← gender_check x;
        mret (PatientRow.mk i f g x b m c u)
      else if bool_decide (column = "birth_date") then
        x ← not_null column v; x ← to_date env x;
        mret (PatientRow.mk i f g s x m c u)
      else if bool_decide (column = "medical_summary") then
        mret (PatientRow.mk i f g s b v c u)
      else inl ("column " +:+ column +:+ " of relation patients does not exist")
  | Current_timestamp =>
      if bool_decide (column = "updated_at") then
        mret (PatientRow.mk i f g s b m c (CURRENT_TIMESTAMP env))
      else if bool_decide (column = "created_at") then
        mret (PatientRow.mk i f g s b m (CURRENT_TIMESTAMP env) u)
      else inl ("column " +:+ column +:+ " is of another type than timestamp")
  end.

Fixpoint set_columns (env : Env) (sets : list (string * sqlval))
    (r : PatientRow.t) : pgresult PatientRow.t :=
  match sets with
  | [] => mret r
  | (column, v) :: sets' => r' ← set_column env column v r; set_columns env sets' r'
  end.

(** ** The SQL statements of the handlers

    A statement maps the store of the open transaction to an engine error
    or to its result set and the store after it. *)

Definition statement (A : Type) : Type := DB → pgresult (A * DB).

(** [SELECT id FROM patients WHERE id = %s] (and [SELECT *]), then
    [cur.fetchone()]. *)
Definition select_patient (patient_id : string) : statement (option PatientRow.t) :=
  λ db, inr (patients db !! patient_id, db).

(** [INSERT INTO patients (id, family_name, given_name, gender, birth_date,
    medical_summary) VALUES (...)]. *)
Definition insert_patient (env : Env) (p : Patient.t) : statement () :=
  λ db,
    i ← varchar 50 (Patient.id p);
    f ← varchar 100 (Patient.family_name p);
    g ← varchar 100 (Patient.given_name p);
    s ← varchar 10 (Patient.gender p);
    s ← gender_check s;
    b ← to_date env (Patient.birthDate p);
    match patients db !! i with
    | Some _ => inl "duplicate key value violates unique constraint patients_pkey"
    | None =>
        let r := PatientRow.mk i f g s b (Some (Patient.medical_summary p))
                   (CURRENT_TIMESTAMP env) (CURRENT_TIMESTAMP env) in
        mret ((), mkDB (<[i := r]> (patients db)) (observations db)
                       (logs db) (logs_id_seq db))
    end.

(** [UPDATE patients SET ... WHERE id = %s]. *)
Definition update_patients (env : Env) (sets : list (string * sqlval))
    (patient_id : string) : statement () :=
  λ db,
    match patients db !! patient_id with
    | None => mret ((), db)
    | Some r =>
        r' ← set_columns env sets r;
        mret ((), mkDB (<[patient_id := r']> (patients db)) (observations db)
                       (logs db) (logs_id_seq db))
    end.

(** [SELECT COUNT( * ) as total FROM observations WHERE patient_id = %s]. *)
Definition count_observations (patient_id : string) : statement Z :=
  λ db,
    inr (Z.of_nat (size (filter (λ kv, ObservationRow.patient_id kv.2 = patient_id)
                                (observations db))), db).

(** [DELETE FROM patients WHERE id = %s]; the foreign key of observations
    is [ON DELETE CASCADE]. *)
Definition delete_patient_row (patient_id : string) : statement () :=
  λ db,
    inr ((), mkDB (delete patient_id (patients db))
                  (filter (λ kv, ObservationRow.patient_id kv.2 ≠ patient_id)
                          (observations db))
                  (logs db) (logs_id_seq db)).

(** [INSERT INTO observations (id, patient_id, category, code, display,
    value, unit, date) VALUES (...)]. *)
Definition insert_observation (env : Env) (obs_id : string)
    (o : Observation.t) : statement () :=
  λ db,
    i ← varchar 50 obs_id;
    p ← varchar 50 (Observation.patient_id o);
    c ← varchar 50 (Observation.category o);
    k ← varchar 50 (Observation.code o);
    d ← varchar 100 (Observation.display o);
    u ← varchar 20 (Observation.unit o);
    t ← to_date env (Observation.date o);
    match observations db !! i, patients db !! p with
    | Some _, _ =>
        inl "duplicate key value violates unique constraint observations_pkey"
    | None, None =>
        inl "insert or update on table observations violates foreign key constraint observations_patient_id_fkey"
    | None, Some _ =>
        let r := ObservationRow.mk i p c k d (Observation.value o) u t
                   (CURRENT_TIMESTAMP env) in
        mret ((), mkDB (patients db) (<[i := r]> (observations db))
                       (logs db) (logs_id_seq db))
    end.

(** [INSERT INTO logs (timestamp, action, resource, resource_id)
    VALUES (...)]; the id is the next value of the sequence. *)
Definition insert_log (timestamp : Z) (action resource resource_id : string)
  : statement () :=
  λ db,
    a ← varchar 20 action;
    r ← varchar 50 resource;
    i ← varchar 50 resource_id;
    let n := logs_id_seq db + 1 in
    mret ((), mkDB (patients db) (observations db)
                   (logs db ++ [LogRow.mk n timestamp a r i]) n).

(** *** [LIKE] *)

(** A pattern is read left to right: [%] is any run of characters, [_] any
    one character, and a backslash makes the next character literal; a
    pattern may not end in a lone backslash. *)
Inductive like_token := AnyRun | AnyOne | Literal (c : ascii).

Fixpoint like_tokens (p : list ascii) : option (list like_token) :=
  match p with
  | [] => Some []
  | c :: p' =>
      if bool_decide (c = "%"%char) then cons AnyRun <$> like_tokens p'
      else if bool_decide (c = "_"%char) then cons AnyOne <$> like_tokens p'
      else if bool_decide (c = chr 92) then
        match p' with
        | [] => None
        | c' :: p'' => cons (Literal c') <$> like_tokens p''
        end
      else cons (Literal c) <$> like_tokens p'
  end.

Fixpoint like_match (p : list like_token) (s : list ascii) : bool :=
  match p with
  | [] => match s with [] => true | _ => false end
  | AnyOne :: p' => match s with [] => false | _ :: s' => like_match p' s' end
  | Literal c :: p' =>
      match s with
      | [] => false
      | c' :: s' => bool_decide (c = c') && like_match p' s'
      end
  | AnyRun :: p' =>
      (fix run (s : list ascii) : bool :=
         like_match p' s
         || match s with [] => false | _ :: s' => run s' end) s
  end.

(** [value LIKE pattern]. *)
Definition like (value pattern : string) : pgresult bool :=
  match like_tokens (chars pattern) with
  | Some p => inr (like_match p (chars value))
  | None => inl "LIKE pattern must not end with escape character"
  end.

(** *** Queries with [ORDER BY] *)

(** The columns the patient queries select, [birth_date as "birthDate"]. *)
Module PatientResource.
Record t := mk {
  id : string;
  family_name : string;
  given_name : string;
  gender : string;
  birthDate : date;
  medical_summary : option string
}.
End PatientResource.

Definition resource_of (r : PatientRow.t) : PatientResource.t :=
  PatientResource.mk (PatientRow.id r) (PatientRow.family_name r)
    (PatientRow.given_name r) (PatientRow.gender r) (PatientRow.birth_date r)
    (PatientRow.medical_summary r).

(** [ORDER BY family_name, given_name], strings in byte order. *)
Definition by_name (a b : PatientRow.t) : bool :=
  match String.compare (PatientRow.family_name a) (PatientRow.family_name b) with
  | Lt => true
  | Gt => false
  | Eq => String.leb (PatientRow.given_name a) (PatientRow.given_name b)
  end.

(** [ORDER BY date DESC, created_at DESC]. *)
Definition by_date_desc (a b : ObservationRow.t) : bool :=
  date_ltb (ObservationRow.date b) (ObservationRow.date a)
  || (negb (date_ltb (ObservationRow.date a) (ObservationRow.date b))
      && (ObservationRow.created_at b <=? ObservationRow.created_at a)).

Fixpoint where_ {A} (cond : A → pgresult bool) (rows : list A)
  : pgresult (list A) :=
  match rows with
  | [] => mret []
  | r :: rows' =>
      keep ← cond r;
      rest ← where_ cond rows';
      mret (if keep : bool then r :: rest else rest)
  end.

(** [SELECT id, family_name, given_name, gender, birth_date as "birthDate",
    medical_summary FROM patients WHERE LOWER(family_name) LIKE %s OR
    LOWER(given_name) LIKE %s ORDER BY family_name, given_name], then
    [cur.fetchall()]. *)
Definition select_patients_like (pattern1 pattern2 : string)
  : statement (list PatientResource.t) :=
  λ db,
    rows ← where_ (λ r,
              a ← like (lower (PatientRow.family_name r)) pattern1;
              b ← like (lower (PatientRow.given_name r)) pattern2;
              mret (a || b))
            ((map_to_list (patients db)).*2);
    mret (resource_of <$> merge_sort by_name rows, db).

(** [SELECT id, patient_id, category, code, display, value, unit, date,
    created_at FROM observations WHERE patient_id = %s ORDER BY date DESC,
    created_at DESC], then [cur.fetchall()]. *)
Definition select_observations (patient_id : string)
  : statement (list ObservationRow.t) :=
  λ db,
    inr (merge_sort by_date_desc
           (filter (λ o, ObservationRow.patient_id o = patient_id)
                   ((map_to_list (observations db)).*2)), db).

(** ** Transactions: [get_db_connection] *)

(** The open connection: the fault the engine has in store for it, the
    store as the transaction sees it, and how many statements ran. *)
Record conn := mkconn {
  conn_fault : fault;
  work : DB;
  executed : nat
}.

(** The body of a [with get_db_connection() as conn:] block. *)
Definition Tx (A : Type) : Type := conn → (exn + A) * conn.

Definition tx_ret {A} (a : A) : Tx A := λ c, (inr a, c).

Definition tx_bind {A B} (m : Tx A) (k : A → Tx B) : Tx B :=
  λ c, match m c with
       | (inr a, c') => k a c'
       | (inl e, c') => (inl e, c')
       end.

Definition raise {A} (e : exn) : Tx A := λ c, (inl e, c).

#[local] Instance Tx_ret : MRet Tx := @tx_ret.
#[local] Instance Tx_bind : MBind Tx := λ _ _ k m, tx_bind m k.

(** [cur.execute(...)] followed by the fetch, if any. *)
Definition execute {A} (stmt : statement A) : Tx A :=
  λ c,
    let c' := mkconn (conn_fault c) (work c) (S (executed c)) in
    match conn_fault c with
    | ExecuteFails n pgerror =>
        if bool_decide (n = executed c) then (inl (Psycopg2Error pgerror), c')
        else match stmt (work c) with
             | inl pgerror => (inl (Psycopg2Error pgerror), c')
             | inr (a, db) => (inr a, mkconn (conn_fault c) db (S (executed c)))
             end
    | _ =>
        match stmt (work c) with
        | inl pgerror => (inl (Psycopg2Error pgerror), c')
        | inr (a, db) => (inr a, mkconn (conn_fault c) db (S (executed c)))
        end
    end.

(** [conn.rollback()]: the committed store stays; a sequence does not go
    back. *)
Definition rollback (db : DB) (c : conn) : DB :=
  mkDB (patients db) (observations db) (logs db) (logs_id_seq (work c)).

Definition configured (url : option string) : bool :=
  match url with
  | None => false
  | Some s => negb (bool_decide (s = EmptyString))
  end.

(** The context manager around a block [body], on the committed store [db]:
    the result of the block, or the exception that leaves the [with], and the
    committed store afterwards. *)
Definition get_db_connection {A} (env : Env) (f : fault) (body : Tx A)
    (db : DB) : (exn + A) * DB :=
  if negb (configured (DATABASE_URL env)) then
    (inl (HTTPException 500 "DATABASE_URL no configurada en variables de entorno"), db)
  else
    match f with
    | ConnectFails pgerror =>
        (* [psycopg2.connect] raised, [conn] is still [None] *)
        (inl (HTTPException 500 ("Error de base de datos: " +:+ pgerror)), db)
    | _ =>
        match body (mkconn f db 0) with
        | (inr a, c) =>
            match f with
            | CommitFails pgerror =>
                (inl (HTTPException 500 ("Error de base de datos: " +:+ pgerror)),
                 rollback db c)
            | _ => (inr a, work c)
            end
        | (inl (Psycopg2Error pgerror), c) =>
            (inl (HTTPException 500 ("Error de base de datos: " +:+ pgerror)),
             rollback db c)
        | (inl e, c) =>
            (inl (HTTPException 500 ("Error inesperado: " +:+ str e)),
             rollback db c)
        end
    end.

(** ** The audit log: [log_event] *)

(** [except Exception as e: print(...)]: whatever the block raises stops
    here; the function returns nothing. *)
Definition log_event (env : Env) (action resource resource_id : string)
    (db : DB) : DB :=
  match get_db_connection env (log_fault env)
          (execute (insert_log (utcnow env) action resource resource_id)) db with
  | (inr _, db') => db'
  | (inl _, db') => db'
  end.

(** ** The handlers *)

(** A handler returns the body of its response, or raises. *)
Definition reply (A : Type) : Type := ((exn + A) * DB)%type.

(** [GET /fhir/Patient/search]. *)
Definition search_patients (env : Env) (name : string) (db : DB)
  : reply (list PatientResource.t) :=
  get_db_connection env (main_fault env)
    (execute (select_patients_like ("%" +:+ lower name +:+ "%")
                                   ("%" +:+ lower name +:+ "%")))
    db.

(** [POST /fhir/Patient]; the response is [mensaje] and [id]. *)
Definition create_patient (env : Env) (patient : Patient.t) (db : DB)
  : reply (string * string) :=
  match
    get_db_connection env (main_fault env)
      (found ← execute (select_patient (Patient.id patient));
       if found is Some _ then
         raise (HTTPException 400
                  ("El paciente '" +:+ Patient.id patient +:+ "' ya existe"))
       else
         execute (insert_patient env patient))
      db
  with
  | (inl e, db) => (inl e, db)
  | (inr _, db) =>
      let db := log_event env "CREATE" "Patient" (Patient.id patient) db in
      (inr ("Paciente creado correctamente", Patient.id patient), db)
  end.

(** [PUT /fhir/Patient/{patient_id}]; the response is [mensaje]. *)
Definition update_patient (env : Env) (patient_id : string)
    (patient : Patient.t) (db : DB) : reply string :=
  match
    get_db_connection env (main_fault env)
      (found ← execute (select_patient patient_id);
       if found is None then
         raise (HTTPException 404
                  ("Paciente '" +:+ patient_id +:+ "' no encontrado"))
       else
         execute (update_patients env
                    [("family_name", Param (Some (Patient.family_name patient)));
                     ("given_name", Param (Some (Patient.given_name patient)));
                     ("gender", Param (Some (Patient.gender patient)));
                     ("birth_date", Param (Some (Patient.birthDate patient)));
                     ("medical_summary", Param (Some (Patient.medical_summary patient)));
                     ("updated_at", Current_timestamp)]
                    patient_id))
      db
  with
  | (inl e, db) => (inl e, db)
  | (inr _, db) =>
      let db := log_event env "PUT" "Patient" patient_id db in
      (inr "Paciente actualizado completamente", db)
  end.

(** The loop of [patch_patient] that builds the dynamic query: one
    assignment for each item, [birthDate] going to the column [birth_date]. *)
Definition update_fields (items : list (string * option string))
  : list (string * sqlval) :=
  map (λ '(key, value),
         let field_name :=
           if bool_decide (key = "birthDate") then "birth_date" else key in
         (field_name, Param value))
      items.

(** [PATCH /fhir/Patient/{patient_id}]; the response is [mensaje]. *)
Definition patch_patient (env : Env) (patient_id : string)
    (updates : PatientUpdate.t) (db : DB) : reply string :=
  match
    get_db_connection env (main_fault env)
      (found ← execute (select_patient patient_id);
       if found is None then
         raise (HTTPException 404
                  ("Paciente '" +:+ patient_id +:+ "' no encontrado"))
       else
         let fields := update_fields (PatientUpdate.dict_exclude_unset updates) in
         if bool_decide (fields = []) then
           raise (HTTPException 400 "No se proporcionaron campos para actualizar")
         else
           execute (update_patients env
                      (fields ++ [("updated_at", Current_timestamp)])
                      patient_id))
      db
  with
  | (inl e, db) => (inl e, db)
  | (inr _, db) =>
      let db := log_event env "PATCH" "Patient" patient_id db in
      (inr "Paciente actualizado parcialmente", db)
  end.

(** [DELETE /fhir/Patient/{patient_id}]; the response is [mensaje] and
    [observaciones_eliminadas]. *)
Definition delete_patient (env : Env) (patient_id : string) (db : DB)
  : reply (string * Z) :=
  match
    get_db_connection env (main_fault env)
      (found ← execute (select_patient patient_id);
       if found is None then
         raise (HTTPException 404
                  ("Paciente '" +:+ patient_id +:+ "' no encontrado"))
       else
         obs_count ← execute (count_observations patient_id);
         execute (delete_patient_row patient_id);;
         mret obs_count)
      db
  with
  | (inl e, db) => (inl e, db)
  | (inr obs_count, db) =>
      let db := log_event env "DELETE" "Patient" patient_id db in
      (inr ("Paciente '" +:+ patient_id +:+ "' eliminado", obs_count), db)
  end.

(** [GET /fhir/Observation/{patient_id}]. *)
Definition get_observations (env : Env) (patient_id : string) (db : DB)
  : reply (list ObservationRow.t) :=
  get_db_connection env (main_fault env)
    (found ← execute (select_patient patient_id);
     if found is None then
       raise (HTTPException 404
                ("Paciente '" +:+ patient_id +:+ "' no encontrado"))
     else
       execute (select_observations patient_id))
    db.

(** [POST /fhir/Observation]; the response is [mensaje] and [id]. *)
Definition create_observation (env : Env) (observation : Observation.t)
    (db : DB) : reply (string * string) :=
  let obs_id := uuid4 env in
  match
    get_db_connection env (main_fault env)
      (found ← execute (select_patient (Observation.patient_id observation));
       if found is None then
         raise (HTTPException 404
                  ("Paciente '" +:+ Observation.patient_id observation
                   +:+ "' no existe"))
       else
         execute (insert_observation env obs_id observation))
      db
  with
  | (inl e, db) => (inl e, db)
  | (inr _, db) =>
      let db := log_event env "CREATE" "Observation" obs_id db in
      (inr ("Observación registrada correctamente", obs_id), db)
  end.

(** ** Requests and responses *)

(** What the caller receives: the body of a success, the status and detail
    of an [HTTPException], or the field errors of a rejected payload. *)
Inductive response (A : Type) :=
| Success (body : A)
| HTTPError (status_code : Z) (detail : string)
| Unprocessable (errors : list field_error).

Arguments Success {A} body.
Arguments HTTPError {A} status_code detail.
Arguments Unprocessable {A} errors.

Definition status_code {A} (r : response A) : Z :=
  match r with
  | Success _ => 200
  | HTTPError s _ => s
  | Unprocessable _ => 422
  end.

(** An exception other than [HTTPException] leaving a handler is answered
    with a plain 500. *)
Definition respond {A} (r : exn + A) : response A :=
  match r with
  | inr a => Success a
  | inl (HTTPException s d) => HTTPError s d
  | inl (Psycopg2Error _) => HTTPError 500 "Internal Server Error"
  end.

(** The routes with a body: the payload is validated into its model before
    the handler is called. *)
Definition POST_Patient (env : Env) (payload : Patient.payload) (db : DB)
  : response (string * string) * DB :=
  match Patient.validate (fromisoformat env) (today env) payload with
  | inl errors => (Unprocessable errors, db)
  | inr patient =>
      let '(r, db') := create_patient env patient db in (respond r, db')
  end.

Definition PUT_Patient (env : Env) (patient_id : string)
    (payload : Patient.payload) (db : DB) : response string * DB :=
  match Patient.validate (fromisoformat env) (today env) payload with
  | inl errors => (Unprocessable errors, db)
  | inr patient =>
      let '(r, db') := update_patient env patient_id patient db in
      (respond r, db')
  end.

Definition PATCH_Patient (env : Env) (patient_id : string)
    (payload : PatientUpdate.t) (db : DB) : response string * DB :=
  match PatientUpdate.validate payload with
  | inl errors => (Unprocessable errors, db)
  | inr updates =>
      let '(r, db') := patch_patient env patient_id updates db in
      (respond r, db')
  end.

(** The mutating requests; [serve] gives the exception a request ends in,
    if any, and the store it leaves behind. *)
Inductive request :=
| CreatePatient (patient : Patient.t)
| UpdatePatient (patient_id : string) (patient : Patient.t)
| PatchPatient (patient_id : string) (updates : PatientUpdate.t)
| DeletePatient (patient_id : string)
| CreateObservation (observation : Observation.t).

Definition outcome {A} (r : reply A) : option exn * DB :=
  (match r.1 with inl e => Some e | inr _ => None end, r.2).

Definition serve (env : Env) (rq : request) (db : DB) : option exn * DB :=
  match rq with
  | CreatePatient p => outcome (create_patient env p db)
  | UpdatePatient i p => outcome (update_patient env i p db)
  | PatchPatient i u => outcome (patch_patient env i u db)
  | DeletePatient i => outcome (delete_patient env i db)
  | CreateObservation o => outcome (create_observation env o db)
  end.

Definition handle (env : Env) (rq : request) (db : DB) : DB :=
  (serve env rq db).2.

(** The action, resource kind and resource id a request is audited as. *)
Definition audit_of (env : Env) (rq : request) : string * string * string :=
  match rq with
  | CreatePatient p => ("CREATE", "Patient", Patient.id p)
  | UpdatePatient i _ => ("PUT", "Patient", i)
  | PatchPatient i _ => ("PATCH", "Patient", i)
  | DeletePatient i => ("DELETE", "Patient", i)
  | CreateObservation _ => ("CREATE", "Observation", uuid4 env)
  end.

(** The same environment with another fault on the audit transaction. *)
Definition with_log_fault (f : fault) (env : Env) : Env :=
  mkEnv (DATABASE_URL env) (today env) (fromisoformat env) (utcnow env)
        (CURRENT_TIMESTAMP env) (uuid4 env) (date_in env) (main_fault env) f.

(** The audit transaction is one statement and the commit: these are the
    faults that reach it. *)
Definition log_faulty (env : Env) : bool :=
  match log_fault env with
  | NoFault | ExecuteFails (S _) _ => false
  | ConnectFails _ | ExecuteFails O _ | CommitFails _ => true
  end.

(** The stores the server can be in: the empty one, and any store a request
    leaves behind, whatever its environment. *)
Inductive reachable : DB → Prop :=
| reachable_empty : reachable empty_db
| reachable_handle env rq db : reachable db → reachable (handle env rq db).

(** No observation without its patient. *)
Definition no_orphans (db : DB) : Prop :=
  ∀ i o, observations db !! i = Some o →
         is_Some (patients db !! ObservationRow.patient_id o).

(** The observations of a patient. *)
Definition observations_of (patient_id : string) (db : DB)
  : gmap string ObservationRow.t :=
  filter (λ kv, ObservationRow.patient_id kv.2 = patient_id) (observations db).

(** Every patient is stored under a key that fits [VARCHAR(50)]. *)
Definition key_lengths (db : DB) : Prop :=
  ∀ k r, patients db !! k = Some r → (length (chars k) ≤ 50)%nat.

(** The audit table as it was: its rows and its sequence. *)
Definition same_logs (l : list LogRow.t) (n : Z) (db : DB) : Prop :=
  logs db = l ∧ logs_id_seq db = n.

(** A reply that is a 500 and leaves the store as it was. *)
Definition answered_500 {A} (r : reply A) (db : DB) : Prop :=
  ∃ detail, r = (inl (HTTPException 500 detail), db).

(** ** Properties kept by statements and blocks *)

Definition stmt_preserves {A} (P : DB → Prop) (s : statement A) : Prop :=
  ∀ db a db', P db → s db = inr (a, db') → P db'.

Definition tx_preserves {A} (P : DB → Prop) (m : Tx A) : Prop :=
  ∀ c r c', P (work c) → m c = (r, c') → P (work c').

(** A property of the store that survives a rollback. *)
Definition rollback_closed (P : DB → Prop) : Prop :=
  ∀ db c, P db → P (work c) → P (rollback db c).

(** The two rows agree on the id and on every column not in [columns]. *)
Definition unchanged_outside (columns : list string) (r r' : PatientRow.t)
  : Prop :=
  PatientRow.id r' = PatientRow.id r
  ∧ ("family_name" ∉ columns → PatientRow.family_name r' = PatientRow.family_name r)
  ∧ ("given_name" ∉ columns → PatientRow.given_name r' = PatientRow.given_name r)
  ∧ ("gender" ∉ columns → PatientRow.gender r' = PatientRow.gender r)
  ∧ ("birth_date" ∉ columns → PatientRow.birth_date r' = PatientRow.birth_date r)
  ∧ ("medical_summary" ∉ columns
     → PatientRow.medical_summary r' = PatientRow.medical_summary r)
  ∧ ("created_at" ∉ columns → PatientRow.created_at r' = PatientRow.created_at r)
  ∧ ("updated_at" ∉ columns → PatientRow.updated_at r' = PatientRow.updated_at r).

(** A string without the metacharacters of [LIKE]. *)
Definition plain (s : list ascii) : Prop :=
  Forall (λ c, c ≠ "%"%char ∧ c ≠ "_"%char ∧ c ≠ chr 92) s.

(** The patients whose family or given name has [s] in it, in lower case. *)
Definition name_has (s : string) (r : PatientRow.t) : bool :=
  contains (chars s) (chars (lower (PatientRow.family_name r)))
  || contains (chars s) (chars (lower (PatientRow.given_name r))).

(** ** Dates as text *)

Definition digit_char (d : Z) : ascii := chr (48 + d).

(** [date.isoformat()]: ["%04d-%02d-%02d"]. *)
Definition isoformat (d : date) : string :=
  let y := year d in let m := month d in let n := day d in
  text [digit_char (y / 1000); digit_char (y / 100 mod 10);
        digit_char (y / 10 mod 10); digit_char (y mod 10); "-"%char;
        digit_char (m / 10); digit_char (m mod 10); "-"%char;
        digit_char (n / 10); digit_char (n mod 10)].

(** A day of the calendar, in the years a [date] can hold. *)
Definition valid_date (d : date) : Prop :=
  1 ≤ year d ≤ 9999 ∧ 1 ≤ month d ≤ 12
  ∧ 1 ≤ day d ≤ days_in_month (year d) (month d).

(** [d + timedelta(days=1)]. *)
Definition tomorrow (d : date) : date :=
  if day d <? days_in_month (year d) (month d)
  then mkdate (year d) (month d) (day d + 1)
  else if month d <? 12 then mkdate (year d) (month d + 1) 1
  else mkdate (year d + 1) 1 1.

(** The words of the specification: the string is an ISO calendar date,
    [YYYY-MM-DD] and nothing else, of a day that exists. *)
Definition iso_calendar_date (v : string) : option date :=
  match parse_isoformat_date (chars v) with
  | Some (y, m, d, []) =>
      if (1 <=? y) && (y <=? 9999) && (1 <=? m) && (m <=? 12)
         && (1 <=? d) && (d <=? days_in_month y m)
      then Some (mkdate y m d) else None
  | _ => None
  end.

(** What the validators rely on and every version of the library does: a
    date written by [date.isoformat()] is read back as that date, and the
    messages of the [ValueError]s it raises are its own, not the two range
    messages of [Patient.validate_birthdate]. *)
Definition reads_isoformat (fromisoformat : string → ValueError + datetime)
  : Prop :=
  (∀ d, valid_date d →
        ∃ dt, fromisoformat (isoformat d) = inr dt ∧ dt_date dt = d)
  ∧ (∀ v e, fromisoformat v = inl e →
            e ≠ "Fecha de nacimiento no puede ser futura"
            ∧ e ≠ "Fecha de nacimiento inválida").

(** ** A concrete server, for the examples *)

(** An engine that reads a DATE the way [fromisoformat_py37] does. *)
Definition iso_date_in (s : string) : option date :=
  match fromisoformat_py37 s with
  | inr dt => Some (dt_date dt)
  | inl _ => None
  end.

(** A configured server with a healthy engine, on 3 November 2026, under
    Python 3.7 to 3.10. *)
Definition env0 : Env :=
  mkEnv (Some "postgresql://fhir") (mkdate 2026 11 3) fromisoformat_py37
        1793700000 1793700001 "6f1e2d3c-0000-4000-8000-000000000001"
        iso_date_in NoFault NoFault.

Definition smith : Patient.t :=
  Patient.mk "p1" "Smith" "John" "male" "1980-05-17" "asthma".

(** The store after Smith was created on the empty one, and his row. *)
Definition db_smith : DB := (create_patient env0 smith empty_db).2.

Definition row_smith : PatientRow.t :=
  PatientRow.mk "p1" "Smith" "John" "male" (mkdate 1980 5 17) (Some "asthma")
    1793700001 1793700001.

Definition pulse : Observation.t :=
  Observation.mk "p1" "vital-signs" "8867-4" "Heart rate" 72 "bpm" "2026-11-01".

(** Smith with one observation. *)
Definition db_pulse : DB := (create_observation env0 pulse db_smith).2.

Definition unset : PatientUpdate.t := PatientUpdate.mk None None None None None.

(** ** Listings and health *)

(** An integer where the engine wants a [bigint]. *)
Definition bigint (n : Z) : pgresult Z :=
  if (-9223372036854775808 <=? n) && (n <=? 9223372036854775807) then inr n
  else inl "bigint out of range".

(** [LIMIT %s OFFSET %s] on the ordered rows. *)
Definition limit_offset {A} (limit offset : Z) (rows : list A)
  : pgresult (list A) :=
  l ← bigint limit;
  o ← bigint offset;
  if o <? 0 then inl "OFFSET must not be negative"
  else if l <? 0 then inl "LIMIT must not be negative"
  else inr (take (Z.to_nat l) (drop (Z.to_nat o) rows)).

(** [ORDER BY created_at DESC]. *)
Definition by_created_desc (a b : PatientRow.t) : bool :=
  PatientRow.created_at b <=? PatientRow.created_at a.

(** [ORDER BY timestamp DESC]. *)
Definition by_timestamp_desc (a b : LogRow.t) : bool :=
  LogRow.timestamp b <=? LogRow.timestamp a.

(** [SELECT COUNT( * ) as total FROM patients], then the fetch. *)
Definition count_patients : statement Z :=
  λ db, inr (Z.of_nat (size (patients db)), db).

(** [SELECT COUNT( * ) as total FROM observations]. *)
Definition count_all_observations : statement Z :=
  λ db, inr (Z.of_nat (size (observations db)), db).

(** [SELECT COUNT( * ) as total FROM logs]. *)
Definition count_logs : statement Z :=
  λ db, inr (Z.of_nat (length (logs db)), db).

(** [SELECT id, family_name, given_name, gender, birth_date as "birthDate",
    medical_summary FROM patients ORDER BY created_at DESC LIMIT %s
    OFFSET %s], then [cur.fetchall()]. *)
Definition select_patients_page (limit offset : Z)
  : statement (list PatientResource.t) :=
  λ db,
    match limit_offset limit offset
            (merge_sort by_created_desc ((map_to_list (patients db)).*2)) with
    | inl pgerror => inl pgerror
    | inr rows => inr (resource_of <$> rows, db)
    end.

(** [SELECT id, timestamp, action, resource, resource_id FROM logs ORDER BY
    timestamp DESC LIMIT %s], then [cur.fetchall()]. *)
Definition select_logs (limit : Z) : statement (list LogRow.t) :=
  λ db,
    match limit_offset limit 0 (merge_sort by_timestamp_desc (logs db)) with
    | inl pgerror => inl pgerror
    | inr rows => inr (rows, db)
    end.

(** The body of the response of [get_patients]. *)
Module PatientPage.
Record t := mk {
  total : Z;
  page : Z;
  size : Z;
  data : list PatientResource.t
}.
End PatientPage.

(** [GET /fhir/Patient]. *)
Definition get_patients (env : Env) (page size : Z) (db : DB)
  : reply PatientPage.t :=
  match
    get_db_connection env (main_fault env)
      (let offset := (page - 1) * size in
       total ← execute count_patients;
       patients ← execute (select_patients_page size offset);
       mret (total, patients))
      db
  with
  | (inl e, db) => (inl e, db)
  | (inr (total, patients), db) =>
      (inr (PatientPage.mk total page size patients), db)
  end.

(** [GET /logs]. *)
Definition get_logs (env : Env) (limit : Z) (db : DB) : reply (list LogRow.t) :=
  get_db_connection env (main_fault env) (execute (select_logs limit)) db.

(** The body of the response of [health_check]: the three counts, or the
    text of the exception. *)
Inductive health :=
| healthy (patients observations logs : Z)
| unhealthy (error : string).

(** [GET /health]: whatever the block raises is reported, not raised. *)
Definition health_check (env : Env) (db : DB) : health * DB :=
  match
    get_db_connection env (main_fault env)
      (patients ← execute count_patients;
       observations ← execute count_all_observations;
       logs ← execute count_logs;
       mret (patients, observations, logs))
      db
  with
  | (inr (patients, observations, logs), db) =>
      (healthy patients observations logs, db)
  | (inl e, db) => (unhealthy (str e), db)
  end.

(** A configured server whose engine lets the handler's transaction
    through. *)
Definition sound (env : Env) : Prop :=
  configured (DATABASE_URL env) = true ∧ main_fault env = NoFault.

(** Text the driver passes on to the engine: no NUL character. *)
Definition pg_text (s : string) : Prop :=
  Forall (λ c, c ≠ "000"%char) (chars s).

(** An id that the key column takes as it is. *)
Definition key_fits (i : string) : Prop :=
  (length (chars i) ≤ 50)%nat ∧ pg_text i.

(** The values of a patient model that the columns take as they are. *)
Definition patient_fits (p : Patient.t) : Prop :=
  (length (chars (Patient.family_name p)) ≤ 100)%nat
  ∧ (length (chars (Patient.given_name p)) ≤ 100)%nat
  ∧ Patient.gender p ∈ ["male"; "female"; "other"]
  ∧ Forall pg_text [Patient.family_name p; Patient.given_name p;
                    Patient.birthDate p; Patient.medical_summary p].

(** The row the engine makes of the model, under the id [i], born on
    [birth] and created at [created]. *)
Definition row_of (env : Env) (i : string) (p : Patient.t) (birth : date)
    (created : Z) : PatientRow.t :=
  PatientRow.mk i (Patient.family_name p) (Patient.given_name p)
    (Patient.gender p) birth (Some (Patient.medical_summary p)) created
    (CURRENT_TIMESTAMP env).

(** The values of an observation model that the columns take as they
    are. *)
Definition observation_fits (o : Observation.t) : Prop :=
  (length (chars (Observation.category o)) ≤ 50)%nat
  ∧ (length (chars (Observation.code o)) ≤ 50)%nat
  ∧ (length (chars (Observation.display o)) ≤ 100)%nat
  ∧ (length (chars (Observation.unit o)) ≤ 20)%nat
  ∧ Forall pg_text [Observation.category o; Observation.code o;
                    Observation.display o; Observation.unit o;
                    Observation.date o].

(** The row the engine makes of an observation created under [env], dated
    [d]. *)
Definition observation_row_of (env : Env) (o : Observation.t) (d : date)
  : ObservationRow.t :=
  ObservationRow.mk (uuid4 env) (Observation.patient_id o)
    (Observation.category o) (Observation.code o) (Observation.display o)
    (Observation.value o) (Observation.unit o) d (CURRENT_TIMESTAMP env).

(** [str.isascii()]: on such text a byte is a character, and [str.lower]
    and [LOWER] agree. *)
Definition isascii (s : string) : Prop :=
  Forall (λ c, code c < 128) (chars s).

(** ASCII text of more than [n] characters, and not only spaces after the
    [n]-th. *)
Definition overlong (n : nat) (s : string) : Prop :=
  isascii s ∧ ∃ c, c ∈ drop n (chars s) ∧ c ≠ " "%char.

(** What the tables guarantee of a row stored under the key [k]: the key
    is its id and, for a patient, the [CHECK] on the gender. *)
Definition patient_row_holds (k : string) (r : PatientRow.t) : Prop :=
  PatientRow.id r = k
  ∧ PatientRow.gender r ∈ ["male"; "female"; "other"].

Definition observation_row_holds (k : string) (o : ObservationRow.t) : Prop :=
  ObservationRow.id o = k.

Definition constraints_hold (db : DB) : Prop :=
  (∀ k r, patients db !! k = Some r → patient_row_holds k r)
  ∧ (∀ k o, observations db !! k = Some o → observation_row_holds k o).

(** A payload that is valid for [Patient] and has a family name of 104
    characters. *)
Definition hubert : Patient.payload :=
  Patient.mk_payload (Some (Some "p2"))
    (Some (Some "Wolfeschlegelsteinhausenbergerdorffwelchevoralternwarengewissenhaftschaferswessenschafewarenwohlgepflege"))
    (Some (Some "Hubert")) (Some (Some "male")) (Some (Some "1914-08-04"))
    (Some (Some "none")).

(** ** The hosting API ([src/render_mcp.py]) and its routes *)

(** What [response.json()] gives: a decoded JSON value. A [dict] keeps its
    members in order; a float is carried as its binary64 pattern. *)
#[local] Unset Elimination Schemes.
Inductive json :=
| JNull
| JBool (b : bool)
| JInt (n : Z)
| JFloat (bits : Z)
| JString (s : string)
| JArray (items : list json)
| JObject (members : list (string * json)).
#[local] Set Elimination Schemes.

Abbreviation Dict := (list (string * json)).

(** [d.get(key, default)], [d.get(key)] and [d[key] = value]. *)
Fixpoint dict_get_default (d : Dict) (key : string) (default : json) : json :=
  match d with
  | [] => default
  | (k, v) :: d' => if bool_decide (k = key) then v else dict_get_default d' key default
  end.

Definition dict_get (d : Dict) (key : string) : json :=
  dict_get_default d key JNull.

Fixpoint dict_set (d : Dict) (key : string) (value : json) : Dict :=
  match d with
  | [] => [(key, value)]
  | (k, v) :: d' =>
      if bool_decide (k = key) then (k, value) :: d'
      else (k, v) :: dict_set d' key value
  end.

(** The exceptions of the client, and [str(e)] of each. *)
Inductive pyerror :=
| PyValueError (msg : string)
| KeyError (key : string)
| AttributeError (type_name attr : string)
| RequestException (msg : string).

Definition error_str (e : pyerror) : string :=
  match e with
  | PyValueError msg => msg
  | KeyError key => repr key
  | AttributeError type_name attr =>
      "'" +:+ type_name +:+ "' object has no attribute '" +:+ attr +:+ "'"
  | RequestException msg => msg
  end.

(** [d[key]]. *)
Definition dict_item (d : Dict) (key : string) : pyerror + json :=
  if bool_decide (key ∈ d.*1) then inr (dict_get d key) else inl (KeyError key).

Definition type_name (v : json) : string :=
  match v with
  | JNull => "NoneType"
  | JBool _ => "bool"
  | JInt _ => "int"
  | JFloat _ => "float"
  | JString _ => "str"
  | JArray _ => "list"
  | JObject _ => "dict"
  end.

(** [v.get(key)] on a value that may not be a [dict]. *)
Definition py_get (v : json) (key : string) : pyerror + json :=
  match v with
  | JObject d => inr (dict_get d key)
  | _ => inl (AttributeError (type_name v) "get")
  end.

(** The truth value of [v]. *)
Definition truthy (v : json) : bool :=
  match v with
  | JNull => false
  | JBool b => b
  | JInt n => negb (n =? 0)
  | JFloat bits => negb ((bits =? 0) || (bits =? 9223372036854775808))
  | JString s => negb (bool_decide (s = EmptyString))
  | JArray items => negb (bool_decide (items = []))
  | JObject members => negb (bool_decide (members = []))
  end.

(** [v in [s1, s2, ...]] for a list of strings. *)
Definition str_in (v : json) (l : list string) : bool :=
  match v with
  | JString s => bool_decide (s ∈ l)
  | _ => false
  end.

(** [v == s] for a string [s]. *)
Definition str_eq (v : json) (s : string) : bool :=
  match v with
  | JString s' => bool_decide (s' = s)
  | _ => false
  end.

(** The hosting provider as the client sees it: its key in the
    environment, and what each call ends in ([requests] raising, a status
    that [raise_for_status] rejects, or the decoded body). The status of a
    deploy is asked many times: [GET_deploy] has the number of the poll. *)
Record Render := mkRender {
  RENDER_API_KEY : option string;
  GET_services : pyerror + list Dict;
  GET_service : json → pyerror + Dict;
  GET_service_logs : json → Z → pyerror + string;
  GET_env_vars : json → pyerror + list Dict;
  PUT_env_var : json → string → string → pyerror + Dict;
  POST_deploys : json → pyerror + Dict;
  GET_deploy : json → json → nat → pyerror + Dict
}.

(** [RenderMCP(api_key)]: the key, or the refusal to build a client. *)
Definition RenderMCP (w : Render) (api_key : option string)
  : pyerror + string :=
  let nonempty (k : option string) :=
    match k with
    | Some s => negb (bool_decide (s = EmptyString))
    | None => false
    end in
  let key := if nonempty api_key then api_key else RENDER_API_KEY w in
  match key with
  | Some s =>
      if bool_decide (s = EmptyString)
      then inl (PyValueError "RENDER_API_KEY no configurada")
      else inr s
  | None => inl (PyValueError "RENDER_API_KEY no configurada")
  end.

(** The loop of [get_service_by_name]. *)
Fixpoint find_service (services : list Dict) (service_name : string)
  : option Dict :=
  match services with
  | [] => None
  | service :: services' =>
      if str_eq (dict_get service "name") service_name then Some service
      else find_service services' service_name
  end.

Definition get_service_by_name (w : Render) (service_name : string)
  : pyerror + Dict :=
  services ← GET_services w;
  match find_service services service_name with
  | Some service => inr service
  | None => inl (PyValueError ("Servicio '" +:+ service_name +:+ "' no encontrado"))
  end.

Definition get_service_info (w : Render) (service_name : string)
  : pyerror + Dict :=
  _ ← RenderMCP w None;
  service ← get_service_by_name w service_name;
  service_id ← dict_item service "id";
  status ← GET_service w service_id;
  name ← dict_item service "name";
  id ← dict_item service "id";
  url ← py_get (dict_get_default status "serviceDetails" (JObject [])) "url";
  mret [("name", name); ("id", id); ("status", dict_get status "status");
        ("url", url); ("createdAt", dict_get status "createdAt");
        ("updatedAt", dict_get status "updatedAt");
        ("buildStatus", dict_get status "status")].

Definition redeploy_service (w : Render) (service_name : string)
  : pyerror + Dict :=
  _ ← RenderMCP w None;
  service ← get_service_by_name w service_name;
  service_id ← dict_item service "id";
  deploy ← POST_deploys w service_id;
  mret [("message", JString ("Deploy iniciado para " +:+ service_name));
        ("deployId", dict_get deploy "id");
        ("status", dict_get deploy "status");
        ("createdAt", dict_get deploy "createdAt")].

(** The [for attempt in range(max_attempts)] of [watch_deploy], from the
    poll [attempt] on, with [remaining] polls to go. *)
Fixpoint poll_deploy (w : Render) (service_id deploy_id : json)
    (attempt remaining : nat) : pyerror + Dict :=
  match remaining with
  | O => inr [("message", JString "⏱️ Timeout esperando deploy")]
  | S remaining' =>
      match GET_deploy w service_id deploy_id attempt with
      | inl e => inl e
      | inr deploy_status =>
          let status := dict_get deploy_status "status" in
          if str_in status ["LIVE"; "SUCCESS"] then
            inr [("message", JString "✅ Deploy completado exitosamente");
                 ("status", status);
                 ("finishedAt", dict_get deploy_status "finishedAt")]
          else if str_in status ["BUILD_FAILED"; "DEPLOY_FAILED"] then
            match GET_service_logs w service_id 100 with
            | inl e => inl e
            | inr logs =>
                inr [("error",
                      JString ("❌ Error en deploy: "
                               +:+ match status with JString s => s | _ => EmptyString end));
                     ("logs", JString logs)]
            end
          else poll_deploy w service_id deploy_id (S attempt) remaining'
      end
  end.

Definition watch_deploy (w : Render) (service_name : string)
    (max_attempts : Z) : pyerror + Dict :=
  _ ← RenderMCP w None;
  service ← get_service_by_name w service_name;
  service_id ← dict_item service "id";
  service_status ← GET_service w service_id;
  let current_deploy := dict_get service_status "currentDeploy" in
  if negb (truthy current_deploy) then
    mret [("error", JString "No hay despliegue en progreso")]
  else
    deploy_id ← py_get current_deploy "id";
    poll_deploy w service_id deploy_id 0 (Z.to_nat max_attempts).

Definition get_env_vars (w : Render) (service_name : string)
  : pyerror + list Dict :=
  _ ← RenderMCP w None;
  service ← get_service_by_name w service_name;
  service_id ← dict_item service "id";
  GET_env_vars w service_id.

Definition update_env_var (w : Render) (key value service_name : string)
  : pyerror + Dict :=
  _ ← RenderMCP w None;
  service ← get_service_by_name w service_name;
  service_id ← dict_item service "id";
  PUT_env_var w service_id key value.

(** *** The routes of [server.py] over the client

    Each wraps its call: whatever is raised leaves as a 500 with the text
    of the exception. *)

Definition wrapped {A} (prefix : string) (data : A → json)
    (r : pyerror + A) : exn + json :=
  match r with
  | inl e => inl (HTTPException 500 (prefix +:+ error_str e))
  | inr a => inr (JObject [("success", JBool true); ("data", data a)])
  end.

(** [GET /render/status]. *)
Definition render_service_status (w : Render) : exn + json :=
  wrapped "Error conectando a Render API: " JObject
    (get_service_info w "ServidorFIHR").

(** [POST /render/redeploy]. *)
Definition render_redeploy (w : Render) : exn + json :=
  wrapped "Error triggereando redeploy: " JObject
    (redeploy_service w "ServidorFIHR").

(** [GET /render/deploy-status]: one poll only. *)
Definition render_deploy_status (w : Render) : exn + json :=
  wrapped "Error consultando deploy: " JObject
    (watch_deploy w "ServidorFIHR" 1).

(** The loop of [render_get_env_vars] on one variable. *)
Definition redact (var : Dict) : Dict :=
  if str_in (dict_get var "key") ["API_KEY"; "DATABASE_URL"; "RENDER_API_KEY"]
  then dict_set var "value" (JString "***REDACTED***")
  else var.

(** [GET /render/env-vars]. *)
Definition render_get_env_vars (w : Render) : exn + json :=
  wrapped "Error obteniendo variables: "
    (λ env_vars, JArray (JObject <$> (redact <$> env_vars)))
    (get_env_vars w "ServidorFIHR").

(** [POST /render/env-var/{key}]. *)
Definition render_update_env_var (w : Render) (key value : string)
  : exn + json :=
  wrapped "Error actualizando variable: " JObject
    (update_env_var w key value "ServidorFIHR").

(** [GET /render/health]: reports, never raises. *)
Definition render_health (w : Render) : json :=
  match (_ ← RenderMCP w None; GET_services w) with
  | inr services =>
      JObject [("success", JBool true);
               ("message", JString "Conectado a Render API");
               ("servicesCount", JInt (Z.of_nat (length services)))]
  | inl e =>
      JObject [("success", JBool false);
               ("message", JString ("Error: " +:+ error_str e))]
  end.

(** A deploy status that ends the watch. *)
Definition terminal (deploy_status : Dict) : bool :=
  str_in (dict_get deploy_status "status")
    ["LIVE"; "SUCCESS"; "BUILD_FAILED"; "DEPLOY_FAILED"].

(** The watch has a client, finds the service and its id, and the service
    has a current deploy with the id [deploy_id]. *)
Definition watching (w : Render) (service_name : string)
    (service_id deploy_id : json) : Prop :=
  ∃ key service service_status d,
    RenderMCP w None = inr key
    ∧ get_service_by_name w service_name = inr service
    ∧ dict_item service "id" = inr service_id
    ∧ GET_service w service_id = inr service_status
    ∧ dict_get service_status "currentDeploy" = JObject d
    ∧ d ≠ []
    ∧ dict_get d "id" = deploy_id.

(** Two providers that answer the watch alike, but for the polls of a
    deploy from the [n]-th on. *)
Definition alike_before (n : nat) (w w' : Render) : Prop :=
  RENDER_API_KEY w = RENDER_API_KEY w'
  ∧ GET_services w = GET_services w'
  ∧ (∀ i, GET_service w i = GET_service w' i)
  ∧ (∀ i l, GET_service_logs w i l = GET_service_logs w' i l)
  ∧ (∀ i d j, (j < n)%nat → GET_deploy w i d j = GET_deploy w' i d j).

(** A provider with a key and one service, whose deploy is live at the
    third poll. *)
Definition render0 : Render :=
  let service := [("id", JString "srv-1"); ("name", JString "ServidorFIHR")] in
  mkRender (Some "rnd_key")
    (inr [[("id", JString "srv-0"); ("name", JString "other")]; service])
    (λ _, inr [("status", JString "deploying");
               ("currentDeploy", JObject [("id", JString "dep-1")])])
    (λ _ _, inr "log")
    (λ _, inr [[("key", JString "API_KEY"); ("value", JString "secret")];
               [("key", JString "PORT"); ("value", JString "8000")]])
    (λ _ _ _, inr [])
    (λ _, inr [("id", JString "dep-2")])
    (λ _ _ j, inr [("status", JString (if bool_decide (j < 2)%nat
                                       then "BUILDING" else "LIVE"));
                   ("finishedAt", JString "2026-11-03T10:00:00Z")]).

(* ================================================================== *)
(** * Part II. Properties                                              *)
(* ================================================================== *)

(** ** The example store *)

Lemma db_smith_row : patients db_smith !! "p1" = Some row_smith.
Proof. vm_compute. reflexivity. Qed.

Lemma db_smith_logs :
  logs db_smith = [LogRow.mk 1 1793700000 "CREATE" "Patient" "p1"].
Proof. vm_compute. reflexivity. Qed.

Lemma db_pulse_observation :
  observations db_pulse !! "6f1e2d3c-0000-4000-8000-000000000001"
  = Some (ObservationRow.mk "6f1e2d3c-0000-4000-8000-000000000001" "p1"
            "vital-signs" "8867-4" "Heart rate" 72 "bpm" (mkdate 2026 11 1)
            1793700001).
Proof. vm_compute. reflexivity. Qed.

(** ** Birth dates *)

Lemma chars_text l : chars (text l) = l.
Proof. apply String.list_ascii_of_string_of_list_ascii. Qed.

Lemma text_chars s : text (chars s) = s.
Proof. apply String.string_of_list_ascii_of_string. Qed.

Lemma digit_of_digit_char d : 0 ≤ d ≤ 9 → digit_of (digit_char d) = Some d.
Proof.
  intros Hd.
  assert (d = 0 ∨ d = 1 ∨ d = 2 ∨ d = 3 ∨ d = 4 ∨ d = 5 ∨ d = 6 ∨ d = 7
          ∨ d = 8 ∨ d = 9) as Hcases by lia.
  repeat (destruct Hcases as [-> | Hcases]; [reflexivity|]).
  by subst.
Qed.

Lemma parse_digits_2 n rest :
  0 ≤ n < 100 →
  parse_digits 2 0 (digit_char (n / 10) :: digit_char (n mod 10) :: rest)
  = Some (n, rest).
Proof.
  intros Hn. cbn [parse_digits].
  rewrite !digit_of_digit_char by (Z.div_mod_to_equations; lia).
  do 2 f_equal. Z.div_mod_to_equations; lia.
Qed.

Lemma parse_digits_4 n rest :
  0 ≤ n < 10000 →
  parse_digits 4 0 (digit_char (n / 1000) :: digit_char (n / 100 mod 10)
                    :: digit_char (n / 10 mod 10) :: digit_char (n mod 10) :: rest)
  = Some (n, rest).
Proof.
  intros Hn. cbn [parse_digits].
  rewrite !digit_of_digit_char by (Z.div_mod_to_equations; lia).
  do 2 f_equal. Z.div_mod_to_equations; lia.
Qed.

Lemma parse_isoformat_date_isoformat d :
  valid_date d →
  parse_isoformat_date (chars (isoformat d)) = Some (year d, month d, day d, []).
Proof.
  intros (Hy & Hm & Hd). unfold isoformat, parse_isoformat_date.
  rewrite chars_text.
  assert (day d ≤ 31) by (unfold days_in_month in Hd; repeat case_match; lia).
  rewrite parse_digits_4 by lia. cbn [mbind option_bind expect].
  rewrite bool_decide_eq_true_2 by done. cbn [mbind option_bind].
  rewrite parse_digits_2 by lia. cbn [mbind option_bind expect].
  rewrite bool_decide_eq_true_2 by done. cbn [mbind option_bind].
  rewrite parse_digits_2 by lia. reflexivity.
Qed.

Lemma fromisoformat_py37_isoformat d :
  valid_date d →
  fromisoformat_py37 (isoformat d) = inr (mkdatetime d 0 0 0 0 None).
Proof.
  intros Hv. unfold fromisoformat_py37.
  rewrite parse_isoformat_date_isoformat by done.
  destruct Hv as (Hy & Hm & Hd), d as [y m n]; simpl in *.
  unfold new_datetime.
  rewrite !andb_true_intro by (split; lia). simpl. reflexivity.
Qed.

Lemma date_ltb_irrefl d : date_ltb d d = false.
Proof.
  unfold date_ltb. rewrite !Z.ltb_irrefl, !Z.eqb_refl. reflexivity.
Qed.

Lemma date_leb_refl d : date_leb d d = true.
Proof. unfold date_leb. by rewrite date_ltb_irrefl. Qed.

Lemma date_ltb_tomorrow d : valid_date d → date_ltb d (tomorrow d) = true.
Proof.
  intros (Hy & Hm & Hd). unfold tomorrow, date_ltb.
  repeat case_match; simpl; lia.
Qed.

Lemma days_in_month_bounds y m : 28 ≤ days_in_month y m ≤ 31.
Proof. unfold days_in_month. repeat case_match; lia. Qed.

Lemma valid_date_tomorrow d :
  valid_date d → year d < 9999 → valid_date (tomorrow d).
Proof.
  intros (Hy & Hm & Hd) Hmax. unfold tomorrow, valid_date.
  repeat case_match; simpl;
    repeat split; try lia;
    match goal with
    | |- context [days_in_month ?y ?m] =>
        pose proof (days_in_month_bounds y m); lia
    end.
Qed.

Lemma date_ltb_trans a b c :
  date_ltb a b = true → date_ltb b c = true → date_ltb a c = true.
Proof. unfold date_ltb. lia. Qed.

Lemma date_ltb_asym a b : date_ltb a b = true → date_ltb b a = false.
Proof. unfold date_ltb. lia. Qed.

(** The messages of [fromisoformat_py37] are English: none starts with
    an F. *)
Lemma new_datetime_error y m d h mi s us tz e :
  new_datetime y m d h mi s us tz = inl e →
  ∃ c rest, e = String c rest ∧ c ≠ "F"%char.
Proof.
  unfold new_datetime. intros H.
  repeat case_match; simplify_eq; by eexists _, _.
Qed.

Lemma fromisoformat_py37_error v e :
  fromisoformat_py37 v = inl e → ∃ c rest, e = String c rest ∧ c ≠ "F"%char.
Proof.
  unfold fromisoformat_py37. intros H.
  repeat case_match; simplify_eq;
    try (by eexists _, _); by eapply new_datetime_error.
Qed.

(** The interpreter of the example server is one of those the validators
    are written for. *)
Lemma fromisoformat_py37_reads : reads_isoformat fromisoformat_py37.
Proof.
  split.
  - intros d Hd. eexists. split; [by apply fromisoformat_py37_isoformat|done].
  - intros v e He.
    destruct (fromisoformat_py37_error _ _ He) as (c & rest & -> & Hc).
    split; intros [= ?]; done.
Qed.

Lemma birthdate_checks_parse_error fromisoformat today v e :
  fromisoformat v = inl e →
  Patient.birthdate_checks fromisoformat today v = inl e.
Proof. unfold Patient.birthdate_checks. by intros ->. Qed.

Lemma validate_birthdate_accepts fromisoformat today v :
  Patient.validate_birthdate fromisoformat today v = inr v
  ↔ ∃ dt, fromisoformat v = inr dt
          ∧ date_leb (mkdate 1900 1 1) (dt_date dt) = true
          ∧ date_leb (dt_date dt) today = true.
Proof.
  unfold Patient.validate_birthdate, Patient.birthdate_checks, date_leb.
  split.
  - destruct (fromisoformat v) as [e|dt]; [done|].
    intros H. exists dt. repeat case_match; simplify_eq; done.
  - intros (dt & -> & Hlo & Hhi).
    apply negb_true_iff in Hlo, Hhi. by rewrite Hlo, Hhi.
Qed.

Lemma validate_birthdate_of_date fromisoformat today v dt :
  fromisoformat v = inr dt →
  Patient.validate_birthdate fromisoformat today v =
    if date_ltb today (dt_date dt)
    then inl "Fecha inválida: Fecha de nacimiento no puede ser futura"
    else if date_ltb (dt_date dt) (mkdate 1900 1 1)
    then inl "Fecha inválida: Fecha de nacimiento inválida"
    else inr v.
Proof.
  unfold Patient.validate_birthdate, Patient.birthdate_checks. intros ->.
  destruct (date_ltb today (dt_date dt)); [reflexivity|].
  destruct (date_ltb (dt_date dt) (mkdate 1900 1 1)); reflexivity.
Qed.

(** A calendar date in the spelling of [date.isoformat()] is judged by its
    day alone, whatever the interpreter. *)
Lemma validate_birthdate_isoformat fromisoformat today d :
  reads_isoformat fromisoformat → valid_date d →
  Patient.validate_birthdate fromisoformat today (isoformat d) =
    if date_ltb today d
    then inl "Fecha inválida: Fecha de nacimiento no puede ser futura"
    else if date_ltb d (mkdate 1900 1 1)
    then inl "Fecha inválida: Fecha de nacimiento inválida"
    else inr (isoformat d).
Proof.
  intros [Hreads _] Hd. destruct (Hreads d Hd) as (dt & Hdt & <-).
  by apply validate_birthdate_of_date.
Qed.

(** C4, as the code has it. For every interpreter that reads back what
    [date.isoformat()] writes, the validator of the full payload accepts a
    birth date exactly when [datetime.fromisoformat] of that interpreter
    reads the string and the date read lies between 1900-01-01 and today.
    A calendar date [YYYY-MM-DD] is accepted when its day lies in that
    range, rejected as future after today and as too old before 1900. With
    today a day of the calendar from 1900 on: 1899-12-31 is rejected as
    too old and 1900-01-01 is accepted, today is accepted and tomorrow is
    rejected as future; a string that the interpreter does not read is
    rejected with a message that is neither of the two range messages. *)
Theorem birthdate_validation (fromisoformat : string → ValueError + datetime)
    today
    (Hreads : reads_isoformat fromisoformat)
    (Hvalid : valid_date today)
    (Hlo : date_leb (mkdate 1900 1 1) today = true)
    (Hhi : year today < 9999) :
  (∀ v, Patient.validate_birthdate fromisoformat today v = inr v
        ↔ ∃ dt, fromisoformat v = inr dt
                ∧ date_leb (mkdate 1900 1 1) (dt_date dt) = true
                ∧ date_leb (dt_date dt) today = true)
  ∧ (∀ d, valid_date d →
          Patient.validate_birthdate fromisoformat today (isoformat d) =
            if date_ltb today d
            then inl "Fecha inválida: Fecha de nacimiento no puede ser futura"
            else if date_ltb d (mkdate 1900 1 1)
            then inl "Fecha inválida: Fecha de nacimiento inválida"
            else inr (isoformat d))
  ∧ Patient.validate_birthdate fromisoformat today "1899-12-31"
    = inl "Fecha inválida: Fecha de nacimiento inválida"
  ∧ Patient.validate_birthdate fromisoformat today "1900-01-01"
    = inr "1900-01-01"
  ∧ Patient.validate_birthdate fromisoformat today (isoformat today)
    = inr (isoformat today)
  ∧ Patient.validate_birthdate fromisoformat today (isoformat (tomorrow today))
    = inl "Fecha inválida: Fecha de nacimiento no puede ser futura"
  ∧ (∀ v e, fromisoformat v = inl e →
       ∃ msg, Patient.validate_birthdate fromisoformat today v = inl msg
              ∧ msg ≠ "Fecha inválida: Fecha de nacimiento no puede ser futura"
              ∧ msg ≠ "Fecha inválida: Fecha de nacimiento inválida").
Proof.
  unfold date_leb in Hlo. apply negb_true_iff in Hlo.
  split; [apply validate_birthdate_accepts|].
  split; [intros d Hd; by apply validate_birthdate_isoformat|].
  split.
  { change "1899-12-31" with (isoformat (mkdate 1899 12 31)).
    rewrite validate_birthdate_isoformat
      by (done || (unfold valid_date; repeat split; by vm_compute)).
    replace (date_ltb today (mkdate 1899 12 31)) with false; [done|].
    symmetry. unfold date_ltb in *. simpl in *. lia. }
  split.
  { change "1900-01-01" with (isoformat (mkdate 1900 1 1)).
    rewrite validate_birthdate_isoformat
      by (done || (unfold valid_date; repeat split; by vm_compute)).
    by rewrite Hlo. }
  split.
  { rewrite validate_birthdate_isoformat by done.
    by rewrite date_ltb_irrefl, Hlo. }
  split.
  { rewrite validate_birthdate_isoformat
      by (done || by apply valid_date_tomorrow).
    by rewrite date_ltb_tomorrow. }
  intros v e He. exists ("Fecha inválida: " +:+ e).
  unfold Patient.validate_birthdate.
  rewrite (birthdate_checks_parse_error _ _ _ _ He).
  destruct Hreads as [_ Herr]. destruct (Herr v e He) as [H1 H2].
  split; [done|]. split; intros [= ?]; done.
Qed.

(** On the example server: today is accepted, tomorrow is not, and the
    malformed date of the specification is rejected in the words of the
    interpreter. *)
Lemma birthdate_validation_witness :
  Patient.validate_birthdate (fromisoformat env0) (today env0)
    (isoformat (today env0))
  = inr (isoformat (today env0))
  ∧ Patient.validate_birthdate (fromisoformat env0) (today env0)
      (isoformat (tomorrow (today env0)))
    = inl "Fecha inválida: Fecha de nacimiento no puede ser futura"
  ∧ ∃ msg,
      Patient.validate_birthdate (fromisoformat env0) (today env0) "13/13/2020"
      = inl msg
      ∧ msg ≠ "Fecha inválida: Fecha de nacimiento no puede ser futura"
      ∧ msg ≠ "Fecha inválida: Fecha de nacimiento inválida".
Proof.
  assert (valid_date (today env0)) as Hvalid
    by (unfold valid_date; repeat split; by vm_compute).
  assert (date_leb (mkdate 1900 1 1) (today env0) = true) as Hlo
    by reflexivity.
  assert (year (today env0) < 9999) as Hhi by (simpl; lia).
  destruct (birthdate_validation (fromisoformat env0) (today env0)
              fromisoformat_py37_reads Hvalid Hlo Hhi)
    as (_ & _ & _ & _ & Htoday & Htomorrow & Hunread).
  split; [assumption|]. split; [assumption|].
  apply (Hunread "13/13/2020" "Invalid isoformat string: '13/13/2020'").
  reflexivity.
Defined.

(** C4, as it is worded, fails: a time stamp is not an ISO calendar date,
    and the validator accepts it (time stamps are among the strings that
    [datetime.isoformat()] writes, which every version reads). *)
Lemma birthdate_timestamp_accepted :
  Patient.validate_birthdate (fromisoformat env0) (today env0)
    "2000-01-01T10:30:00"
  = inr "2000-01-01T10:30:00"
  ∧ iso_calendar_date "2000-01-01T10:30:00" = None
  ∧ iso_calendar_date "2000-01-01" = Some (mkdate 2000 1 1).
Proof. vm_compute. repeat split; reflexivity. Qed.

(** ** Exceptions raised inside the [with] block *)

Lemma rollback_same f db n : rollback db (mkconn f db n) = db.
Proof. by destruct db. Qed.

Ltac run_block :=
  unfold mbind, Tx_bind, tx_bind, execute, select_patient, raise; simpl;
  try case_bool_decide; simpl.

(** A block that looks the patient up and raises when there is none never
    commits: whatever it raises leaves the [with] as a 500. *)
Lemma absent_raises {A} env f db pid (e : exn) (k : Tx A) :
  patients db !! pid = None →
  ∃ detail,
    get_db_connection env f
      (found ← execute (select_patient pid);
       if found is None then raise e else k) db
    = (inl (HTTPException 500 detail), db).
Proof.
  intros Hnone. unfold get_db_connection.
  destruct (configured (DATABASE_URL env)); simpl; [|by eexists].
  destruct f; try (by eexists); run_block;
    rewrite ?Hnone, ?rollback_same; destruct e; by eexists.
Qed.

(** The same for a block that raises when the patient is there. *)
Lemma present_raises {A} env f db pid row (e : exn) (k : Tx A) :
  patients db !! pid = Some row →
  ∃ detail,
    get_db_connection env f
      (found ← execute (select_patient pid);
       if found is Some _ then raise e else k) db
    = (inl (HTTPException 500 detail), db).
Proof.
  intros Hsome. unfold get_db_connection.
  destruct (configured (DATABASE_URL env)); simpl; [|by eexists].
  destruct f; try (by eexists); run_block;
    rewrite ?Hsome, ?rollback_same; destruct e; by eexists.
Qed.

(** C1, as the code has it. For a patient id that is not in the store,
    replace, patch, delete, the listing of observations and the creation of
    an observation all answer 500 and leave the store as it was: the 404
    raised in the block is caught by the [except Exception] of
    [get_db_connection] and leaves it as a 500. *)
Theorem absent_patient_answered_500 env db pid patient updates observation :
  patients db !! pid = None →
  Observation.patient_id observation = pid →
  answered_500 (update_patient env pid patient db) db
  ∧ answered_500 (patch_patient env pid updates db) db
  ∧ answered_500 (delete_patient env pid db) db
  ∧ answered_500 (get_observations env pid db) db
  ∧ answered_500 (create_observation env observation db) db.
Proof.
  intros Hnone <-. unfold answered_500.
  repeat split.
  - unfold update_patient.
    edestruct (absent_raises (A:=()) env (main_fault env) db) as [d ->]; [done|].
    by eexists.
  - unfold patch_patient.
    edestruct (absent_raises (A:=()) env (main_fault env) db) as [d ->]; [done|].
    by eexists.
  - unfold delete_patient.
    edestruct (absent_raises (A:=Z) env (main_fault env) db) as [d ->]; [done|].
    by eexists.
  - unfold get_observations. by apply absent_raises.
  - unfold create_observation.
    edestruct (absent_raises (A:=()) env (main_fault env) db) as [d ->]; [done|].
    by eexists.
Qed.

Lemma absent_patient_answered_500_witness :
  answered_500 (delete_patient env0 "p404" db_smith) db_smith.
Proof.
  refine (proj1 (proj2 (proj2
    (absent_patient_answered_500 env0 db_smith "p404" smith unset
       (Observation.mk "p404" "vital-signs" "8867-4" "Heart rate" 72 "bpm"
          "2026-11-01") _ _)))).
  - vm_compute. reflexivity.
  - reflexivity.
Defined.

(** The 404 is in the detail of the 500. *)
Lemma delete_absent_patient_detail :
  delete_patient env0 "p404" db_smith
  = (inl (HTTPException 500
            "Error inesperado: 404: Paciente 'p404' no encontrado"), db_smith).
Proof. vm_compute. reflexivity. Qed.

(** C2, as the code has it. Creating a patient whose id is in the store
    answers 500, not a client error, and leaves the store as it was. *)
Theorem duplicate_patient_answered_500 env db patient row :
  patients db !! Patient.id patient = Some row →
  answered_500 (create_patient env patient db) db.
Proof.
  intros Hsome. unfold answered_500, create_patient.
  edestruct (present_raises (A:=()) env (main_fault env) db) as [d ->]; [done|].
  by eexists.
Qed.

Lemma duplicate_patient_answered_500_witness :
  answered_500 (create_patient env0 smith db_smith) db_smith.
Proof.
  apply (duplicate_patient_answered_500 env0 db_smith smith row_smith).
  vm_compute. reflexivity.
Defined.

Lemma create_duplicate_patient_detail :
  create_patient env0 smith db_smith
  = (inl (HTTPException 500
            "Error inesperado: 400: El paciente 'p1' ya existe"), db_smith).
Proof. vm_compute. reflexivity. Qed.

(** C6, as the code has it. A patch of an existing patient that sets no
    field answers 500, not a client error, and leaves the store as it
    was. *)
Theorem empty_patch_answered_500 env db pid row :
  patients db !! pid = Some row →
  answered_500 (patch_patient env pid unset db) db.
Proof.
  intros Hsome. unfold answered_500, patch_patient, get_db_connection.
  destruct (configured (DATABASE_URL env)); simpl; [|by eexists].
  destruct (main_fault env); try (by eexists); run_block;
    rewrite ?Hsome, ?rollback_same; by eexists.
Qed.

Lemma empty_patch_answered_500_witness :
  answered_500 (patch_patient env0 "p1" unset db_smith) db_smith.
Proof.
  apply (empty_patch_answered_500 env0 db_smith "p1" row_smith).
  vm_compute. reflexivity.
Defined.

Lemma empty_patch_detail :
  patch_patient env0 "p1" unset db_smith
  = (inl (HTTPException 500
            "Error inesperado: 400: No se proporcionaron campos para actualizar"),
     db_smith).
Proof. vm_compute. reflexivity. Qed.

(** ** Blocks and the properties they keep *)

Create HintDb tx.

Lemma tx_preserves_ret {A} P (a : A) : tx_preserves P (mret a).
Proof. intros c r c' HP [= <- <-]. done. Qed.

Lemma tx_preserves_raise {A} P e : tx_preserves P (raise (A:=A) e).
Proof. intros c r c' HP [= <- <-]. done. Qed.

Lemma tx_preserves_bind {A B} P (m : Tx A) (k : A → Tx B) :
  tx_preserves P m → (∀ a, tx_preserves P (k a)) → tx_preserves P (m ≫= k).
Proof.
  intros Hm Hk c r c' HP. unfold mbind, Tx_bind, tx_bind.
  destruct (m c) as [[e|a] c1] eqn:Hmc.
  - intros [= <- <-]. by eapply Hm.
  - intros Hka. eapply Hk; [|done]. by eapply Hm.
Qed.

Lemma tx_preserves_execute {A} P (s : statement A) :
  stmt_preserves P s → tx_preserves P (execute s).
Proof.
  intros Hs c r c' HP. unfold execute.
  destruct (s (work c)) as [e|[a db']] eqn:Hsc.
  - repeat case_match; intros [= <- <-]; done.
  - repeat case_match; intros [= <- <-]; simpl; try done; by eapply Hs.
Qed.

#[local] Hint Resolve tx_preserves_ret tx_preserves_raise tx_preserves_bind
  tx_preserves_execute : tx.

(** What leaves [get_db_connection] as an exception is a 500, and nothing
    of the block is committed. *)
Lemma get_db_connection_inl {A} env f (body : Tx A) db e db' :
  get_db_connection env f body db = (inl e, db') →
  (∃ detail, e = HTTPException 500 detail)
  ∧ patients db' = patients db ∧ observations db' = observations db
  ∧ logs db' = logs db.
Proof.
  unfold get_db_connection. intros H.
  repeat case_match; simplify_eq; (split; [by eexists | done]).
Qed.

(** What leaves it as a result is the committed work of the block. *)
Lemma get_db_connection_inr {A} env f (body : Tx A) db a db' :
  get_db_connection env f body db = (inr a, db') →
  configured (DATABASE_URL env) = true
  ∧ ∃ c, body (mkconn f db 0) = (inr a, c) ∧ db' = work c.
Proof.
  unfold get_db_connection. intros H.
  destruct (configured (DATABASE_URL env)); [|done]. split; [done|].
  repeat case_match; simplify_eq; by eexists.
Qed.

Lemma get_db_connection_preserves {A} P env f (body : Tx A) db :
  rollback_closed P → tx_preserves P body → P db →
  P (get_db_connection env f body db).2.
Proof.
  intros Hrb Hbody HP. unfold get_db_connection.
  destruct (negb (configured (DATABASE_URL env))); [done|].
  destruct (body (mkconn f db 0)) as [r c] eqn:Hb.
  assert (P (work c)) by (by eapply (Hbody (mkconn f db 0))).
  assert (P (rollback db c)) by (by apply Hrb).
  destruct f; try done; destruct r as [[]|]; done.
Qed.

(** *** The audit log *)

Lemma log_event_frame env action resource rid db :
  patients (log_event env action resource rid db) = patients db
  ∧ observations (log_event env action resource rid db) = observations db.
Proof.
  unfold log_event, get_db_connection, execute, insert_log.
  repeat (case_match; simplify_eq; simpl in *; try done).
  all: unfold mbind, sum_bind, mret, sum_ret in *;
    repeat (case_match; simplify_eq; simpl in *; try done).
Qed.

Lemma varchar_fits n s : (length (chars s) ≤ n)%nat → varchar n s = inr s.
Proof. intros H. unfold varchar. by rewrite bool_decide_eq_true_2. Qed.

(** The entry goes in when the engine lets the transaction through, and
    only then. *)
Lemma log_event_logs env action resource rid rid' db :
  configured (DATABASE_URL env) = true →
  varchar 50 rid = inr rid' →
  (length (chars action) ≤ 20)%nat → (length (chars resource) ≤ 50)%nat →
  logs (log_event env action resource rid db)
  = if log_faulty env then logs db
    else logs db ++ [LogRow.mk (logs_id_seq db + 1) (utcnow env) action
                                resource rid'].
Proof.
  intros Hconf Hrid Ha Hr.
  unfold log_event, get_db_connection, execute, insert_log, log_faulty.
  rewrite Hconf, Hrid, !varchar_fits by done. simpl.
  destruct (log_fault env) as [| |[|n]|]; simpl; try done.
Qed.

(** *** What each statement keeps *)

Ltac run_stmt :=
  unfold mbind, sum_bind, mret, sum_ret in *;
  simplify_eq; simpl in *;
  repeat (case_match; simplify_eq; simpl in *; try done).

Lemma varchar_length n s s' :
  varchar n s = inr s' → (length (chars s') ≤ n)%nat.
Proof.
  unfold varchar. intros H.
  case_bool_decide; [by simplify_eq|].
  case_match; simplify_eq. rewrite chars_text, length_take. lia.
Qed.

Lemma select_patient_preserves P pid : stmt_preserves P (select_patient pid).
Proof. intros db a db' HP [= <- <-]. done. Qed.

Lemma count_observations_preserves P pid :
  stmt_preserves P (count_observations pid).
Proof. intros db a db' HP [= <- <-]. done. Qed.

Lemma select_observations_preserves P pid :
  stmt_preserves P (select_observations pid).
Proof. intros db a db' HP [= <- <-]. done. Qed.

Lemma select_patients_like_preserves P p1 p2 :
  stmt_preserves P (select_patients_like p1 p2).
Proof.
  intros db a db' HP. unfold select_patients_like. intros H. run_stmt.
Qed.

Lemma insert_patient_same_logs l n env p :
  stmt_preserves (same_logs l n) (insert_patient env p).
Proof. intros db a db' HP. unfold insert_patient. intros H. run_stmt. Qed.

Lemma update_patients_same_logs l n env sets pid :
  stmt_preserves (same_logs l n) (update_patients env sets pid).
Proof. intros db a db' HP. unfold update_patients. intros H. run_stmt. Qed.

Lemma delete_patient_row_same_logs l n pid :
  stmt_preserves (same_logs l n) (delete_patient_row pid).
Proof. intros db a db' HP [= <- <-]. done. Qed.

Lemma insert_observation_same_logs l n env i o :
  stmt_preserves (same_logs l n) (insert_observation env i o).
Proof. intros db a db' HP. unfold insert_observation. intros H. run_stmt. Qed.

Lemma rollback_closed_same_logs l n : rollback_closed (same_logs l n).
Proof. intros db c [H1 H2] [H3 H4]. by split. Qed.

Lemma insert_patient_no_orphans env p :
  stmt_preserves no_orphans (insert_patient env p).
Proof.
  intros db a db' HP. unfold insert_patient. intros H. run_stmt.
  intros i o Ho. simpl in *. apply lookup_insert_is_Some'. right. by eapply HP.
Qed.

Lemma update_patients_no_orphans env sets pid :
  stmt_preserves no_orphans (update_patients env sets pid).
Proof.
  intros db a db' HP. unfold update_patients. intros H. run_stmt.
  intros i o Ho. simpl in *. apply lookup_insert_is_Some'. right. by eapply HP.
Qed.

Lemma delete_patient_row_no_orphans pid :
  stmt_preserves no_orphans (delete_patient_row pid).
Proof.
  intros db a db' HP [= <- <-]. intros i o Ho. simpl in *.
  apply map_lookup_filter_Some in Ho as [Ho Hne]. simpl in Hne.
  rewrite lookup_delete_ne by done. by eapply HP.
Qed.

Lemma insert_observation_no_orphans env i o :
  stmt_preserves no_orphans (insert_observation env i o).
Proof.
  intros db a db' HP. unfold insert_observation. intros H. run_stmt.
  intros j o' Ho. simpl in *.
  apply lookup_insert_Some in Ho as [[<- <-]|[? Ho]]; [by eexists|by eapply HP].
Qed.

Lemma insert_log_no_orphans t a r i :
  stmt_preserves no_orphans (insert_log t a r i).
Proof. intros db x db' HP. unfold insert_log. intros H. run_stmt. Qed.

Lemma rollback_closed_no_orphans : rollback_closed no_orphans.
Proof. intros db c H _. exact H. Qed.

Lemma insert_patient_key_lengths env p :
  stmt_preserves key_lengths (insert_patient env p).
Proof.
  intros db a db' HP. unfold insert_patient. intros H. run_stmt.
  intros k r Hk. simpl in *.
  apply lookup_insert_Some in Hk as [[<- <-]|[? Hk]]; [|by eapply HP].
  by eapply varchar_length.
Qed.

Lemma update_patients_key_lengths env sets pid :
  stmt_preserves key_lengths (update_patients env sets pid).
Proof.
  intros db a db' HP. unfold update_patients. intros H. run_stmt.
  intros k r Hk. simpl in *.
  apply lookup_insert_Some in Hk as [[<- <-]|[? Hk]]; by eapply HP.
Qed.

Lemma delete_patient_row_key_lengths pid :
  stmt_preserves key_lengths (delete_patient_row pid).
Proof.
  intros db a db' HP [= <- <-]. intros k r Hk. simpl in *.
  apply lookup_delete_Some in Hk as [? Hk]. by eapply HP.
Qed.

Lemma insert_observation_key_lengths env i o :
  stmt_preserves key_lengths (insert_observation env i o).
Proof. intros db a db' HP. unfold insert_observation. intros H. run_stmt. Qed.

Lemma insert_log_key_lengths t a r i :
  stmt_preserves key_lengths (insert_log t a r i).
Proof. intros db x db' HP. unfold insert_log. intros H. run_stmt. Qed.

Lemma rollback_closed_key_lengths : rollback_closed key_lengths.
Proof. intros db c H _. exact H. Qed.

#[local] Hint Resolve select_patient_preserves count_observations_preserves
  select_observations_preserves select_patients_like_preserves
  insert_patient_same_logs update_patients_same_logs
  delete_patient_row_same_logs insert_observation_same_logs
  insert_patient_no_orphans update_patients_no_orphans
  delete_patient_row_no_orphans insert_observation_no_orphans
  insert_log_no_orphans insert_patient_key_lengths update_patients_key_lengths
  delete_patient_row_key_lengths insert_observation_key_lengths
  insert_log_key_lengths rollback_closed_same_logs rollback_closed_no_orphans
  rollback_closed_key_lengths : tx.

(** A block is taken apart along its binds and its branches. *)
Ltac tx_keeps :=
  repeat first
    [ apply tx_preserves_ret | apply tx_preserves_raise
    | apply tx_preserves_bind; [|intros ?]
    | apply tx_preserves_execute; solve [eauto with tx]
    | case_match ].

(** *** The handlers, one transaction after the other *)

(** Unfolds a block on a connection, in a hypothesis. *)
Ltac tx_inv H :=
  unfold mbind, Tx_bind, tx_bind, mret, Tx_ret, tx_ret, raise, execute in H;
  simpl in H;
  repeat (case_match; simplify_eq; simpl in *; try done).

Lemma insert_patient_inr env p db a db' :
  insert_patient env p db = inr (a, db') →
  ∃ i, varchar 50 (Patient.id p) = inr i.
Proof. unfold insert_patient. intros H. run_stmt. by eexists. Qed.

Lemma insert_observation_inr env i o db a db' :
  insert_observation env i o db = inr (a, db') →
  ∃ i', varchar 50 i = inr i'.
Proof. unfold insert_observation. intros H. run_stmt. by eexists. Qed.

Lemma no_orphans_ext db db' :
  patients db' = patients db → observations db' = observations db →
  no_orphans db → no_orphans db'.
Proof. unfold no_orphans. intros -> ->. done. Qed.

Lemma key_lengths_ext db db' :
  patients db' = patients db → key_lengths db → key_lengths db'.
Proof. unfold key_lengths. intros ->. done. Qed.

(** Names the transaction of the handler in the goal and splits on how it
    ends, keeping what is known of either end. *)
Ltac main_transaction db1 Hmain :=
  match goal with
  | |- context [get_db_connection ?env (main_fault ?env) ?b ?db] =>
      let Hkeep := fresh "Hkeep" in
      let Hinl := fresh "Hinl" in
      let Hinr := fresh "Hinr" in
      pose proof (get_db_connection_inl env (main_fault env) b db) as Hinl;
      pose proof (get_db_connection_inr env (main_fault env) b db) as Hinr;
      destruct (get_db_connection env (main_fault env) b db)
        as [[?e|?x] db1] eqn:Hmain;
      [ specialize (Hinl _ _ eq_refl); clear Hinr
      | specialize (Hinr _ _ eq_refl); clear Hinl ]
  end.

Lemma handle_no_orphans env rq db : no_orphans db → no_orphans (handle env rq db).
Proof.
  intros Hdb. unfold handle.
  destruct rq; cbn [serve]; unfold outcome;
    [ unfold create_patient | unfold update_patient | unfold patch_patient
    | unfold delete_patient | unfold create_observation ].
  all: match goal with
       | |- context [get_db_connection ?e ?f ?b ?d] =>
           assert (no_orphans (get_db_connection e f b d).2) as Hmain
             by (apply get_db_connection_preserves;
                 [apply rollback_closed_no_orphans | tx_keeps | done]);
           destruct (get_db_connection e f b d) as [[?|?] db1]
       end; simpl in *; try done.
  all: eapply no_orphans_ext; [apply log_event_frame..|done].
Qed.

Lemma handle_key_lengths env rq db :
  key_lengths db → key_lengths (handle env rq db).
Proof.
  intros Hdb. unfold handle.
  destruct rq; cbn [serve]; unfold outcome;
    [ unfold create_patient | unfold update_patient | unfold patch_patient
    | unfold delete_patient | unfold create_observation ].
  all: match goal with
       | |- context [get_db_connection ?e ?f ?b ?d] =>
           assert (key_lengths (get_db_connection e f b d).2) as Hmain
             by (apply get_db_connection_preserves;
                 [apply rollback_closed_key_lengths | tx_keeps | done]);
           destruct (get_db_connection e f b d) as [[?|?] db1]
       end; simpl in *; try done.
  all: eapply key_lengths_ext; [apply log_event_frame|done].
Qed.

Lemma reachable_no_orphans db : reachable db → no_orphans db.
Proof.
  induction 1 as [|env rq db _ IH]; [|by apply handle_no_orphans].
  intros i o Ho. cbn in Ho. by rewrite lookup_empty in Ho.
Qed.

Lemma reachable_key_lengths db : reachable db → key_lengths db.
Proof.
  induction 1 as [|env rq db _ IH]; [|by apply handle_key_lengths].
  intros k r Hk. cbn in Hk. by rewrite lookup_empty in Hk.
Qed.

Ltac unfold_handler :=
  unfold serve, outcome, audit_of;
  first [ progress unfold create_patient | progress unfold update_patient
        | progress unfold patch_patient | progress unfold delete_patient
        | progress unfold create_observation ].

(** A failed request leaves the three tables as they were. *)
Lemma serve_failed env rq db e :
  (serve env rq db).1 = Some e →
  patients (serve env rq db).2 = patients db
  ∧ observations (serve env rq db).2 = observations db
  ∧ logs (serve env rq db).2 = logs db.
Proof.
  destruct rq; unfold_handler.
  all: main_transaction db1 Hmain; simpl; [|done].
  all: intros _; tauto.
Qed.

(** The statements do not look at the faults of the environment. *)
Lemma set_columns_log_fault f env sets r :
  set_columns (with_log_fault f env) sets r = set_columns env sets r.
Proof.
  revert r. induction sets as [|[column v] sets IH]; intros r; [done|].
  cbn [set_columns].
  change (set_column (with_log_fault f env) column v r)
    with (set_column env column v r).
  destruct (set_column env column v r); [done|]. apply IH.
Qed.

Lemma update_patients_log_fault f env sets pid db :
  update_patients (with_log_fault f env) sets pid db
  = update_patients env sets pid db.
Proof.
  unfold update_patients. destruct (patients db !! pid); [|done].
  by rewrite set_columns_log_fault.
Qed.

Lemma get_db_connection_ext {A} env env' f (b b' : Tx A) db :
  DATABASE_URL env' = DATABASE_URL env → (∀ c, b' c = b c) →
  get_db_connection env' f b' db = get_db_connection env f b db.
Proof. intros Hu Hb. unfold get_db_connection. by rewrite Hu, Hb. Qed.

(** The audit transaction never shows in the reply, nor in the patients
    and observations the request leaves behind. *)
Lemma serve_log_fault env rq db f :
  (serve (with_log_fault f env) rq db).1 = (serve env rq db).1
  ∧ patients (serve (with_log_fault f env) rq db).2
    = patients (serve env rq db).2
  ∧ observations (serve (with_log_fault f env) rq db).2
    = observations (serve env rq db).2.
Proof.
  destruct rq; unfold_handler.
  all: match goal with
       | |- context [get_db_connection (with_log_fault ?f ?env) ?mf ?b' ?db] =>
           match goal with
           | |- context [get_db_connection env (main_fault env) ?b db] =>
               rewrite !(get_db_connection_ext env (with_log_fault f env)
                           mf b b' db eq_refl);
               [change mf with (main_fault env)|]
           end
       end.
  all: try (main_transaction db1 Hmain; simpl; [done|];
            split; [done|];
            split;
            repeat match goal with
              | |- context [log_event ?e ?a ?r ?i ?d] =>
                  let H := fresh in
                  destruct (log_event_frame e a r i d) as [H ?];
                  rewrite ?H; clear H;
                  generalize dependent (log_event e a r i d); intros
              end; congruence).
  all: intros c; unfold mbind, Tx_bind, tx_bind, execute; simpl;
    repeat (rewrite ?update_patients_log_fault;
            case_match; simplify_eq; try done).
Qed.

(** A patient the block found has a key that the audit table accepts. *)
Lemma found_key_fits db pid row :
  key_lengths db → patients db !! pid = Some row → varchar 50 pid = inr pid.
Proof. intros Hk Hrow. apply varchar_fits. by eapply Hk. Qed.

(** A request that succeeded is audited with its own id, in the form the
    engine stores it. *)
Lemma served_id_fits env rq db :
  key_lengths db → (serve env rq db).1 = None →
  ∃ i, varchar 50 (audit_of env rq).2 = inr i.
Proof.
  intros Hkeys. destruct rq; unfold_handler.
  all: main_transaction db1 Hmain; simpl; [done|]; intros _.
  all: destruct Hinr as (_ & c & Hc & ->).
  all: tx_inv Hc.
  all: first [ eexists; by eapply found_key_fits
             | by eapply insert_patient_inr
             | by eapply insert_observation_inr ].
Qed.

Lemma served_logs env rq db i :
  (serve env rq db).1 = None →
  varchar 50 (audit_of env rq).2 = inr i →
  logs (serve env rq db).2
  = if log_faulty env then logs db
    else logs db ++ [LogRow.mk (logs_id_seq db + 1) (utcnow env)
                       (audit_of env rq).1.1 (audit_of env rq).1.2 i].
Proof.
  destruct rq; unfold_handler.
  all: match goal with
       | |- context [get_db_connection ?e ?f ?b ?d] =>
           assert (same_logs (logs d) (logs_id_seq d)
                     (get_db_connection e f b d).2) as [Hlogs Hseq]
             by (apply get_db_connection_preserves;
                 [apply rollback_closed_same_logs | tx_keeps | done])
       end.
  all: main_transaction db1 Hmain; simpl in *; [done|]; intros _ Hid.
  all: destruct Hinr as (Hconf & _).
  all: rewrite (log_event_logs _ _ _ _ i) by (simpl; done || lia).
  all: by rewrite Hlogs, Hseq.
Qed.

(** C3. On a reachable store: a request that fails leaves the audit table
    as it was; a request that succeeds has its entry (action, resource
    kind, resource id as stored, time of the server) appended at the end
    of the table, unless the audit transaction itself is hit by a fault,
    and then the table is as it was; and whatever fault hits the audit
    transaction, the reply is the same and so are the patients and the
    observations the request leaves behind. *)
Theorem audit_log env rq db (Hreach : reachable db) :
  (∀ e, (serve env rq db).1 = Some e →
        logs (serve env rq db).2 = logs db)
  ∧ ((serve env rq db).1 = None →
     ∃ i, varchar 50 (audit_of env rq).2 = inr i
          ∧ logs (serve env rq db).2
            = if log_faulty env then logs db
              else logs db ++ [LogRow.mk (logs_id_seq db + 1) (utcnow env)
                                 (audit_of env rq).1.1 (audit_of env rq).1.2 i])
  ∧ (∀ f, (serve (with_log_fault f env) rq db).1 = (serve env rq db).1
          ∧ patients (serve (with_log_fault f env) rq db).2
            = patients (serve env rq db).2
          ∧ observations (serve (with_log_fault f env) rq db).2
            = observations (serve env rq db).2).
Proof.
  split; [|split].
  - intros e He. by eapply serve_failed.
  - intros Hok.
    destruct (served_id_fits env rq db) as [i Hi];
      [by apply reachable_key_lengths | done |].
    exists i. split; [done|]. by apply served_logs.
  - intros f. apply serve_log_fault.
Qed.

(** A payload that is rejected never reaches a handler: the store is as
    it was. *)
Lemma rejected_payload_changes_nothing env pid db :
  (∀ payload errors,
     (POST_Patient env payload db).1 = Unprocessable errors →
     (POST_Patient env payload db).2 = db)
  ∧ (∀ payload errors,
       (PUT_Patient env pid payload db).1 = Unprocessable errors →
       (PUT_Patient env pid payload db).2 = db)
  ∧ (∀ payload errors,
       (PATCH_Patient env pid payload db).1 = Unprocessable errors →
       (PATCH_Patient env pid payload db).2 = db).
Proof.
  unfold POST_Patient, PUT_Patient, PATCH_Patient.
  repeat split; intros payload errors.
  - destruct (Patient.validate (fromisoformat env) (today env) payload)
      as [|p]; [done|].
    by destruct (create_patient env p db) as [[[]|] ?].
  - destruct (Patient.validate (fromisoformat env) (today env) payload)
      as [|p]; [done|].
    by destruct (update_patient env pid p db) as [[[]|] ?].
  - destruct (PatientUpdate.validate payload) as [|u]; [done|].
    by destruct (patch_patient env pid u db) as [[[]|] ?].
Qed.

Lemma audit_log_witness :
  logs (serve env0 (DeletePatient "p1") db_smith).2
  = logs db_smith
    ++ [LogRow.mk 2 1793700000 "DELETE" "Patient" "p1"].
Proof.
  assert (reachable db_smith) as Hreach
    by exact (reachable_handle env0 (CreatePatient smith) empty_db
                reachable_empty).
  destruct (audit_log env0 (DeletePatient "p1") db_smith Hreach)
    as (_ & Hok & _).
  destruct (Hok eq_refl) as (i & Hi & Hlogs).
  vm_compute in Hi. injection Hi as <-. exact Hlogs.
Defined.

(** *** Deleting a patient *)

Lemma delete_patient_inr env pid db r db' :
  delete_patient env pid db = (inr r, db') →
  is_Some (patients db !! pid)
  ∧ patients db' = delete pid (patients db)
  ∧ observations db'
    = filter (λ kv, ObservationRow.patient_id kv.2 ≠ pid) (observations db)
  ∧ r.2 = Z.of_nat (size (observations_of pid db)).
Proof.
  unfold delete_patient.
  main_transaction db1 Hmain; [done|]. intros [= <- <-].
  destruct Hinr as (_ & c & Hc & ->).
  destruct (log_event_frame env "DELETE" "Patient" pid (work c)) as [-> ->].
  tx_inv Hc.
Qed.

Lemma delete_patient_inl env pid db e db' :
  delete_patient env pid db = (inl e, db') →
  patients db' = patients db ∧ observations db' = observations db.
Proof.
  unfold delete_patient.
  main_transaction db1 Hmain; [|done]. intros [= <- <-]. tauto.
Qed.

(** C9. Every observation of a reachable store has its patient in the
    store. An observation for a patient that is not there is not inserted.
    A delete that succeeds leaves neither the patient nor any of its
    observations, keeps the observations of the others, and returns how
    many it removed; a delete that fails removes nothing. *)
Theorem no_orphan_observations :
  (∀ db, reachable db → no_orphans db)
  ∧ (∀ env o db,
       patients db !! Observation.patient_id o = None →
       answered_500 (create_observation env o db) db)
  ∧ (∀ env pid db r db',
       delete_patient env pid db = (inr r, db') →
       patients db' !! pid = None
       ∧ observations_of pid db' = ∅
       ∧ (∀ i o, ObservationRow.patient_id o ≠ pid →
                 observations db' !! i = Some o ↔ observations db !! i = Some o)
       ∧ r.2 = Z.of_nat (size (observations_of pid db)))
  ∧ (∀ env pid db e db',
       delete_patient env pid db = (inl e, db') →
       patients db' = patients db ∧ observations db' = observations db).
Proof.
  split; [apply reachable_no_orphans|].
  split.
  { intros env o db Hnone. unfold answered_500, create_observation.
    edestruct (absent_raises (A:=()) env (main_fault env) db) as [d ->];
      [done|]. by eexists. }
  split; [|apply delete_patient_inl].
  intros env pid db r db' Hdel.
  apply delete_patient_inr in Hdel as (_ & Hp & Ho & Hn).
  split; [by rewrite Hp, lookup_delete_eq|].
  split.
  { unfold observations_of. rewrite Ho. apply map_empty. intros i.
    apply map_lookup_filter_None. right. intros o Hio Hpid.
    apply map_lookup_filter_Some in Hio as [_ Hne]. done. }
  split; [|done].
  intros i o Hne. rewrite Ho, map_lookup_filter_Some. simpl. tauto.
Qed.

Lemma no_orphan_observations_witness : no_orphans db_pulse.
Proof.
  apply (proj1 no_orphan_observations db_pulse).
  exact (reachable_handle env0 (CreateObservation pulse) db_smith
           (reachable_handle env0 (CreatePatient smith) empty_db
              reachable_empty)).
Defined.

(** *** Assignments *)

(** Closes a goal [x ∉ l] for a list of distinct literal columns. *)
Ltac other_column :=
  let H := fresh in
  intros H;
  repeat (apply elem_of_cons in H as [H|H]; [by simplify_eq|]);
  by apply elem_of_nil in H.

Lemma set_column_unchanged env column v r r' :
  set_column env column v r = inr r' → unchanged_outside [column] r r'.
Proof.
  destruct r as [i f g s b m c u]. unfold set_column, unchanged_outside.
  intros H.
  destruct v; repeat case_bool_decide; subst; run_stmt;
    repeat split; try done;
    let Hnot := fresh in
    intros Hnot; exfalso; apply Hnot; by apply list_elem_of_singleton.
Qed.

Lemma unchanged_outside_refl columns r : unchanged_outside columns r r.
Proof. unfold unchanged_outside. tauto. Qed.

Lemma unchanged_outside_app cs1 cs2 r1 r2 r3 :
  unchanged_outside cs1 r1 r2 → unchanged_outside cs2 r2 r3 →
  unchanged_outside (cs1 ++ cs2) r1 r3.
Proof.
  unfold unchanged_outside.
  intros (?&?&?&?&?&?&?&?) (?&?&?&?&?&?&?&?).
  repeat split; try congruence;
    intros Hnot; apply not_elem_of_app in Hnot as [??];
    (etrans; [by auto | by auto]).
Qed.

Lemma set_columns_unchanged env sets r r' :
  set_columns env sets r = inr r' → unchanged_outside sets.*1 r r'.
Proof.
  revert r. induction sets as [|[column v] sets IH]; intros r; simpl.
  - intros [= <-]. apply unchanged_outside_refl.
  - unfold mbind, sum_bind.
    destruct (set_column env column v r) as [|r1] eqn:H1; [done|].
    intros H2. apply (unchanged_outside_app [column] _ r r1 r'); eauto.
    by eapply set_column_unchanged.
Qed.

(** The assignment [updated_at = CURRENT_TIMESTAMP] at the end of the
    list decides the value of the column. *)
Lemma set_columns_updated_at env sets r r' :
  set_columns env (sets ++ [("updated_at", Current_timestamp)]) r = inr r' →
  PatientRow.updated_at r' = CURRENT_TIMESTAMP env.
Proof.
  revert r. induction sets as [|[column v] sets IH]; intros r; simpl.
  - destruct r. simpl. by intros [= <-].
  - unfold mbind, sum_bind.
    destruct (set_column env column v r) as [|r1]; [done|]. apply IH.
Qed.

(** The columns a patch names, by the members of its payload. *)
Lemma patch_columns u :
  let columns := ((update_fields (PatientUpdate.dict_exclude_unset u)).*1)
                 ++ ["updated_at"] in
  ("created_at" ∉ columns)
  ∧ (PatientUpdate.family_name u = None → "family_name" ∉ columns)
  ∧ (PatientUpdate.given_name u = None → "given_name" ∉ columns)
  ∧ (PatientUpdate.gender u = None → "gender" ∉ columns)
  ∧ (PatientUpdate.birthDate u = None → "birth_date" ∉ columns)
  ∧ (PatientUpdate.medical_summary u = None → "medical_summary" ∉ columns).
Proof.
  destruct u as [[f|] [g|] [s|] [b|] [m|]]; simpl;
    repeat split; try done;
    first [ other_column | intros _; other_column ].
Qed.

(** *** What [patch_patient] does to the store *)

Lemma patch_patient_store env db pid u row :
  patients db !! pid = Some row →
  ∃ row',
    patients (patch_patient env pid u db).2 = <[pid := row']> (patients db)
    ∧ observations (patch_patient env pid u db).2 = observations db
    ∧ unchanged_outside
        (((update_fields (PatientUpdate.dict_exclude_unset u)).*1)
         ++ ["updated_at"]) row row'
    ∧ match (patch_patient env pid u db).1 with
      | inl _ => row' = row
      | inr _ => PatientRow.updated_at row' = CURRENT_TIMESTAMP env
      end.
Proof.
  intros Hrow. unfold patch_patient.
  main_transaction db1 Hmain; simpl.
  - exists row. destruct Hinl as (_ & -> & -> & _).
    rewrite insert_id by done.
    repeat split; try done; apply unchanged_outside_refl.
  - destruct Hinr as (_ & c & Hc & ->).
    destruct (log_event_frame env "PATCH" "Patient" pid (work c)) as [-> ->].
    tx_inv Hc.
    all: match goal with
         | H : update_patients _ _ _ _ = inr _ |- _ =>
             unfold update_patients in H; rewrite Hrow in H; run_stmt
         end.
    all: eexists; split; [done|]; split; [done|]; split.
    all: first [ by eapply set_columns_updated_at
               | match goal with
                 | H : set_columns _ _ _ = inr _ |- _ =>
                     apply set_columns_unchanged in H;
                     by rewrite fmap_app in H
                 end ].
Qed.

Lemma patch_gender_other env db pid row :
  patients db !! pid = Some row →
  configured (DATABASE_URL env) = true → main_fault env = NoFault →
  let u := PatientUpdate.mk None None (Some (Some "other")) None None in
  (patch_patient env pid u db).1 = inr "Paciente actualizado parcialmente"
  ∧ patients (patch_patient env pid u db).2 !! pid
    = Some (PatientRow.mk (PatientRow.id row) (PatientRow.family_name row)
              (PatientRow.given_name row) "other" (PatientRow.birth_date row)
              (PatientRow.medical_summary row) (PatientRow.created_at row)
              (CURRENT_TIMESTAMP env)).
Proof.
  intros Hrow Hconf Hfault u. unfold patch_patient, get_db_connection.
  rewrite Hconf, Hfault. run_block. rewrite Hrow. simpl.
  unfold execute, update_patients. simpl. rewrite Hrow.
  destruct row as [i f g s b m c t]. simpl. split; [done|].
  match goal with
  | |- context [log_event ?e ?a ?r ?i ?d] =>
      destruct (log_event_frame e a r i d) as [-> _]
  end.
  simpl. by rewrite lookup_insert_eq.
Qed.

(** C7. A patch of an existing patient leaves the other patients and the
    observations as they were, and in the row of the patient it leaves the
    id, [created_at] and every column whose member the payload does not
    have; [birthDate] is the member of the column [birth_date]. A patch
    that fails leaves the row as it was, one that succeeds sets
    [updated_at]. With the payload [{"gender": "other"}] on a healthy
    engine the patch succeeds and the row differs in [gender] and
    [updated_at] only. *)
Theorem patch_changes_named_columns_only env db pid u row :
  patients db !! pid = Some row →
  ∃ row',
    patients (patch_patient env pid u db).2 !! pid = Some row'
    ∧ (∀ k, k ≠ pid →
            patients (patch_patient env pid u db).2 !! k = patients db !! k)
    ∧ observations (patch_patient env pid u db).2 = observations db
    ∧ PatientRow.id row' = PatientRow.id row
    ∧ PatientRow.created_at row' = PatientRow.created_at row
    ∧ (PatientUpdate.family_name u = None →
       PatientRow.family_name row' = PatientRow.family_name row)
    ∧ (PatientUpdate.given_name u = None →
       PatientRow.given_name row' = PatientRow.given_name row)
    ∧ (PatientUpdate.gender u = None →
       PatientRow.gender row' = PatientRow.gender row)
    ∧ (PatientUpdate.birthDate u = None →
       PatientRow.birth_date row' = PatientRow.birth_date row)
    ∧ (PatientUpdate.medical_summary u = None →
       PatientRow.medical_summary row' = PatientRow.medical_summary row)
    ∧ match (patch_patient env pid u db).1 with
      | inl _ => row' = row
      | inr _ => PatientRow.updated_at row' = CURRENT_TIMESTAMP env
      end
    ∧ (u = PatientUpdate.mk None None (Some (Some "other")) None None →
       configured (DATABASE_URL env) = true → main_fault env = NoFault →
       (patch_patient env pid u db).1 = inr "Paciente actualizado parcialmente"
       ∧ row' = PatientRow.mk (PatientRow.id row) (PatientRow.family_name row)
                  (PatientRow.given_name row) "other"
                  (PatientRow.birth_date row) (PatientRow.medical_summary row)
                  (PatientRow.created_at row) (CURRENT_TIMESTAMP env)).
Proof.
  intros Hrow.
  destruct (patch_patient_store env db pid u row Hrow)
    as (row' & Hp & Ho & Hframe & Hres).
  destruct (patch_columns u) as (Hc & Hf & Hg & Hs & Hb & Hm).
  destruct Hframe as (Hid & Hf' & Hg' & Hs' & Hb' & Hm' & Hc' & _).
  exists row'. rewrite Hp, lookup_insert_eq.
  split; [done|].
  split; [by intros k Hk; rewrite lookup_insert_ne|].
  do 8 (split; [by auto|]).
  split; [done|].
  intros -> Hconf Hfault.
  destruct (patch_gender_other env db pid row Hrow Hconf Hfault) as [H1 H2].
  split; [done|]. rewrite Hp, lookup_insert_eq in H2. by simplify_eq.
Qed.

Lemma patch_changes_named_columns_only_witness :
  ∃ row',
    patients (patch_patient env0 "p1"
                (PatientUpdate.mk None None (Some (Some "other")) None None)
                db_smith).2 !! "p1" = Some row'
    ∧ PatientRow.family_name row' = "Smith"
    ∧ PatientRow.gender row' = "other".
Proof.
  assert (patients db_smith !! "p1" = Some row_smith) as Hrow
    by (vm_compute; reflexivity).
  destruct (patch_changes_named_columns_only env0 db_smith "p1"
              (PatientUpdate.mk None None (Some (Some "other")) None None)
              row_smith Hrow)
    as (row' & Hp & _ & _ & _ & _ & _ & _ & _ & _ & _ & _ & Hother).
  destruct (Hother eq_refl eq_refl eq_refl) as [_ ->].
  exists (PatientRow.mk "p1" "Smith" "John" "other" (mkdate 1980 5 17)
            (Some "asthma") 1793700001 1793700001).
  split; [exact Hp | split; reflexivity].
Defined.

(** *** [NULL] into a column that is [NOT NULL] *)

Lemma set_column_null env column r :
  column ∈ ["family_name"; "given_name"; "gender"; "birth_date"] →
  ∃ pgerror, set_column env column (Param None) r = inl pgerror.
Proof.
  intros Hc. destruct r as [i f g s b m c u]. unfold set_column.
  repeat (apply elem_of_cons in Hc as [?|Hc]; [subst; by eexists|]).
  by apply elem_of_nil in Hc.
Qed.

Lemma set_columns_null env sets column r :
  column ∈ ["family_name"; "given_name"; "gender"; "birth_date"] →
  (column, Param None) ∈ sets →
  ∃ pgerror, set_columns env sets r = inl pgerror.
Proof.
  intros Hc. revert r. induction sets as [|[c v] sets IH]; intros r Hin.
  - by apply elem_of_nil in Hin.
  - cbn [set_columns]. unfold mbind, sum_bind.
    apply elem_of_cons in Hin as [Heq|Hin].
    + injection Heq as <- <-. destruct (set_column_null env column r Hc) as [e ->]. by eexists.
    + destruct (set_column env c v r) as [e|r1]; [by eexists|]. by apply IH.
Qed.

Lemma null_member_assignment u :
  PatientUpdate.family_name u = Some None ∨ PatientUpdate.given_name u = Some None
  ∨ PatientUpdate.gender u = Some None ∨ PatientUpdate.birthDate u = Some None →
  ∃ column,
    column ∈ ["family_name"; "given_name"; "gender"; "birth_date"]
    ∧ (column, Param None)
      ∈ update_fields (PatientUpdate.dict_exclude_unset u).
Proof.
  destruct u as [f g s b m]. simpl.
  intros [-> | [-> | [-> | ->]]];
    [exists "family_name" | exists "given_name" | exists "gender"
    | exists "birth_date"];
    (split; [set_solver|]);
    unfold update_fields, PatientUpdate.dict_exclude_unset; simpl;
    rewrite ?fmap_app; simpl; set_solver.
Qed.

(** The patch of an existing patient with a null for a mandatory column
    ends in the engine's error, whatever else the engine does. *)
Lemma patch_null_member env db pid u row :
  patients db !! pid = Some row →
  configured (DATABASE_URL env) = true →
  PatientUpdate.family_name u = Some None ∨ PatientUpdate.given_name u = Some None
  ∨ PatientUpdate.gender u = Some None ∨ PatientUpdate.birthDate u = Some None →
  ∃ pgerror,
    patch_patient env pid u db
    = (inl (HTTPException 500 ("Error de base de datos: " +:+ pgerror)), db).
Proof.
  intros Hrow Hconf Hnull.
  destruct (null_member_assignment u Hnull) as (column & Hc & Hin).
  assert (update_fields (PatientUpdate.dict_exclude_unset u) ≠ []) as Hne
    by (intros Hnil; rewrite Hnil in Hin; by apply elem_of_nil in Hin).
  destruct (set_columns_null env
              (update_fields (PatientUpdate.dict_exclude_unset u)
               ++ [("updated_at", Current_timestamp)]) column row Hc)
    as [e He]; [apply elem_of_app; by left|].
  unfold patch_patient, get_db_connection. rewrite Hconf. simpl.
  destruct (main_fault env) as [|pg|n pg|pg]; [| by eexists | |].
  all: unfold mbind, Tx_bind, tx_bind, execute, select_patient, raise; simpl.
  all: repeat case_bool_decide; simplify_eq; simpl;
    rewrite ?Hrow; simpl; rewrite ?rollback_same; try by eexists.
  all: repeat case_bool_decide; simplify_eq; simpl;
    rewrite ?rollback_same; try by eexists.
  all: unfold update_patients; rewrite Hrow, He; simpl;
    rewrite ?rollback_same; by eexists.
Qed.

(** C10, as the code has it. The gender rule of a patch lets [null]
    through, and a payload with no gender or a null one is valid whatever
    its other members. When such a valid payload has a null for
    [family_name], [given_name], [gender] or [birthDate] and the patient
    exists, the request is answered 500 with the engine's error, not with
    the field errors of a rejected payload, and the store is as it was. *)
Theorem null_member_fails_in_storage env db pid u row :
  patients db !! pid = Some row →
  configured (DATABASE_URL env) = true →
  PatientUpdate.family_name u = Some None ∨ PatientUpdate.given_name u = Some None
  ∨ PatientUpdate.gender u = Some None ∨ PatientUpdate.birthDate u = Some None →
  PatientUpdate.validate_gender None = inr None
  ∧ (PatientUpdate.gender u = None ∨ PatientUpdate.gender u = Some None →
     PatientUpdate.validate u = inr u)
  ∧ (∀ updates, PatientUpdate.validate u = inr updates →
       ∃ pgerror,
         PATCH_Patient env pid u db
         = (HTTPError 500 ("Error de base de datos: " +:+ pgerror), db)).
Proof.
  intros Hrow Hconf Hnull. split; [done|]. split.
  - unfold PatientUpdate.validate. by intros [-> | ->].
  - intros updates Hvalid. unfold PATCH_Patient. rewrite Hvalid.
    assert (updates = u) as ->
      by (unfold PatientUpdate.validate in Hvalid;
          repeat case_match; by simplify_eq).
    destruct (patch_null_member env db pid u row Hrow Hconf Hnull) as [e ->].
    by exists e.
Qed.

Lemma null_member_fails_in_storage_witness :
  ∃ pgerror,
    PATCH_Patient env0 "p1"
      (PatientUpdate.mk None None (Some None) None None) db_smith
    = (HTTPError 500 ("Error de base de datos: " +:+ pgerror), db_smith).
Proof.
  assert (patients db_smith !! "p1" = Some row_smith) as Hrow
    by (vm_compute; reflexivity).
  destruct (null_member_fails_in_storage env0 db_smith "p1"
              (PatientUpdate.mk None None (Some None) None None) row_smith
              Hrow eq_refl (or_intror (or_intror (or_introl eq_refl))))
    as (_ & _ & Hpatch).
  exact (Hpatch _ eq_refl).
Defined.

(** C10, as it is worded, fails for the one column that may be [NULL]: a
    null [medical_summary] is valid, and it is stored. *)
Lemma null_medical_summary_is_stored :
  let payload := PatientUpdate.mk None None None None (Some None) in
  PatientUpdate.validate payload = inr payload
  ∧ (PATCH_Patient env0 "p1" payload db_smith).1
    = Success "Paciente actualizado parcialmente"
  ∧ PatientRow.medical_summary
      <$> patients (PATCH_Patient env0 "p1" payload db_smith).2 !! "p1"
    = Some None.
Proof. vm_compute. repeat split; reflexivity. Qed.

(** *** Partial payloads *)

(** The model of a patch looks at [gender] only. *)
Lemma patient_update_without_gender u :
  PatientUpdate.gender u = None → PatientUpdate.validate u = inr u.
Proof. unfold PatientUpdate.validate. by intros ->. Qed.

(** C5, as the code has it. The model of a patch has no rule for
    [birthDate] and its gender rule lets the empty string through: a birth
    date that cannot be read, a birth date in the future and an empty
    gender are all valid in a patch, while the validators of the full
    payload reject each of them. The future date is written to the
    patient; the other two are stopped by the engine only, as a 500. *)
Theorem partial_payload_skips_birthdate_rules :
  let malformed := PatientUpdate.mk None None None (Some (Some "13/13/2020")) None in
  let future := PatientUpdate.mk None None None (Some (Some "2999-12-31")) None in
  let no_gender := PatientUpdate.mk None None (Some (Some EmptyString)) None None in
  PatientUpdate.validate malformed = inr malformed
  ∧ PatientUpdate.validate future = inr future
  ∧ PatientUpdate.validate no_gender = inr no_gender
  ∧ Patient.validate_birthdate (fromisoformat env0) (today env0) "13/13/2020"
    = inl "Fecha inválida: Invalid isoformat string: '13/13/2020'"
  ∧ Patient.validate_birthdate (fromisoformat env0) (today env0) "2999-12-31"
    = inl "Fecha inválida: Fecha de nacimiento no puede ser futura"
  ∧ Patient.validate_gender EmptyString
    = inl "Género debe ser 'male', 'female' u 'other'"
  ∧ (PATCH_Patient env0 "p1" future db_smith).1
    = Success "Paciente actualizado parcialmente"
  ∧ PatientRow.birth_date
      <$> patients (PATCH_Patient env0 "p1" future db_smith).2 !! "p1"
    = Some (mkdate 2999 12 31)
  ∧ status_code (PATCH_Patient env0 "p1" malformed db_smith).1 = 500
  ∧ status_code (PATCH_Patient env0 "p1" no_gender db_smith).1 = 500.
Proof. vm_compute. repeat split; reflexivity. Qed.

(** *** [LIKE] against a literal between two [%] *)

Lemma chars_app a b : chars (a +:+ b) = chars a ++ chars b.
Proof. induction a as [|c a IH]; simpl; [done|]. by rewrite IH. Qed.

Lemma like_tokens_plain s rest :
  plain s →
  like_tokens (s ++ rest) = (λ p, (Literal <$> s) ++ p) <$> like_tokens rest.
Proof.
  induction 1 as [|c s (H1 & H2 & H3) _ IH]; simpl.
  - by destruct (like_tokens rest).
  - rewrite !bool_decide_eq_false_2 by done. rewrite IH.
    by destruct (like_tokens rest).
Qed.

Lemma like_match_run p s :
  like_match (AnyRun :: p) s
  = like_match p s
    || match s with [] => false | _ :: s' => like_match (AnyRun :: p) s' end.
Proof. by destruct s. Qed.

Lemma like_match_any_run s : like_match [AnyRun] s = true.
Proof.
  induction s as [|c s IH]; [done|].
  rewrite like_match_run, IH. apply orb_true_r.
Qed.

Lemma like_match_prefix p s :
  like_match ((Literal <$> p) ++ [AnyRun]) s = is_prefix p s.
Proof.
  revert s. induction p as [|c p IH]; intros s.
  - apply like_match_any_run.
  - destruct s as [|c' s]; [done|]. simpl. by rewrite <- IH.
Qed.

Lemma like_match_contains p s :
  like_match (AnyRun :: (Literal <$> p) ++ [AnyRun]) s = contains p s.
Proof.
  induction s as [|c s IH].
  - rewrite like_match_run, like_match_prefix. done.
  - rewrite like_match_run, like_match_prefix, IH. done.
Qed.

(** Between two [%], a plain string is looked for as a substring. *)
Lemma like_plain value s :
  plain (chars s) →
  like value ("%" +:+ s +:+ "%") = inr (contains (chars s) (chars value)).
Proof.
  intros Hs. unfold like.
  change (chars ("%" +:+ s +:+ "%")) with ("%"%char :: chars (s +:+ "%")).
  rewrite chars_app. cbn [like_tokens].
  rewrite bool_decide_eq_true_2 by done.
  rewrite like_tokens_plain by done.
  by rewrite <- (like_match_contains (chars s) (chars value)).
Qed.

(** With two [%] and nothing between, everything matches. *)
Lemma like_everything value : like value "%%" = inr true.
Proof.
  change (@inr string _ (like_match [AnyRun; AnyRun] (chars value)) = inr true).
  by rewrite like_match_run, like_match_any_run.
Qed.

Lemma where_total {A} (f : A → bool) (cond : A → string + bool) rows :
  (∀ r, cond r = inr (f r)) → where_ cond rows = inr (filter f rows).
Proof.
  intros Hcond. induction rows as [|r rows IH]; [done|].
  cbn [where_]. unfold mbind, sum_bind, mret, sum_ret. rewrite Hcond, IH.
  rewrite filter_cons. by destruct (f r).
Qed.

(** *** The order of the search *)

Lemma by_name_total a b : by_name a b = true ∨ by_name b a = true.
Proof.
  unfold by_name.
  rewrite (String.compare_antisym (PatientRow.family_name a)).
  destruct (String.compare (PatientRow.family_name b) (PatientRow.family_name a));
    simpl; auto.
  apply String.leb_total.
Qed.

#[local] Instance by_name_total_rel : Total (λ a b, by_name a b).
Proof.
  intros a b. destruct (by_name_total a b) as [H|H]; rewrite H; [by left|by right].
Qed.

(** For a name without metacharacters the search is the substring search:
    the rows that have it, each once, in the order of the query. *)
Lemma search_plain env db name :
  configured (DATABASE_URL env) = true → main_fault env = NoFault →
  plain (chars (lower name)) →
  ∃ rows,
    search_patients env name db = (inr (resource_of <$> rows), db)
    ∧ Sorted (λ a b, by_name a b) rows
    ∧ rows ≡ₚ filter (λ r, name_has (lower name) r)
                     ((map_to_list (patients db)).*2).
Proof.
  intros Hconf Hfault Hplain.
  exists (merge_sort (λ a b, by_name a b)
            (filter (λ r, name_has (lower name) r)
                    ((map_to_list (patients db)).*2))).
  split; [|split; [apply Sorted_merge_sort; apply _ | apply merge_sort_Permutation]].
  unfold search_patients, get_db_connection. rewrite Hconf, Hfault. simpl.
  unfold execute, select_patients_like. simpl.
  rewrite (where_total (name_has (lower name))).
  - simpl. by destruct db.
  - intros r. unfold mbind, sum_bind, mret, sum_ret.
    by rewrite !like_plain.
Qed.

(** The search does not tell the letter cases of its argument apart. *)
Lemma search_case_insensitive env db name1 name2 :
  lower name1 = lower name2 →
  search_patients env name1 db = search_patients env name2 db.
Proof. unfold search_patients. by intros ->. Qed.

Lemma contains_nil s : contains [] s = true.
Proof. by destruct s. Qed.

(** Every patient has the empty name in it. *)
Lemma search_everything env db :
  configured (DATABASE_URL env) = true → main_fault env = NoFault →
  ∃ rows,
    search_patients env EmptyString db = (inr (resource_of <$> rows), db)
    ∧ Sorted (λ a b, by_name a b) rows
    ∧ rows ≡ₚ (map_to_list (patients db)).*2.
Proof.
  intros Hconf Hfault.
  destruct (search_plain env db EmptyString Hconf Hfault) as (rows & H1 & H2 & H3);
    [by constructor|].
  exists rows. split; [done|]. split; [done|].
  rewrite H3. clear. induction ((map_to_list (patients db)).*2) as [|r l IH];
    [done|].
  rewrite filter_cons_True, IH; [done|].
  unfold name_has. change (chars (lower EmptyString)) with (@nil ascii).
  by rewrite contains_nil.
Qed.

(** C8, as the code has it. The name goes into the [LIKE] pattern as it
    is, so its [_] and [%] are wildcards: Smith is found under either,
    though neither of his names has such a character, and [s_i] finds
    what [smi] finds. *)
Theorem search_reads_name_as_pattern :
  (search_patients env0 "_" db_smith).1
  = inr [PatientResource.mk "p1" "Smith" "John" "male" (mkdate 1980 5 17)
           (Some "asthma")]
  ∧ contains (chars "_") (chars (lower "Smith")) = false
  ∧ contains (chars "_") (chars (lower "John")) = false
  ∧ (search_patients env0 "%" db_smith).1
    = inr [PatientResource.mk "p1" "Smith" "John" "male" (mkdate 1980 5 17)
             (Some "asthma")]
  ∧ contains (chars "%") (chars (lower "Smith")) = false
  ∧ contains (chars "%") (chars (lower "John")) = false
  ∧ (search_patients env0 "s_i" db_smith).1 = (search_patients env0 "smi" db_smith).1.
Proof. vm_compute. repeat split; reflexivity. Qed.

(* ================================================================== *)
(** * Part III. Further properties of the code                         *)
(* ================================================================== *)

(** ** Transactions on a sound server *)

Lemma sound_transaction {A} env (body : Tx A) db :
  sound env →
  get_db_connection env (main_fault env) body db
  = match body (mkconn NoFault db 0) with
    | (inr a, c) => (inr a, work c)
    | (inl (Psycopg2Error pgerror), c) =>
        (inl (HTTPException 500 ("Error de base de datos: " +:+ pgerror)),
         rollback db c)
    | (inl e, c) =>
        (inl (HTTPException 500 ("Error inesperado: " +:+ str e)),
         rollback db c)
    end.
Proof.
  intros [Hconf Hfault]. unfold get_db_connection. rewrite Hconf, Hfault.
  simpl. by destruct (body (mkconn NoFault db 0)) as [[[]|] ?].
Qed.

(** The store itself is a property that survives a rollback. *)
Lemma rollback_closed_same db0 : rollback_closed (λ db, db = db0).
Proof. intros db c -> Hc. unfold rollback. rewrite Hc. by destruct db0. Qed.

Lemma count_patients_preserves P : stmt_preserves P count_patients.
Proof. intros db a db' HP [= <- <-]. done. Qed.

Lemma count_all_observations_preserves P :
  stmt_preserves P count_all_observations.
Proof. intros db a db' HP [= <- <-]. done. Qed.

Lemma count_logs_preserves P : stmt_preserves P count_logs.
Proof. intros db a db' HP [= <- <-]. done. Qed.

Lemma select_patients_page_preserves P limit offset :
  stmt_preserves P (select_patients_page limit offset).
Proof.
  intros db a db' HP. unfold select_patients_page.
  destruct (limit_offset _ _ _); by intros [= <- <-].
Qed.

Lemma select_logs_preserves P limit : stmt_preserves P (select_logs limit).
Proof.
  intros db a db' HP. unfold select_logs.
  destruct (limit_offset _ _ _); by intros [= <- <-].
Qed.

#[local] Hint Resolve count_patients_preserves count_all_observations_preserves
  count_logs_preserves select_patients_page_preserves select_logs_preserves
  rollback_closed_same : tx.

(** X1. The requests that only read leave the store exactly as it was,
    sequence included, whatever the engine does to their transaction. *)
Theorem reading_keeps_the_store env db name pid page size limit :
  (search_patients env name db).2 = db
  ∧ (get_observations env pid db).2 = db
  ∧ (get_patients env page size db).2 = db
  ∧ (get_logs env limit db).2 = db
  ∧ (health_check env db).2 = db.
Proof.
  unfold search_patients, get_observations, get_patients, get_logs,
    health_check.
  repeat split.
  all: match goal with
       | |- context [get_db_connection ?e ?f ?b ?d] =>
           assert ((get_db_connection e f b d).2 = d) as Hsame
             by (apply (get_db_connection_preserves (λ x, x = d));
                 [apply rollback_closed_same | tx_keeps | done]);
           destruct (get_db_connection e f b d) as [[?|?] ?]
       end; simpl in *; try done.
  all: by repeat case_match.
Qed.

(** ** Pages of patients and of the audit trail *)

Lemma limit_offset_window {A} limit offset (rows : list A) :
  0 ≤ limit ≤ 9223372036854775807 → 0 ≤ offset ≤ 9223372036854775807 →
  limit_offset limit offset rows
  = inr (take (Z.to_nat limit) (drop (Z.to_nat offset) rows)).
Proof.
  intros Hl Ho. unfold limit_offset, bigint, mbind, sum_bind.
  rewrite !andb_true_intro by (split; lia).
  destruct (offset <? 0) eqn:?; [lia|]. destruct (limit <? 0) eqn:?; [lia|].
  done.
Qed.

Lemma limit_offset_negative {A} limit offset (rows : list A) :
  limit < 0 ∨ offset < 0 → ∃ pgerror, limit_offset limit offset rows = inl pgerror.
Proof.
  intros Hneg. unfold limit_offset, bigint, mbind, sum_bind.
  destruct ((-9223372036854775808 <=? limit) && _); [|by eexists].
  destruct ((-9223372036854775808 <=? offset) && _); [|by eexists].
  destruct (Z.ltb_spec offset 0); [by eexists|].
  destruct (Z.ltb_spec limit 0); [by eexists|]. lia.
Qed.

#[local] Instance by_created_desc_total : Total (λ a b, by_created_desc a b).
Proof.
  intros a b. unfold by_created_desc.
  destruct (Z.le_ge_cases (PatientRow.created_at b) (PatientRow.created_at a));
    [left|right]; apply Is_true_true; lia.
Qed.

#[local] Instance by_created_desc_trans : Transitive (λ a b, by_created_desc a b).
Proof.
  intros a b c. unfold by_created_desc. rewrite !Is_true_true. lia.
Qed.

#[local] Instance by_timestamp_desc_total : Total (λ a b, by_timestamp_desc a b).
Proof.
  intros a b. unfold by_timestamp_desc.
  destruct (Z.le_ge_cases (LogRow.timestamp b) (LogRow.timestamp a));
    [left|right]; apply Is_true_true; lia.
Qed.

#[local] Instance by_timestamp_desc_trans :
  Transitive (λ a b, by_timestamp_desc a b).
Proof.
  intros a b c. unfold by_timestamp_desc. rewrite !Is_true_true. lia.
Qed.

(** A window of a list, with what is before and after it. *)
Lemma window_split {A} (n o : nat) (l : list A) :
  take o l ++ take n (drop o l) ++ drop n (drop o l) = l.
Proof. by rewrite take_drop, take_drop. Qed.

(** X2. On a sound server, page [page] ≥ 1 of [n] ≥ 0 patients answers the
    number of patients as [total], echoes [page] and [n], and holds the
    [n] patients that follow the first [page - 1] times [n] by creation
    time, newest first: with the rows before and after it the page is the
    whole table in that order, so it has [min n (total - offset)] rows, or
    none when the offset is past the end. *)
Theorem get_patients_page env db page n :
  sound env → 1 ≤ page → 0 ≤ n ≤ 9223372036854775807 →
  (page - 1) * n ≤ 9223372036854775807 →
  ∃ newer rows older,
    (get_patients env page n db).1
    = inr (PatientPage.mk (Z.of_nat (size (patients db))) page n
             (resource_of <$> rows))
    ∧ newer ++ rows ++ older ≡ₚ (map_to_list (patients db)).*2
    ∧ StronglySorted (λ a b, by_created_desc a b) (newer ++ rows ++ older)
    ∧ Z.of_nat (length newer)
      = Z.min ((page - 1) * n) (Z.of_nat (size (patients db)))
    ∧ Z.of_nat (length rows)
      = Z.min n (Z.of_nat (size (patients db)) - Z.of_nat (length newer)).
Proof.
  intros Hsound Hpage Hn Hoff.
  assert (0 ≤ (page - 1) * n) as Hoff0 by nia.
  unfold get_patients. generalize dependent ((page - 1) * n). intros offset ??.
  set (all := merge_sort (λ a b, by_created_desc a b)
                ((map_to_list (patients db)).*2)).
  assert (length all = size (patients db)) as Hlen.
  { unfold all. rewrite merge_sort_Permutation, length_fmap.
    apply length_map_to_list. }
  exists (take (Z.to_nat offset) all),
         (take (Z.to_nat n) (drop (Z.to_nat offset) all)),
         (drop (Z.to_nat n) (drop (Z.to_nat offset) all)).
  rewrite window_split.
  split; [|split; [apply merge_sort_Permutation|split;
    [apply StronglySorted_merge_sort; apply _|]]].
  - rewrite sound_transaction by done.
    unfold mbind, Tx_bind, tx_bind, execute, count_patients,
      select_patients_page. simpl.
    rewrite limit_offset_window by lia. done.
  - split; rewrite ?length_take, ?length_drop, ?length_take, Hlen; lia.
Qed.

Lemma get_patients_page_witness :
  ∃ rows,
    (get_patients env0 1 10 db_smith).1
    = inr (PatientPage.mk 1 1 10 (resource_of <$> rows))
    ∧ length rows = 1%nat.
Proof.
  destruct (get_patients_page env0 db_smith 1 10)
    as (newer & rows & older & Hreply & _ & _ & Hnewer & Hrows);
    [by split | lia | lia | lia |].
  exists rows. split; [exact Hreply|].
  change (size (patients db_smith)) with 1%nat in *. lia.
Defined.

(** X3. A page below the first one, a negative page size and a negative
    limit of the audit listing are the engine's to refuse: the request is
    answered 500 and the store is as it was. Page 0 of size 0 is not such
    a window (its offset is 0). *)
Theorem negative_window_answered_500 env db :
  (∀ page n, n < 0 ∨ (page - 1) * n < 0 →
             answered_500 (get_patients env page n db) db)
  ∧ (∀ limit, limit < 0 → answered_500 (get_logs env limit db) db).
Proof.
  split.
  - intros page n Hneg. unfold answered_500, get_patients, get_db_connection.
    destruct (limit_offset_negative n ((page - 1) * n)
                (merge_sort (λ a b, by_created_desc a b)
                   ((map_to_list (patients db)).*2)) Hneg) as [pg Hpg].
    destruct (configured (DATABASE_URL env)); simpl; [|by eexists].
    destruct (main_fault env) as [|?|k ?|?]; try (by eexists).
    all: unfold mbind, Tx_bind, tx_bind, execute, count_patients,
           select_patients_page; simpl.
    all: repeat (case_bool_decide; simpl; rewrite ?Hpg; simpl);
           rewrite ?Hpg; simpl; rewrite ?rollback_same; by eexists.
  - intros limit Hneg. unfold answered_500, get_logs, get_db_connection.
    destruct (limit_offset_negative limit 0
                (merge_sort (λ a b, by_timestamp_desc a b) (logs db)))
      as [pg Hpg]; [by left|].
    destruct (configured (DATABASE_URL env)); simpl; [|by eexists].
    destruct (main_fault env) as [|?|k ?|?]; try (by eexists).
    all: unfold execute, select_logs; simpl.
    all: repeat (case_bool_decide; simpl; rewrite ?Hpg; simpl);
           rewrite ?Hpg; simpl; rewrite ?rollback_same; by eexists.
Qed.

Lemma negative_window_answered_500_witness :
  answered_500 (get_patients env0 0 10 db_smith) db_smith
  ∧ answered_500 (get_logs env0 (-1) db_smith) db_smith.
Proof.
  destruct (negative_window_answered_500 env0 db_smith) as [Hpage Hlimit].
  split; [apply Hpage; right; lia | apply Hlimit; lia].
Defined.

(** X4. On a sound server, [get_logs] with a limit that is not negative
    answers the [limit] most recent entries, newest first: followed by the
    entries it leaves out they are the whole audit table in the order of
    the time stamps, so there are [min limit (number of entries)] of
    them. *)
Theorem get_logs_most_recent env db limit :
  sound env → 0 ≤ limit ≤ 9223372036854775807 →
  ∃ rows older,
    (get_logs env limit db).1 = inr rows
    ∧ rows ++ older ≡ₚ logs db
    ∧ StronglySorted (λ a b, by_timestamp_desc a b) (rows ++ older)
    ∧ Z.of_nat (length rows) = Z.min limit (Z.of_nat (length (logs db))).
Proof.
  intros Hsound Hlimit.
  set (all := merge_sort (λ a b, by_timestamp_desc a b) (logs db)).
  assert (length all = length (logs db)) as Hlen
    by (unfold all; by rewrite merge_sort_Permutation).
  exists (take (Z.to_nat limit) all), (drop (Z.to_nat limit) all).
  rewrite take_drop.
  split; [|split; [apply merge_sort_Permutation|split;
    [apply StronglySorted_merge_sort; apply _|]]].
  - unfold get_logs. rewrite sound_transaction by done.
    unfold execute, select_logs. simpl.
    rewrite limit_offset_window by lia. done.
  - rewrite length_take, Hlen. lia.
Qed.

Lemma get_logs_most_recent_witness :
  (get_logs env0 5 db_smith).1
  = inr [LogRow.mk 1 1793700000 "CREATE" "Patient" "p1"].
Proof.
  destruct (get_logs_most_recent env0 db_smith 5)
    as (rows & older & Hreply & _); [by split | lia |].
  rewrite Hreply. vm_compute in Hreply. injection Hreply as <-. reflexivity.
Defined.

(** X5. [health_check] reports instead of raising. It is healthy exactly
    when the server is configured and no fault hits its three statements
    or its commit, and then its three counts are the sizes of the three
    tables. *)
Theorem health_check_reports env db :
  let fine :=
    configured (DATABASE_URL env) = true
    ∧ match main_fault env with
      | NoFault => True
      | ExecuteFails k _ => (3 ≤ k)%nat
      | _ => False
      end in
  (fine →
   (health_check env db).1
   = healthy (Z.of_nat (size (patients db)))
       (Z.of_nat (size (observations db))) (Z.of_nat (length (logs db))))
  ∧ (¬ fine → ∃ error, (health_check env db).1 = unhealthy error).
Proof.
  unfold health_check, get_db_connection. simpl.
  destruct (configured (DATABASE_URL env)); simpl; [|split; [by intros []|by eexists]].
  destruct (main_fault env) as [|?|k ?|?]; simpl.
  - split; [done|]. intros []. done.
  - split; [by intros []|by eexists].
  - unfold mbind, Tx_bind, tx_bind, execute, count_patients,
      count_all_observations, count_logs; simpl.
    destruct k as [|[|[|k]]]; simpl.
    1-3: split; [intros [_ ?]; lia | by eexists].
    split; [done|]. intros []. split; [done|lia].
  - split; [by intros []|by eexists].
Qed.

Lemma health_check_reports_witness :
  (health_check env0 db_pulse).1 = healthy 1 1 2.
Proof.
  destruct (health_check_reports env0 db_pulse) as [Hfine _].
  rewrite Hfine; [vm_compute; reflexivity|]. by split.
Defined.

(** ** The observations of a patient *)

#[local] Instance by_date_desc_total : Total (λ a b, by_date_desc a b).
Proof.
  intros a b. unfold by_date_desc, date_ltb.
  destruct a as [? ? ? ? ? ? ? [ya ma da] ca], b as [? ? ? ? ? ? ? [yb mb db] cb].
  simpl. rewrite !Is_true_true. lia.
Qed.

#[local] Instance by_date_desc_trans : Transitive (λ a b, by_date_desc a b).
Proof.
  intros a b c. unfold by_date_desc, date_ltb.
  destruct a as [? ? ? ? ? ? ? [ya ma da] ca], b as [? ? ? ? ? ? ? [yb mb db] cb],
           c as [? ? ? ? ? ? ? [yc mc dc] cc].
  simpl. rewrite !Is_true_true. lia.
Qed.

Lemma filter_values {K A} (P : A → Prop) `{∀ x, Decision (P x)}
    (l : list (K * A)) :
  (filter (λ kv, P kv.2) l).*2 = filter P (l.*2).
Proof.
  induction l as [|[k v] l IH]; [done|].
  rewrite fmap_cons, !filter_cons. cbn [snd].
  destruct (decide (P v)); rewrite ?fmap_cons; cbn [snd]; by rewrite IH.
Qed.

Lemma NoDup_fst_filter {K A} (P : K * A → Prop) `{∀ x, Decision (P x)}
    (l : list (K * A)) :
  NoDup (l.*1) → NoDup ((filter P l).*1).
Proof.
  intros Hl. eapply sublist_NoDup; [exact Hl|].
  apply fmap_sublist, sublist_filter.
Qed.

(** The rows of the observations of a patient. *)
Lemma observations_of_values pid db :
  (map_to_list (observations_of pid db)).*2
  ≡ₚ filter (λ o, ObservationRow.patient_id o = pid)
            ((map_to_list (observations db)).*2).
Proof.
  unfold observations_of. rewrite map_filter_alt.
  rewrite map_to_list_to_map
    by (apply NoDup_fst_filter, NoDup_fst_map_to_list).
  by rewrite <- (filter_values (λ o, ObservationRow.patient_id o = pid)).
Qed.

(** What the listing of observations runs to on a sound server. *)
Lemma get_observations_runs env db pid row :
  sound env → patients db !! pid = Some row →
  get_observations env pid db
  = (inr (merge_sort (λ a b, by_date_desc a b)
            (filter (λ o, ObservationRow.patient_id o = pid)
                    ((map_to_list (observations db)).*2))), db).
Proof.
  intros Hsound Hrow.
  unfold get_observations. rewrite sound_transaction by done.
  unfold mbind, Tx_bind, tx_bind, execute, select_patient. simpl.
  rewrite Hrow. simpl. by destruct db.
Qed.

(** X6. On a sound server the listing of the observations of a patient who
    exists answers every observation of the patient once, the most recent
    date first and, within a date, the last created first. *)
Theorem get_observations_lists env db pid row :
  sound env → patients db !! pid = Some row →
  ∃ rows,
    (get_observations env pid db).1 = inr rows
    ∧ rows ≡ₚ (map_to_list (observations_of pid db)).*2
    ∧ StronglySorted (λ a b, by_date_desc a b) rows.
Proof.
  intros Hsound Hrow.
  rewrite (get_observations_runs env db pid row) by done.
  eexists. split; [reflexivity|]. split.
  - by rewrite merge_sort_Permutation, observations_of_values.
  - apply StronglySorted_merge_sort; apply _.
Qed.

Lemma get_observations_lists_witness :
  ∃ rows,
    (get_observations env0 "p1" db_pulse).1 = inr rows
    ∧ length rows = 1%nat.
Proof.
  assert (patients db_pulse !! "p1" = Some row_smith) as Hrow
    by (vm_compute; reflexivity).
  destruct (get_observations_lists env0 db_pulse "p1" row_smith)
    as (rows & Hreply & Hperm & _); [by split | exact Hrow |].
  exists rows. split; [exact Hreply|].
  rewrite Hperm. vm_compute. reflexivity.
Defined.

(** ** Writing patients and observations *)

Lemma gender_check_fits s :
  s ∈ ["male"; "female"; "other"] →
  varchar 10 s = inr s ∧ gender_check s = inr s.
Proof.
  intros Hs. split.
  - apply varchar_fits.
    repeat (apply elem_of_cons in Hs as [->|Hs]; [simpl; lia|]).
    by apply elem_of_nil in Hs.
  - unfold gender_check. by rewrite bool_decide_eq_true_2.
Qed.

(** A closed instance of the conditions on a payload, by evaluation. *)
Ltac by_decide :=
  unfold patient_fits, observation_fits, key_fits, pg_text, isascii;
  apply (bool_decide_unpack _); vm_compute; exact I.

(** The audit never touches the other two tables. *)
Ltac after_log :=
  repeat match goal with
    | |- context [log_event ?e ?a ?r ?i ?d] =>
        let H1 := fresh in let H2 := fresh in
        destruct (log_event_frame e a r i d) as [H1 H2];
        rewrite ?H1, ?H2; clear H1 H2
    end.

(** What a creation on a sound server runs to: the reply, and the audit
    on the store with the new row. *)
Lemma create_patient_runs env db p birth :
  sound env → patient_fits p →
  key_fits (Patient.id p) →
  date_in env (Patient.birthDate p) = Some birth →
  patients db !! Patient.id p = None →
  create_patient env p db
  = (inr ("Paciente creado correctamente", Patient.id p),
     log_event env "CREATE" "Patient" (Patient.id p)
       (mkDB (<[Patient.id p := row_of env (Patient.id p) p birth
                                   (CURRENT_TIMESTAMP env)]> (patients db))
             (observations db) (logs db) (logs_id_seq db))).
Proof.
  intros Hsound (Hf & Hg & Hs & _) [Hid _] Hbirth Hnew.
  destruct (gender_check_fits _ Hs) as [Hs1 Hs2].
  unfold create_patient. rewrite sound_transaction by done.
  unfold mbind, Tx_bind, tx_bind, execute, select_patient. simpl.
  rewrite Hnew. unfold insert_patient, to_date, mbind, sum_bind.
  repeat (first [ rewrite varchar_fits by done | rewrite Hs1 | rewrite Hs2
                | rewrite Hbirth | rewrite Hnew ]; cbv beta iota).
  simpl. rewrite ?Hnew. unfold mret, sum_ret. simpl. done.
Qed.

(** X7. On a sound server a patient whose id is new and whose values fit
    the columns is created: the reply carries the id, and the store has
    under that id a row with exactly the values of the payload, the date
    the engine read, and both time stamps at the time of the transaction;
    the other patients and the observations are as they were. *)
Theorem create_patient_stores env db p birth :
  sound env → patient_fits p →
  key_fits (Patient.id p) →
  date_in env (Patient.birthDate p) = Some birth →
  patients db !! Patient.id p = None →
  (create_patient env p db).1
  = inr ("Paciente creado correctamente", Patient.id p)
  ∧ patients (create_patient env p db).2
    = <[Patient.id p := row_of env (Patient.id p) p birth (CURRENT_TIMESTAMP env)]>
        (patients db)
  ∧ observations (create_patient env p db).2 = observations db.
Proof.
  intros Hsound Hfits Hid Hbirth Hnew.
  rewrite (create_patient_runs env db p birth) by done.
  cbn [fst snd]. after_log. done.
Qed.

Lemma create_patient_stores_witness :
  patients (create_patient env0 smith empty_db).2 !! "p1" = Some row_smith.
Proof.
  destruct (create_patient_stores env0 empty_db smith (mkdate 1980 5 17))
    as (_ & Hp & _).
  - by split.
  - by_decide.
  - by_decide.
  - reflexivity.
  - reflexivity.
  - rewrite Hp. apply lookup_insert_eq.
Defined.

(** What a full update on a sound server runs to. *)
Lemma update_patient_runs env db pid p row birth :
  sound env → patient_fits p →
  date_in env (Patient.birthDate p) = Some birth →
  patients db !! pid = Some row →
  update_patient env pid p db
  = (inr "Paciente actualizado completamente",
     log_event env "PUT" "Patient" pid
       (mkDB (<[pid := row_of env (PatientRow.id row) p birth
                         (PatientRow.created_at row)]> (patients db))
             (observations db) (logs db) (logs_id_seq db))).
Proof.
  intros Hsound (Hf & Hg & Hs & _) Hbirth Hrow.
  destruct (gender_check_fits _ Hs) as [Hs1 Hs2].
  unfold update_patient. rewrite sound_transaction by done.
  unfold mbind, Tx_bind, tx_bind, execute, select_patient. simpl.
  rewrite Hrow. simpl. unfold update_patients. rewrite Hrow.
  destruct row as [i f g s b m c u].
  cbn [set_columns set_column bool_decide decide_rel]. simpl.
  unfold not_null, to_date, mbind, sum_bind.
  repeat (first [ rewrite varchar_fits by done | rewrite Hs1 | rewrite Hs2
                | rewrite Hbirth
                | progress unfold not_null, to_date, mbind, sum_bind, mret, sum_ret ];
          cbv beta iota; simpl).
  done.
Qed.

(** X8. On a sound server the full update of a patient who exists, with
    values that fit the columns, replaces the five columns of the payload,
    keeps the id under which the patient is stored (the id of the payload
    is not looked at) and [created_at], and sets [updated_at]; the other
    patients and the observations are as they were. *)
Theorem update_patient_replaces env db pid p row birth :
  sound env → patient_fits p →
  date_in env (Patient.birthDate p) = Some birth →
  patients db !! pid = Some row →
  (update_patient env pid p db).1 = inr "Paciente actualizado completamente"
  ∧ patients (update_patient env pid p db).2
    = <[pid := row_of env (PatientRow.id row) p birth (PatientRow.created_at row)]>
        (patients db)
  ∧ observations (update_patient env pid p db).2 = observations db.
Proof.
  intros Hsound Hfits Hbirth Hrow.
  rewrite (update_patient_runs env db pid p row birth) by done.
  cbn [fst snd]. after_log. done.
Qed.

Lemma update_patient_replaces_witness :
  patients (update_patient env0 "p1"
              (Patient.mk "other-id" "Smith" "Jane" "female" "1981-06-18"
                 "none") db_smith).2 !! "p1"
  = Some (PatientRow.mk "p1" "Smith" "Jane" "female" (mkdate 1981 6 18)
            (Some "none") 1793700001 1793700001).
Proof.
  destruct (update_patient_replaces env0 db_smith "p1"
              (Patient.mk "other-id" "Smith" "Jane" "female" "1981-06-18"
                 "none") row_smith (mkdate 1981 6 18))
    as (_ & Hp & _).
  - by split.
  - by_decide.
  - reflexivity.
  - vm_compute. reflexivity.
  - rewrite Hp. apply lookup_insert_eq.
Defined.

(** What the creation of an observation on a sound server commits. *)
Lemma create_observation_committed env db o row d :
  sound env → observation_fits o →
  (length (chars (uuid4 env)) ≤ 50)%nat →
  (length (chars (Observation.patient_id o)) ≤ 50)%nat →
  date_in env (Observation.date o) = Some d →
  patients db !! Observation.patient_id o = Some row →
  observations db !! uuid4 env = None →
  (create_observation env o db).1
  = inr ("Observación registrada correctamente", uuid4 env)
  ∧ observations (create_observation env o db).2
    = <[uuid4 env := observation_row_of env o d]> (observations db)
  ∧ patients (create_observation env o db).2 = patients db.
Proof.
  intros Hsound (Hc & Hk & Hd & Hu & _) Hid Hpid Hdate Hrow Hnew.
  unfold create_observation. rewrite sound_transaction by done.
  unfold mbind, Tx_bind, tx_bind, execute, select_patient. simpl.
  rewrite Hrow. simpl. unfold insert_observation, to_date, mbind, sum_bind.
  repeat (first [ rewrite varchar_fits by done | rewrite Hdate ];
          cbv beta iota).
  rewrite Hnew, Hrow. unfold mret, sum_ret. simpl. after_log. done.
Qed.

(** X9. On a sound server an observation for a patient of a reachable
    store, with values that fit the columns and a fresh identifier, is
    stored under that identifier with the values of the payload; the
    reply carries the identifier, and the patients and the other
    observations are as they were. *)
Theorem create_observation_stores env db o row d :
  sound env → reachable db → observation_fits o →
  length (chars (uuid4 env)) = 36%nat →
  date_in env (Observation.date o) = Some d →
  patients db !! Observation.patient_id o = Some row →
  observations db !! uuid4 env = None →
  (create_observation env o db).1
  = inr ("Observación registrada correctamente", uuid4 env)
  ∧ observations (create_observation env o db).2
    = <[uuid4 env := observation_row_of env o d]> (observations db)
  ∧ patients (create_observation env o db).2 = patients db.
Proof.
  intros Hsound Hreach Hfits Huuid Hdate Hrow Hnew.
  eapply create_observation_committed; try done; [lia|].
  eapply reachable_key_lengths; done.
Qed.

Lemma create_observation_stores_witness :
  observations (create_observation env0 pulse db_smith).2
    !! "6f1e2d3c-0000-4000-8000-000000000001"
  = Some (ObservationRow.mk "6f1e2d3c-0000-4000-8000-000000000001" "p1"
            "vital-signs" "8867-4" "Heart rate" 72 "bpm" (mkdate 2026 11 1)
            1793700001).
Proof.
  destruct (create_observation_stores env0 db_smith pulse row_smith
              (mkdate 2026 11 1)) as (_ & Ho & _).
  - by split.
  - apply (reachable_handle env0 (CreatePatient smith)), reachable_empty.
  - by_decide.
  - reflexivity.
  - reflexivity.
  - vm_compute. reflexivity.
  - reflexivity.
  - rewrite Ho. apply lookup_insert_eq.
Defined.

(** ** What a creation never does *)

Lemma insert_patient_keeps_row env p k r :
  stmt_preserves (λ db, patients db !! k = Some r) (insert_patient env p).
Proof.
  intros db a db' HP. unfold insert_patient. intros H. run_stmt.
  rewrite lookup_insert_ne; [done|]. intros ->. congruence.
Qed.

Lemma insert_patient_keeps_observations env p obs :
  stmt_preserves (λ db, observations db = obs) (insert_patient env p).
Proof. intros db a db' HP. unfold insert_patient. intros H. run_stmt. Qed.

Lemma insert_observation_keeps_row env i o k r :
  stmt_preserves (λ db, observations db !! k = Some r)
    (insert_observation env i o).
Proof.
  intros db a db' HP. unfold insert_observation. intros H. run_stmt.
  rewrite lookup_insert_ne; [done|]. intros ->. congruence.
Qed.

Lemma insert_observation_keeps_patients env i o ps :
  stmt_preserves (λ db, patients db = ps) (insert_observation env i o).
Proof. intros db a db' HP. unfold insert_observation. intros H. run_stmt. Qed.

(** A property of the patients and observations alone survives a rollback
    and the audit. *)
Lemma rollback_closed_tables (P : DB → Prop) :
  (∀ db db', patients db' = patients db → observations db' = observations db →
             P db → P db') →
  rollback_closed P.
Proof. intros Hext db c H _. by apply (Hext db). Qed.

(** X10. Creating never overwrites, whatever the engine does: after
    [create_patient] every patient that was stored is stored with the same
    row and the observations are the same, and after [create_observation]
    the patients are the same and every observation that was stored is
    stored with the same row. *)
Theorem creation_keeps_what_is_stored env db :
  (∀ p k r, patients db !! k = Some r →
            patients (create_patient env p db).2 !! k = Some r)
  ∧ (∀ p, observations (create_patient env p db).2 = observations db)
  ∧ (∀ o, patients (create_observation env o db).2 = patients db)
  ∧ (∀ o k r, observations db !! k = Some r →
              observations (create_observation env o db).2 !! k = Some r).
Proof.
  repeat split.
  - intros p k r Hk. unfold create_patient.
    match goal with
    | |- context [get_db_connection ?e ?f ?b ?d] =>
        assert (patients (get_db_connection e f b d).2 !! k = Some r) as Hmain
          by (apply (get_db_connection_preserves (λ x, patients x !! k = Some r));
              [ by apply rollback_closed_tables; intros ?? -> _
              | tx_keeps; apply tx_preserves_execute, insert_patient_keeps_row
              | done ]);
        destruct (get_db_connection e f b d) as [[?|?] db1]
    end; simpl in *; [done|]. after_log. done.
  - intros p. unfold create_patient.
    match goal with
    | |- context [get_db_connection ?e ?f ?b ?d] =>
        assert (observations (get_db_connection e f b d).2 = observations db)
          as Hmain
          by (apply (get_db_connection_preserves
                       (λ x, observations x = observations db));
              [ by apply rollback_closed_tables; intros ?? _ ->
              | tx_keeps; apply tx_preserves_execute,
                  insert_patient_keeps_observations
              | done ]);
        destruct (get_db_connection e f b d) as [[?|?] db1]
    end; simpl in *; [done|]. after_log. done.
  - intros o. unfold create_observation.
    match goal with
    | |- context [get_db_connection ?e ?f ?b ?d] =>
        assert (patients (get_db_connection e f b d).2 = patients db) as Hmain
          by (apply (get_db_connection_preserves
                       (λ x, patients x = patients db));
              [ by apply rollback_closed_tables; intros ?? -> _
              | tx_keeps; apply tx_preserves_execute,
                  insert_observation_keeps_patients
              | done ]);
        destruct (get_db_connection e f b d) as [[?|?] db1]
    end; simpl in *; [done|]. after_log. done.
  - intros o k r Hk. unfold create_observation.
    match goal with
    | |- context [get_db_connection ?e ?f ?b ?d] =>
        assert (observations (get_db_connection e f b d).2 !! k = Some r)
          as Hmain
          by (apply (get_db_connection_preserves
                       (λ x, observations x !! k = Some r));
              [ by apply rollback_closed_tables; intros ?? _ ->
              | tx_keeps; apply tx_preserves_execute,
                  insert_observation_keeps_row
              | done ]);
        destruct (get_db_connection e f b d) as [[?|?] db1]
    end; simpl in *; [done|]. after_log. done.
Qed.

Lemma creation_keeps_what_is_stored_witness :
  patients (create_patient env0 smith db_smith).2 !! "p1" = Some row_smith.
Proof.
  destruct (creation_keeps_what_is_stored env0 db_smith) as [Hkeep _].
  apply Hkeep. apply db_smith_row.
Defined.

(** ** Values the models let through and the columns do not take *)

Lemma varchar_overlong n s : overlong n s → ∃ e, varchar n s = inl e.
Proof.
  intros (_ & c & Hc & Hne). unfold varchar.
  rewrite bool_decide_eq_false_2.
  2: { intros Hlen. rewrite drop_ge in Hc by done. by apply elem_of_nil in Hc. }
  destruct (forallb _ _) eqn:Hall; [|by eexists].
  rewrite forallb_forall in Hall.
  apply list_elem_of_In, Hall, bool_decide_eq_true in Hc. done.
Qed.

Lemma insert_patient_overlong env p db :
  overlong 100 (Patient.family_name p) ∨ overlong 100 (Patient.given_name p) →
  ∃ e, insert_patient env p db = inl e.
Proof.
  intros [H|H]; apply (varchar_overlong 100) in H as [e He];
    unfold insert_patient, mbind, sum_bind; rewrite ?He;
    repeat (case_match; try by eexists).
Qed.

Lemma set_column_overlong env column x r e :
  column = "family_name" ∨ column = "given_name" →
  varchar 100 x = inl e →
  set_column env column (Param (Some x)) r = inl e.
Proof.
  intros Hc He. destruct r.
  destruct Hc as [-> | ->]; simpl; unfold mbind, sum_bind; by rewrite He.
Qed.

Lemma update_patients_overlong env p pid db row :
  overlong 100 (Patient.family_name p) ∨ overlong 100 (Patient.given_name p) →
  patients db !! pid = Some row →
  ∃ e, update_patients env
         [("family_name", Param (Some (Patient.family_name p)));
          ("given_name", Param (Some (Patient.given_name p)));
          ("gender", Param (Some (Patient.gender p)));
          ("birth_date", Param (Some (Patient.birthDate p)));
          ("medical_summary", Param (Some (Patient.medical_summary p)));
          ("updated_at", Current_timestamp)] pid db = inl e.
Proof.
  intros Hlong Hrow. unfold update_patients. rewrite Hrow.
  cbn [set_columns]. unfold mbind at 1. unfold sum_bind at 1.
  destruct Hlong as [H|H]; apply (varchar_overlong 100) in H as [e He].
  - unfold mbind at 1. unfold sum_bind at 1.
    rewrite (set_column_overlong _ _ _ _ e) by auto. by eexists.
  - unfold mbind at 1. unfold sum_bind at 1.
    destruct (set_column env "family_name" _ row) as [?|r1]; [by eexists|].
    unfold mbind at 1. unfold sum_bind at 1.
    rewrite (set_column_overlong _ _ _ _ e) by auto. by eexists.
Qed.

(** A block whose statement fails after the look-up commits nothing. *)
Lemma failing_insert {A} env f db pid (ex : exn) (s : statement A) e :
  s db = inl e →
  ∃ detail,
    get_db_connection env f
      (found ← execute (select_patient pid);
       if found is Some _ then raise ex else execute s) db
    = (inl (HTTPException 500 detail), db).
Proof.
  intros Hs. unfold get_db_connection.
  destruct (configured (DATABASE_URL env)); simpl; [|by eexists].
  destruct f; try (by eexists);
    unfold mbind, Tx_bind, tx_bind, execute, select_patient, raise; simpl;
    repeat case_bool_decide; simpl; rewrite ?rollback_same; try (by eexists);
    destruct (patients db !! pid); simpl; repeat case_bool_decide; simpl;
    rewrite ?Hs; simpl; rewrite ?rollback_same; try destruct ex; by eexists.
Qed.

Lemma failing_update {A} env f db pid (ex : exn) (s : statement A) e :
  s db = inl e →
  ∃ detail,
    get_db_connection env f
      (found ← execute (select_patient pid);
       if found is None then raise ex else execute s) db
    = (inl (HTTPException 500 detail), db).
Proof.
  intros Hs. unfold get_db_connection.
  destruct (configured (DATABASE_URL env)); simpl; [|by eexists].
  destruct f; try (by eexists);
    unfold mbind, Tx_bind, tx_bind, execute, select_patient, raise; simpl;
    repeat case_bool_decide; simpl; rewrite ?rollback_same; try (by eexists);
    destruct (patients db !! pid); simpl; repeat case_bool_decide; simpl;
    rewrite ?Hs; simpl; rewrite ?rollback_same; try destruct ex; by eexists.
Qed.

Lemma create_patient_overlong env p db :
  overlong 100 (Patient.family_name p) ∨ overlong 100 (Patient.given_name p) →
  answered_500 (create_patient env p db) db.
Proof.
  intros Hlong. destruct (insert_patient_overlong env p db Hlong) as [e He].
  unfold answered_500, create_patient.
  edestruct (failing_insert (A:=()) env (main_fault env) db (Patient.id p))
    as [d ->]; [exact He|]. by eexists.
Qed.

Lemma update_patient_overlong env pid p db :
  overlong 100 (Patient.family_name p) ∨ overlong 100 (Patient.given_name p) →
  answered_500 (update_patient env pid p db) db.
Proof.
  intros Hlong. unfold answered_500, update_patient.
  destruct (patients db !! pid) as [row|] eqn:Hrow.
  - destruct (update_patients_overlong env p pid db row Hlong Hrow) as [e He].
    edestruct (failing_update (A:=()) env (main_fault env) db pid) as [d ->];
      [exact He|]. by eexists.
  - edestruct (absent_raises (A:=()) env (main_fault env) db) as [d ->];
      [done|]. by eexists.
Qed.

(** X11. Neither model bounds the length of a name, and the columns take
    100 characters: a payload that the validation accepts and whose family
    or given name is ASCII text longer than that (not counting spaces at
    the end) is answered 500 by [POST /fhir/Patient] and by
    [PUT /fhir/Patient/{id}], not 422, and the store is as it was. *)
Theorem overlong_name_answered_500 env db payload p :
  Patient.validate (fromisoformat env) (today env) payload = inr p →
  overlong 100 (Patient.family_name p) ∨ overlong 100 (Patient.given_name p) →
  (∃ detail, POST_Patient env payload db = (HTTPError 500 detail, db))
  ∧ (∀ pid, ∃ detail,
       PUT_Patient env pid payload db = (HTTPError 500 detail, db)).
Proof.
  intros Hvalid Hlong. split; [|intros pid].
  - unfold POST_Patient. rewrite Hvalid.
    destruct (create_patient_overlong env p db Hlong) as [d ->]. by eexists.
  - unfold PUT_Patient. rewrite Hvalid.
    destruct (update_patient_overlong env pid p db Hlong) as [d ->].
    by eexists.
Qed.

Lemma overlong_name_answered_500_witness :
  Patient.validate (fromisoformat env0) (today env0) hubert
  = inr (Patient.mk "p2"
           "Wolfeschlegelsteinhausenbergerdorffwelchevoralternwarengewissenhaftschaferswessenschafewarenwohlgepflege"
           "Hubert" "male" "1914-08-04" "none")
  ∧ status_code (POST_Patient env0 hubert db_smith).1 = 500.
Proof.
  assert (Patient.validate (fromisoformat env0) (today env0) hubert
          = inr (Patient.mk "p2"
                   "Wolfeschlegelsteinhausenbergerdorffwelchevoralternwarengewissenhaftschaferswessenschafewarenwohlgepflege"
                   "Hubert" "male" "1914-08-04" "none")) as Hvalid
    by (vm_compute; reflexivity).
  split; [exact Hvalid|].
  destruct (overlong_name_answered_500 env0 db_smith hubert _ Hvalid)
    as [[detail Hpost] _].
  - left. split.
    + apply (bool_decide_unpack _). vm_compute. exact I.
    + exists "l"%char. split; [|done]. vm_compute. apply list_elem_of_here.
  - rewrite Hpost. reflexivity.
Defined.

(** ** One request after the other *)

(** What a delete on a sound server commits. *)
Lemma delete_patient_committed env db pid row :
  sound env → patients db !! pid = Some row →
  (delete_patient env pid db).1
  = inr ("Paciente '" +:+ pid +:+ "' eliminado",
         Z.of_nat (size (observations_of pid db)))
  ∧ patients (delete_patient env pid db).2 = delete pid (patients db)
  ∧ observations (delete_patient env pid db).2
    = filter (λ kv, ObservationRow.patient_id kv.2 ≠ pid) (observations db).
Proof.
  intros Hsound Hrow. unfold delete_patient.
  rewrite sound_transaction by done.
  unfold mbind, Tx_bind, tx_bind, execute, select_patient. simpl.
  rewrite Hrow. simpl. after_log. done.
Qed.

(** X12. A patient who was just created has no observations, and deleting
    it undoes the creation: on a reachable store and sound servers, the
    delete answers that it removed 0 observations, and the patients and
    the observations are those from before the creation. *)
Theorem create_then_delete env env' db p birth :
  sound env → sound env' → reachable db → patient_fits p →
  key_fits (Patient.id p) →
  date_in env (Patient.birthDate p) = Some birth →
  patients db !! Patient.id p = None →
  let db1 := (create_patient env p db).2 in
  (delete_patient env' (Patient.id p) db1).1
  = inr ("Paciente '" +:+ Patient.id p +:+ "' eliminado", 0)
  ∧ patients (delete_patient env' (Patient.id p) db1).2 = patients db
  ∧ observations (delete_patient env' (Patient.id p) db1).2 = observations db.
Proof.
  intros Hsound Hsound' Hreach Hfits Hid Hbirth Hnew db1.
  assert (patients db1
          = <[Patient.id p := row_of env (Patient.id p) p birth
                                (CURRENT_TIMESTAMP env)]> (patients db)
          ∧ observations db1 = observations db) as [Hp Ho].
  { unfold db1. rewrite (create_patient_runs env db p birth) by done.
    cbn [snd]. after_log. done. }
  assert (∀ i o, observations db !! i = Some o
                 → ObservationRow.patient_id o ≠ Patient.id p) as Hother.
  { intros i o Hio Heq. apply reachable_no_orphans in Hreach.
    destruct (Hreach i o Hio) as [r Hr]. congruence. }
  edestruct (delete_patient_committed env' db1 (Patient.id p))
    as (Hreply & Hp' & Ho'); [done | by rewrite Hp, lookup_insert_eq |].
  rewrite Hreply, Hp', Ho', Hp, Ho.
  split; [|split].
  - assert (observations_of (Patient.id p) db1 = ∅) as ->; [|done].
    unfold observations_of. rewrite Ho. apply map_empty. intros i.
    apply map_lookup_filter_None.
    destruct (observations db !! i) as [o|] eqn:Hio; [right|by left].
    intros o' [= <-] Heq. by eapply Hother.
  - by apply delete_insert_id.
  - apply map_filter_id. intros i o Hio. by eapply Hother.
Qed.

Lemma create_then_delete_witness :
  patients (delete_patient env0 "p1" db_smith).2 = ∅.
Proof.
  destruct (create_then_delete env0 env0 empty_db smith (mkdate 1980 5 17))
    as (_ & Hp & _).
  - by split.
  - by split.
  - apply reachable_empty.
  - by_decide.
  - by_decide.
  - reflexivity.
  - reflexivity.
  - exact Hp.
Defined.

(** X13. A full update is idempotent on the two tables: on sound servers,
    repeating the update of an existing patient with the same payload
    leaves the patients and observations that the second update alone
    would have left. *)
Theorem update_patient_twice env env' db pid p row birth birth' :
  sound env → sound env' → patient_fits p →
  date_in env (Patient.birthDate p) = Some birth →
  date_in env' (Patient.birthDate p) = Some birth' →
  patients db !! pid = Some row →
  let db1 := (update_patient env pid p db).2 in
  (update_patient env' pid p db1).1
  = inr "Paciente actualizado completamente"
  ∧ patients (update_patient env' pid p db1).2
    = patients (update_patient env' pid p db).2
  ∧ observations (update_patient env' pid p db1).2
    = observations (update_patient env' pid p db).2.
Proof.
  intros Hsound Hsound' Hfits Hbirth Hbirth' Hrow db1.
  assert (patients db1
          = <[pid := row_of env (PatientRow.id row) p birth
                       (PatientRow.created_at row)]> (patients db)
          ∧ observations db1 = observations db) as [Hp Ho].
  { unfold db1. rewrite (update_patient_runs env db pid p row birth) by done.
    cbn [snd]. after_log. done. }
  rewrite (update_patient_runs env' db pid p row birth') by done.
  rewrite (update_patient_runs env' db1 pid p
             (row_of env (PatientRow.id row) p birth
                (PatientRow.created_at row)) birth');
    [|done..|by rewrite Hp, lookup_insert_eq].
  cbn [fst snd]. after_log. rewrite Hp, Ho.
  split; [done|]. split; [|done]. by rewrite insert_insert_eq.
Qed.

Lemma update_patient_twice_witness :
  patients (update_patient env0 "p1" smith
              (update_patient env0 "p1" smith db_smith).2).2
  = patients (update_patient env0 "p1" smith db_smith).2.
Proof.
  destruct (update_patient_twice env0 env0 db_smith "p1" smith row_smith
              (mkdate 1980 5 17) (mkdate 1980 5 17)) as (_ & Hp & _).
  - by split.
  - by split.
  - by_decide.
  - reflexivity.
  - reflexivity.
  - vm_compute. reflexivity.
  - exact Hp.
Defined.

(** ** The constraints of the tables *)

Lemma gender_check_inr s s' :
  gender_check s = inr s' → s' ∈ ["male"; "female"; "other"].
Proof. unfold gender_check. intros H. by case_bool_decide; simplify_eq. Qed.

Lemma set_column_holds env k column v r r' :
  patient_row_holds k r → set_column env column v r = inr r' →
  patient_row_holds k r'.
Proof.
  intros (Hid & Hs). destruct r as [i f g s b m c u].
  unfold set_column. intros H. simpl in *. run_stmt.
  all: repeat split; simpl;
    eauto using varchar_length, gender_check_inr.
Qed.

Lemma set_columns_holds env k sets r r' :
  patient_row_holds k r → set_columns env sets r = inr r' →
  patient_row_holds k r'.
Proof.
  revert r. induction sets as [|[column v] sets IH]; intros r Hr H.
  - by injection H as <-.
  - cbn [set_columns] in H. unfold mbind, sum_bind in H.
    destruct (set_column env column v r) as [|r1] eqn:H1; [done|].
    eapply IH; [|exact H]. by eapply set_column_holds.
Qed.

Lemma insert_patient_constraints env p :
  stmt_preserves constraints_hold (insert_patient env p).
Proof.
  intros db a db' [HP HO]. unfold insert_patient. intros H. run_stmt.
  split; [|done]. intros k r Hk. simpl in *.
  apply lookup_insert_Some in Hk as [[<- <-]|[? Hk]]; [|by apply HP].
  repeat split; simpl; eauto using varchar_length, gender_check_inr.
Qed.

Lemma update_patients_constraints env sets pid :
  stmt_preserves constraints_hold (update_patients env sets pid).
Proof.
  intros db a db' [HP HO]. unfold update_patients. intros H. run_stmt.
  split; [|done]. intros k r Hk. simpl in *.
  apply lookup_insert_Some in Hk as [[<- <-]|[? Hk]]; [|by apply HP].
  eapply set_columns_holds; [|done]. by apply HP.
Qed.

Lemma delete_patient_row_constraints pid :
  stmt_preserves constraints_hold (delete_patient_row pid).
Proof.
  intros db a db' [HP HO] [= <- <-]. split; simpl.
  - intros k r Hk. apply lookup_delete_Some in Hk as [? Hk]. by apply HP.
  - intros k o Hk. apply map_lookup_filter_Some in Hk as [Hk _]. by apply HO.
Qed.

Lemma insert_observation_constraints env i o :
  stmt_preserves constraints_hold (insert_observation env i o).
Proof.
  intros db a db' [HP HO]. unfold insert_observation. intros H. run_stmt.
  split; [done|]. intros k r Hk. simpl in *.
  apply lookup_insert_Some in Hk as [[<- <-]|[? Hk]]; [|by apply HO].
  repeat split; simpl; eauto using varchar_length.
Qed.

Lemma constraints_hold_ext db db' :
  patients db' = patients db → observations db' = observations db →
  constraints_hold db → constraints_hold db'.
Proof. unfold constraints_hold. intros -> ->. done. Qed.

Lemma rollback_closed_constraints : rollback_closed constraints_hold.
Proof. intros db c H _. exact H. Qed.

#[local] Hint Resolve insert_patient_constraints update_patients_constraints
  delete_patient_row_constraints insert_observation_constraints
  rollback_closed_constraints : tx.

Lemma handle_constraints env rq db :
  constraints_hold db → constraints_hold (handle env rq db).
Proof.
  intros Hdb. unfold handle.
  destruct rq; cbn [serve]; unfold outcome;
    [ unfold create_patient | unfold update_patient | unfold patch_patient
    | unfold delete_patient | unfold create_observation ].
  all: match goal with
       | |- context [get_db_connection ?e ?f ?b ?d] =>
           assert (constraints_hold (get_db_connection e f b d).2) as Hmain
             by (apply get_db_connection_preserves;
                 [apply rollback_closed_constraints | tx_keeps | done]);
           destruct (get_db_connection e f b d) as [[?|?] db1]
       end; simpl in *; try done.
  all: eapply constraints_hold_ext; [apply log_event_frame..|done].
Qed.

(** X14. Whatever requests were served, under whatever environments and
    faults, every stored row is stored under its own id, and the gender
    of every stored patient is one of [male], [female] and [other],
    though [PatientUpdate] lets the empty string through. *)
Theorem stored_rows_meet_constraints db :
  reachable db → constraints_hold db.
Proof.
  induction 1 as [|env rq db _ IH]; [|by apply handle_constraints].
  split; intros k r Hk; cbn in Hk; by rewrite lookup_empty in Hk.
Qed.

Lemma stored_rows_meet_constraints_witness : constraints_hold db_pulse.
Proof.
  apply stored_rows_meet_constraints.
  apply (reachable_handle env0 (CreateObservation pulse)).
  apply (reachable_handle env0 (CreatePatient smith)).
  apply reachable_empty.
Defined.

(** ** What was created is found *)

Lemma is_prefix_refl s : is_prefix s s = true.
Proof. induction s as [|a s IH]; [done|]. simpl. by rewrite bool_decide_eq_true_2. Qed.

Lemma contains_refl s : contains s s = true.
Proof. destruct s; simpl; [done|]. by rewrite bool_decide_eq_true_2, is_prefix_refl. Qed.

(** X15. A patient who was just created is found by its family name: on
    sound servers, for a family name of ASCII text without the
    metacharacters of [LIKE], the search for that name on the store the
    creation left answers a list that has the created patient in it, with
    the values of the payload. *)
Theorem created_patient_is_found env env' db p birth :
  sound env → sound env' → patient_fits p →
  key_fits (Patient.id p) →
  date_in env (Patient.birthDate p) = Some birth →
  patients db !! Patient.id p = None →
  isascii (Patient.family_name p) →
  plain (chars (lower (Patient.family_name p))) →
  ∃ found,
    (search_patients env' (Patient.family_name p) (create_patient env p db).2).1
    = inr found
    ∧ PatientResource.mk (Patient.id p) (Patient.family_name p)
        (Patient.given_name p) (Patient.gender p) birth
        (Some (Patient.medical_summary p)) ∈ found.
Proof.
  intros Hsound [Hconf Hfault] Hfits Hid Hbirth Hnew _ Hplain.
  assert (patients (create_patient env p db).2
          = <[Patient.id p := row_of env (Patient.id p) p birth
                                (CURRENT_TIMESTAMP env)]> (patients db)) as Hp.
  { rewrite (create_patient_runs env db p birth) by done.
    cbn [snd]. after_log. done. }
  destruct (search_plain env' (create_patient env p db).2
              (Patient.family_name p) Hconf Hfault Hplain)
    as (rows & Hs & _ & Hperm).
  exists (resource_of <$> rows). split; [by rewrite Hs|].
  apply (list_elem_of_fmap_2 resource_of _
           (row_of env (Patient.id p) p birth (CURRENT_TIMESTAMP env))).
  rewrite Hperm. apply list_elem_of_filter. split.
  - unfold name_has. simpl. by rewrite contains_refl.
  - apply (list_elem_of_fmap_2 snd _ (Patient.id p, _)).
    apply elem_of_map_to_list. rewrite Hp. apply lookup_insert_eq.
Qed.

Lemma created_patient_is_found_witness :
  ∃ found,
    (search_patients env0 "Smith" db_smith).1 = inr found
    ∧ PatientResource.mk "p1" "Smith" "John" "male" (mkdate 1980 5 17)
        (Some "asthma") ∈ found.
Proof.
  apply (created_patient_is_found env0 env0 empty_db smith (mkdate 1980 5 17)).
  - by split.
  - by split.
  - by_decide.
  - by_decide.
  - reflexivity.
  - reflexivity.
  - by_decide.
  - vm_compute. repeat constructor; done.
Defined.

(** X16. An observation that was just created is listed for its patient:
    on sound servers the listing of the observations of the patient, on
    the store the creation left, has the stored observation in it. *)
Theorem created_observation_is_listed env env' db o row d :
  sound env → sound env' → reachable db → observation_fits o →
  length (chars (uuid4 env)) = 36%nat →
  date_in env (Observation.date o) = Some d →
  patients db !! Observation.patient_id o = Some row →
  observations db !! uuid4 env = None →
  ∃ rows,
    (get_observations env' (Observation.patient_id o)
       (create_observation env o db).2).1 = inr rows
    ∧ observation_row_of env o d ∈ rows.
Proof.
  intros Hsound Hsound' Hreach Hfits Huuid Hdate Hrow Hnew.
  destruct (create_observation_committed env db o row d) as (_ & Ho & Hp);
    try done; [lia | by eapply reachable_key_lengths |].
  rewrite (get_observations_runs env' _ _ row) by (done || by rewrite Hp).
  eexists. split; [reflexivity|].
  rewrite merge_sort_Permutation, <- observations_of_values.
  apply (list_elem_of_fmap_2 snd _ (uuid4 env, _)).
  apply elem_of_map_to_list. unfold observations_of.
  apply map_lookup_filter_Some. split; [|done].
  rewrite Ho. apply lookup_insert_eq.
Qed.

Lemma created_observation_is_listed_witness :
  ∃ rows,
    (get_observations env0 "p1" db_pulse).1 = inr rows
    ∧ observation_row_of env0 pulse (mkdate 2026 11 1) ∈ rows.
Proof.
  apply (created_observation_is_listed env0 env0 db_smith pulse row_smith).
  - by split.
  - by split.
  - apply (reachable_handle env0 (CreatePatient smith)), reachable_empty.
  - by_decide.
  - reflexivity.
  - reflexivity.
  - vm_compute. reflexivity.
  - reflexivity.
Defined.

(** ** The hosting API *)

Lemma find_service_Some services name service :
  find_service services name = Some service ↔
  ∃ before after,
    services = before ++ service :: after
    ∧ dict_get service "name" = JString name
    ∧ Forall (λ s, dict_get s "name" ≠ JString name) before.
Proof.
  assert (∀ v, str_eq v name = true ↔ v = JString name) as Heq.
  { intros v. destruct v; simpl; try (split; [done|by intros [=]]).
    rewrite bool_decide_eq_true. split; [by intros ->|by intros [= ->]]. }
  induction services as [|s services IH]; simpl.
  - split; [done|]. intros ([|??] & ? & ? & _); done.
  - destruct (str_eq (dict_get s "name") name) eqn:Hs.
    + apply Heq in Hs. split.
      * intros [= ->]. exists [], services. by repeat split.
      * intros ([|s' before] & after & Happ & Hname & Hbefore).
        -- by injection Happ as -> _.
        -- injection Happ as -> _. by apply Forall_cons in Hbefore as [? _].
    + assert (dict_get s "name" ≠ JString name) as Hne
        by (intros H%Heq; congruence).
      rewrite IH. split.
      * intros (before & after & -> & Hname & Hbefore).
        exists (s :: before), after. repeat split; [done|].
        by apply Forall_cons.
      * intros ([|s' before] & after & Happ & Hname & Hbefore).
        -- injection Happ as -> _. done.
        -- injection Happ as -> ->. apply Forall_cons in Hbefore as [_ ?].
           by exists before, after.
Qed.

Lemma find_service_None services name :
  find_service services name = None ↔
  Forall (λ s, dict_get s "name" ≠ JString name) services.
Proof.
  induction services as [|s services IH]; simpl; [done|].
  rewrite Forall_cons, <- IH.
  destruct (dict_get s "name") as [| | | |n| |]; simpl;
    try (split; [by intros ?|by intros [_ ?]]).
  case_bool_decide as Hn.
  - subst. split; [done|]. by intros [? _].
  - split; [|by intros [_ ?]]. intros ?. split; [|done]. by intros [= ->].
Qed.

(** X17. Of the services the provider lists, [get_service_by_name] answers
    the first whose name is the one asked for, and raises the [ValueError]
    that names it when there is none; so what [get_service_info] answers
    is under the name asked for. *)
Theorem get_service_by_name_first w name services :
  GET_services w = inr services →
  (∀ service,
     get_service_by_name w name = inr service ↔
     ∃ before after,
       services = before ++ service :: after
       ∧ dict_get service "name" = JString name
       ∧ Forall (λ s, dict_get s "name" ≠ JString name) before)
  ∧ (Forall (λ s, dict_get s "name" ≠ JString name) services ↔
     get_service_by_name w name
     = inl (PyValueError ("Servicio '" +:+ name +:+ "' no encontrado")))
  ∧ (∀ info, get_service_info w name = inr info →
             dict_get info "name" = JString name).
Proof.
  intros Hservices. unfold get_service_info, get_service_by_name.
  rewrite Hservices. unfold mbind, sum_bind. split; [|split].
  - intros service. rewrite <- find_service_Some.
    destruct (find_service services name); naive_solver.
  - rewrite <- find_service_None.
    destruct (find_service services name); naive_solver.
  - intros info.
    destruct (RenderMCP w None); [done|].
    destruct (find_service services name) as [service|] eqn:Hfind; [|done].
    apply find_service_Some in Hfind as (_ & _ & _ & Hname & _).
    unfold dict_item.
    repeat (case_match; try done). intros [= <-].
    match goal with
    | |- dict_get (("name", ?v) :: _) "name" = _ => change (v = JString name)
    end.
    congruence.
Qed.

Lemma get_service_by_name_first_witness :
  get_service_by_name render0 "ServidorFIHR"
  = inr [("id", JString "srv-1"); ("name", JString "ServidorFIHR")].
Proof.
  edestruct (get_service_by_name_first render0 "ServidorFIHR") as [H _];
    [reflexivity|].
  apply H. exists [[("id", JString "srv-0"); ("name", JString "other")]], [].
  split; [reflexivity|]. split; [reflexivity|].
  apply Forall_cons. split; [|done]. vm_compute. by intros [=].
Defined.

(** *** Watching a deploy *)

Lemma terminal_false deploy_status :
  terminal deploy_status = false →
  str_in (dict_get deploy_status "status") ["LIVE"; "SUCCESS"] = false
  ∧ str_in (dict_get deploy_status "status") ["BUILD_FAILED"; "DEPLOY_FAILED"]
    = false.
Proof.
  unfold terminal. destruct (dict_get deploy_status "status"); simpl; try done.
  rewrite !bool_decide_eq_false, !elem_of_cons, !elem_of_nil. tauto.
Qed.

(** With a client, the service and a current deploy, the watch is its
    loop of polls. *)
Lemma watch_deploy_polls w service_name service_id deploy_id max_attempts :
  watching w service_name service_id deploy_id →
  watch_deploy w service_name max_attempts
  = poll_deploy w service_id deploy_id 0 (Z.to_nat max_attempts).
Proof.
  intros (key & service & service_status & d & Hkey & Hservice & Hid
          & Hstatus & Hdeploy & Hd & Hdid).
  unfold watch_deploy, mbind, sum_bind.
  rewrite Hkey, Hservice, Hid, Hstatus, Hdeploy. simpl.
  rewrite bool_decide_eq_false_2 by done. simpl. by rewrite Hdid.
Qed.

(** The polls that find the deploy under way are passed over. *)
Lemma poll_deploy_skip w service_id deploy_id attempt k remaining :
  (∀ j, (attempt ≤ j < attempt + k)%nat →
        ∃ s, GET_deploy w service_id deploy_id j = inr s ∧ terminal s = false) →
  poll_deploy w service_id deploy_id attempt (k + remaining)
  = poll_deploy w service_id deploy_id (attempt + k) remaining.
Proof.
  revert attempt. induction k as [|k IH]; intros attempt Hpolls.
  - by rewrite Nat.add_0_r.
  - destruct (Hpolls attempt) as (s & Hs & Hterm); [lia|].
    apply terminal_false in Hterm as [H1 H2].
    cbn [Nat.add poll_deploy]. rewrite Hs, H1, H2.
    rewrite IH; [f_equal; lia|]. intros j Hj. apply Hpolls. lia.
Qed.

Lemma poll_deploy_alike w w' service_id deploy_id attempt remaining :
  (∀ i l, GET_service_logs w i l = GET_service_logs w' i l) →
  (∀ j, (attempt ≤ j < attempt + remaining)%nat →
        GET_deploy w service_id deploy_id j
        = GET_deploy w' service_id deploy_id j) →
  poll_deploy w service_id deploy_id attempt remaining
  = poll_deploy w' service_id deploy_id attempt remaining.
Proof.
  intros Hlogs. revert attempt.
  induction remaining as [|remaining IH]; intros attempt Hpolls; [done|].
  cbn [poll_deploy]. rewrite <- Hpolls, <- Hlogs by lia.
  destruct (GET_deploy w service_id deploy_id attempt); [done|].
  repeat case_match; try done. apply IH. intros j Hj. apply Hpolls. lia.
Qed.

(** X18. The watch of a deploy, once it has its client, service and
    current deploy: the first poll that finds a final status decides, a
    success answering the status and when it finished, a failure the
    status and the logs of the service; a poll that raises ends the watch
    with its exception; and after [max_attempts] polls that all found the
    deploy under way the answer is the timeout message. *)
Theorem watch_deploy_outcome w service_name service_id deploy_id max_attempts k :
  watching w service_name service_id deploy_id →
  (∀ j, (j < k)%nat →
        ∃ s, GET_deploy w service_id deploy_id j = inr s ∧ terminal s = false) →
  (Z.of_nat k < max_attempts →
   ∀ s status,
     GET_deploy w service_id deploy_id k = inr s →
     dict_get s "status" = JString status →
     (status ∈ ["LIVE"; "SUCCESS"] →
      watch_deploy w service_name max_attempts
      = inr [("message", JString "✅ Deploy completado exitosamente");
             ("status", JString status);
             ("finishedAt", dict_get s "finishedAt")])
     ∧ (status ∈ ["BUILD_FAILED"; "DEPLOY_FAILED"] →
        watch_deploy w service_name max_attempts
        = match GET_service_logs w service_id 100 with
          | inl e => inl e
          | inr logs =>
              inr [("error", JString ("❌ Error en deploy: " +:+ status));
                   ("logs", JString logs)]
          end))
  ∧ (Z.of_nat k < max_attempts →
     ∀ e, GET_deploy w service_id deploy_id k = inl e →
          watch_deploy w service_name max_attempts = inl e)
  ∧ (max_attempts ≤ Z.of_nat k →
     watch_deploy w service_name max_attempts
     = inr [("message", JString "⏱️ Timeout esperando deploy")]).
Proof.
  intros Hwatch Hpolls.
  rewrite (watch_deploy_polls _ _ _ _ _ Hwatch).
  split; [|split].
  - intros Hk s status Hs Hstatus.
    replace (Z.to_nat max_attempts)
      with (k + S (Z.to_nat max_attempts - S k))%nat by lia.
    rewrite poll_deploy_skip by (intros j Hj; apply Hpolls; lia).
    cbn [Nat.add poll_deploy]. rewrite Hs, Hstatus. simpl.
    split; intros Hin.
    + by rewrite bool_decide_eq_true_2.
    + rewrite bool_decide_eq_false_2.
      * by rewrite bool_decide_eq_true_2.
      * rewrite !elem_of_cons, elem_of_nil in *.
        destruct Hin as [-> | [-> | []]]; intros [? | [? | []]]; done.
  - intros Hk e He.
    replace (Z.to_nat max_attempts)
      with (k + S (Z.to_nat max_attempts - S k))%nat by lia.
    rewrite poll_deploy_skip by (intros j Hj; apply Hpolls; lia).
    cbn [Nat.add poll_deploy]. by rewrite He.
  - intros Hk.
    replace (Z.to_nat max_attempts) with (Z.to_nat max_attempts + 0)%nat by lia.
    rewrite poll_deploy_skip; [done|].
    intros j Hj. apply Hpolls. lia.
Qed.

Lemma watch_deploy_outcome_witness :
  watch_deploy render0 "ServidorFIHR" 60
  = inr [("message", JString "✅ Deploy completado exitosamente");
         ("status", JString "LIVE");
         ("finishedAt", JString "2026-11-03T10:00:00Z")].
Proof.
  edestruct (watch_deploy_outcome render0 "ServidorFIHR" (JString "srv-1")
               (JString "dep-1") 60 2) as [Hlive _].
  - exists "rnd_key", [("id", JString "srv-1"); ("name", JString "ServidorFIHR")],
      [("status", JString "deploying");
       ("currentDeploy", JObject [("id", JString "dep-1")])],
      [("id", JString "dep-1")].
    repeat split; done.
  - intros j Hj. eexists. split; [reflexivity|].
    simpl. rewrite bool_decide_eq_true_2 by done. reflexivity.
  - edestruct Hlive as [Hok _]; [lia | reflexivity | reflexivity |].
    apply Hok. apply elem_of_cons. by left.
Defined.

(** X19. The watch asks for the status of the deploy at most
    [max_attempts] times: what the provider would answer to a later poll
    has no part in the result. So [GET /render/deploy-status], which
    watches with one attempt, depends on the first poll only. *)
Theorem watch_deploy_polls_at_most w w' service_name max_attempts :
  alike_before (Z.to_nat max_attempts) w w' →
  watch_deploy w service_name max_attempts
  = watch_deploy w' service_name max_attempts.
Proof.
  intros (Hkey & Hservices & Hservice & Hlogs & Hpolls).
  assert (RenderMCP w None = RenderMCP w' None) as Hclient
    by (unfold RenderMCP; by rewrite Hkey).
  assert (get_service_by_name w service_name
          = get_service_by_name w' service_name) as Hfound
    by (unfold get_service_by_name; by rewrite Hservices).
  unfold watch_deploy. rewrite Hclient, Hfound. unfold mbind, sum_bind.
  destruct (RenderMCP w' None); [done|].
  destruct (get_service_by_name w' service_name) as [|service]; [done|].
  destruct (dict_item service "id") as [|service_id]; [done|].
  rewrite Hservice.
  destruct (GET_service w' service_id) as [|service_status]; [done|].
  destruct (negb _); [done|].
  destruct (py_get _ _) as [|deploy_id]; [done|].
  apply poll_deploy_alike; [done|]. intros j Hj. apply Hpolls. lia.
Qed.

Lemma watch_deploy_polls_at_most_witness :
  render_deploy_status render0
  = render_deploy_status
      (mkRender (RENDER_API_KEY render0) (GET_services render0)
         (GET_service render0) (GET_service_logs render0)
         (GET_env_vars render0) (PUT_env_var render0) (POST_deploys render0)
         (λ i d j, if bool_decide (j = 0)%nat then GET_deploy render0 i d j
                   else inl (RequestException "timed out"))).
Proof.
  unfold render_deploy_status.
  erewrite (watch_deploy_polls_at_most render0); [reflexivity|].
  split; [reflexivity|]. split; [reflexivity|]. split; [reflexivity|].
  split; [reflexivity|].
  intros i d j Hj. simpl. rewrite (bool_decide_eq_true_2 (j = 0)%nat); [done|].
  simpl in Hj. lia.
Defined.

(** *** The variables of the service *)

Lemma dict_get_set d key value : dict_get (dict_set d key value) key = value.
Proof.
  unfold dict_get. induction d as [|[k v] d IH]; simpl.
  - by rewrite bool_decide_eq_true_2.
  - case_bool_decide as Hk; simpl.
    + by rewrite bool_decide_eq_true_2.
    + by rewrite bool_decide_eq_false_2.
Qed.

Lemma dict_get_set_ne d key value key' :
  key' ≠ key → dict_get (dict_set d key value) key' = dict_get d key'.
Proof.
  intros Hne. unfold dict_get. induction d as [|[k v] d IH]; simpl.
  - by rewrite bool_decide_eq_false_2.
  - case_bool_decide as Hk; simpl.
    + subst. by rewrite !bool_decide_eq_false_2 by done.
    + case_bool_decide; [done|]. exact IH.
Qed.

(** X20. [GET /render/env-vars] answers the variables of the service in
    the order of the provider, each with its members as the provider gave
    them, but for the value of the variables whose key is [API_KEY],
    [DATABASE_URL] or [RENDER_API_KEY]: that value is the redaction mark
    of the route, not what the provider sent. *)
Theorem env_vars_are_redacted w vars :
  get_env_vars w "ServidorFIHR" = inr vars →
  ∃ shown,
    render_get_env_vars w
    = inr (JObject [("success", JBool true);
                    ("data", JArray (JObject <$> shown))])
    ∧ length shown = length vars
    ∧ ∀ i var,
        vars !! i = Some var →
        ∃ var',
          shown !! i = Some var'
          ∧ (∀ k, k ≠ "value" → dict_get var' k = dict_get var k)
          ∧ if str_in (dict_get var "key")
                 ["API_KEY"; "DATABASE_URL"; "RENDER_API_KEY"]
            then dict_get var' "value" = JString "***REDACTED***"
            else var' = var.
Proof.
  intros Hvars. exists (redact <$> vars).
  split; [|split].
  - unfold render_get_env_vars. by rewrite Hvars.
  - apply length_fmap.
  - intros i var Hi. exists (redact var).
    split; [by rewrite list_lookup_fmap, Hi|].
    unfold redact.
    destruct (str_in (dict_get var "key") _); [|done].
    split; [|apply dict_get_set].
    intros k Hk. by apply dict_get_set_ne.
Qed.

Lemma env_vars_are_redacted_witness :
  ∃ shown,
    render_get_env_vars render0
    = inr (JObject [("success", JBool true);
                    ("data", JArray (JObject <$> shown))])
    ∧ length shown = 2%nat
    ∧ ∃ var, shown !! 0%nat = Some var
             ∧ dict_get var "key" = JString "API_KEY"
             ∧ dict_get var "value" = JString "***REDACTED***".
Proof.
  destruct (env_vars_are_redacted render0
              [[("key", JString "API_KEY"); ("value", JString "secret")];
               [("key", JString "PORT"); ("value", JString "8000")]])
    as (shown & Hreply & Hlen & Hvars); [reflexivity|].
  exists shown. split; [exact Hreply|]. split; [exact Hlen|].
  destruct (Hvars 0%nat _ eq_refl) as (var & Hvar & Hothers & Hvalue).
  exists var. split; [exact Hvar|]. split; [|exact Hvalue].
  by rewrite Hothers.
Defined.

(** *** Without a key *)

Lemma RenderMCP_without_key w :
  RENDER_API_KEY w = None ∨ RENDER_API_KEY w = Some EmptyString →
  RenderMCP w None = inl (PyValueError "RENDER_API_KEY no configurada").
Proof. unfold RenderMCP. by intros [-> | ->]. Qed.

(** X21. Without [RENDER_API_KEY] in the environment (unset or empty) no
    route of the hosting API gets as far as a call to the provider: each
    answers 500 with the message of the missing key after the prefix of
    the route, and [GET /render/health] reports the same message with
    [success] false. *)
Theorem render_without_key w key value :
  RENDER_API_KEY w = None ∨ RENDER_API_KEY w = Some EmptyString →
  render_service_status w
  = inl (HTTPException 500
           "Error conectando a Render API: RENDER_API_KEY no configurada")
  ∧ render_redeploy w
    = inl (HTTPException 500
             "Error triggereando redeploy: RENDER_API_KEY no configurada")
  ∧ render_deploy_status w
    = inl (HTTPException 500
             "Error consultando deploy: RENDER_API_KEY no configurada")
  ∧ render_get_env_vars w
    = inl (HTTPException 500
             "Error obteniendo variables: RENDER_API_KEY no configurada")
  ∧ render_update_env_var w key value
    = inl (HTTPException 500
             "Error actualizando variable: RENDER_API_KEY no configurada")
  ∧ render_health w
    = JObject [("success", JBool false);
               ("message", JString "Error: RENDER_API_KEY no configurada")].
Proof.
  intros Hkey%RenderMCP_without_key.
  unfold render_service_status, render_redeploy, render_deploy_status,
    render_get_env_vars, render_update_env_var, render_health,
    get_service_info, redeploy_service, watch_deploy, get_env_vars,
    update_env_var.
  rewrite Hkey. repeat split; reflexivity.
Qed.

Lemma render_without_key_witness :
  render_health
    (mkRender None (GET_services render0) (GET_service render0)
       (GET_service_logs render0) (GET_env_vars render0)
       (PUT_env_var render0) (POST_deploys render0) (GET_deploy render0))
  = JObject [("success", JBool false);
             ("message", JString "Error: RENDER_API_KEY no configurada")].
Proof.
  edestruct (render_without_key
               (mkRender None (GET_services render0) (GET_service render0)
                  (GET_service_logs render0) (GET_env_vars render0)
                  (PUT_env_var render0) (POST_deploys render0)
                  (GET_deploy render0)) "PORT" "8000")
    as (_ & _ & _ & _ & _ & H); [by left|]. exact H.
Defined.
